(** * WhatsApp session pool, recipient resolver, batch dispatch and webhooks

    A shallow embedding of the orchestration code of the backend:
    - services/waManager.js        (session pool: start, create, restore, delete)
    - services/webhookManager.js   (sendWebhook and the notify wrappers)
    - controllers/message.controller.js (randomDelay, resolveRecipient,
      sendBatchMessage)
    - controllers/session.controller.js (deleteSessionController)
    - controllers/group.controller.js   (getGroupIdByName, the sibling
      name lookup)

    JavaScript strings are sequences of UTF-16 code units, so they are
    modelled as [list N].  Asynchronous functions are modelled as trees of
    calls to the outside (the pool Map, the whatsapp-web.js Client, the
    mongoose model, the runtime) with explicit suspension points; a tree is
    run against a world and an environment that answers the calls.  [run]
    runs a tree when the session collection answers every call,
    [runWith] when some of its calls are rejected.  The numbers of
    JavaScript and the conversions of the runtime are a parameter
    ([arithmetic]). *)

From stdpp Require Import gmap strings list fin_maps.
From Stdlib Require Import ZArith NArith DecimalString.

Local Open Scope N_scope.

(** ** JavaScript strings *)

Definition js (s : string) : list N :=
  map Ascii.N_of_ascii (String.list_ascii_of_string s).
Arguments js : simpl never.

(** [\d] of a JavaScript regular expression. *)
Definition isDigit (c : N) : bool := (48 <=? c) && (c <=? 57).

(** [\s] of a JavaScript regular expression, which is also the set that
    [String.prototype.trim] strips: white space and line terminators. *)
Definition isSpace (c : N) : bool :=
  ((9 <=? c) && (c <=? 13)) || (c =? 32) || (c =? 160) || (c =? 5760)
  || ((8192 <=? c) && (c <=? 8202)) || (c =? 8232) || (c =? 8233)
  || (c =? 8239) || (c =? 8287) || (c =? 12288) || (c =? 65279).

(** [recipient.replace(/\D/g, '')] *)
Definition removeNonDigits (s : list N) : list N := filter (fun c => isDigit c = true) s.

(** [/[\s\-\+]/] *)
Definition isSeparator (c : N) : bool := isSpace c || (c =? 45) || (c =? 43).

(** [recipient.replace(/[\s\-\+]/g, '')] *)
Definition removeSeparators (s : list N) : list N :=
  filter (fun c => isSeparator c = false) s.

Fixpoint startsWith (s p : list N) : bool :=
  match p, s with
  | [], _ => true
  | _ :: _, [] => false
  | a :: p', b :: s' => (a =? b) && startsWith s' p'
  end.

(** [s.includes(p)] *)
Fixpoint includes (s p : list N) : bool :=
  startsWith s p ||
  match s with
  | [] => false
  | _ :: s' => includes s' p
  end.

Fixpoint trimStart (s : list N) : list N :=
  match s with
  | [] => []
  | c :: s' => if isSpace c then trimStart s' else s
  end.

Fixpoint trimEnd (s : list N) : list N :=
  match s with
  | [] => []
  | c :: s' =>
      match trimEnd s' with
      | [] => if isSpace c then [] else [c]
      | t => c :: t
      end
  end.

(** [s.trim()] *)
Definition trim (s : list N) : list N := trimEnd (trimStart s).

(** Truthiness of a possibly missing string: [undefined], [null] and the
    empty string are falsy. *)
Definition truthy (o : option (list N)) : bool :=
  match o with
  | Some (_ :: _) => true
  | _ => false
  end.

(** [a || b] on possibly missing strings. *)
Definition orElse (a : option (list N)) (b : list N) : list N :=
  match a with
  | Some (c :: s) => c :: s
  | _ => b
  end.

(** The restriction of [toLowerCase] to the ASCII letters. *)
Definition asciiLower (s : list N) : list N :=
  map (fun c => if (65 <=? c) && (c <=? 90) then c + 32 else c) s.

Definition eqs (a b : list N) : bool := bool_decide (a = b).

Local Close Scope N_scope.

(** ** Data model *)

Inductive status :=
| Pending | Qr | Authenticated | Connected
| AuthFailed | Disconnected | Failed | NetworkError.

Global Instance status_eq_dec : EqDecision status.
Proof. solve_decision. Defined.

Definition terminal (s : status) : bool :=
  match s with
  | AuthFailed | Disconnected | Failed | NetworkError => true
  | _ => false
  end.

(** models/session.js *)
Record session := mkSession {
  userId : list N;
  sessionId : list N;
  sessionName : list N;
  sessionStatus : status;
  phoneNumber : option (list N);
  qr : option (list N);
  createdAt : Z;
  updatedAt : Z
}.

Definition withStatus (st : status) (now : Z) (s : session) : session :=
  mkSession (userId s) (sessionId s) (sessionName s) st
            (phoneNumber s) (qr s) (createdAt s) now.

(** A thrown JavaScript [Error]. *)
Record error := Error { message : list N }.

(** How a promise (or a synchronous call) settles. *)
Inductive outcome (A : Type) :=
| Fulfilled (a : A)
| Rejected (e : error).
Arguments Fulfilled {A} a.
Arguments Rejected {A} e.

(** A chat as [client.getChats()] lists it. *)
Record chat := mkChat {
  isGroup : bool;
  chatName : option (list N);
  chatId : list N            (* id._serialized *)
}.

(** A [MessageMedia] object. *)
Record media := mkMedia {
  mimetype : list N;
  mediaData : list N;
  mediaFilename : option (list N)
}.

(** What [client.sendMessage(chatId, content, options)] is given. *)
Inductive content :=
| Text (text : list N)
| Media (m : media) (caption : option (list N)).

(** A Client object, by the order of its construction. *)
Definition handle := nat.

(** How [client.initialize()] behaves within the 60 s of the race. *)
Inductive initBehaviour :=
| InitResolves
| InitRejects (e : error)
| InitHangs.

(** An uploaded file of a multipart request ([req.files]). *)
Record upload := mkUpload {
  uploadPath : list N;
  originalname : list N
}.

(** One element of the [results] array of [sendBatchMessage]:
    [{ sessionId, error }] for a session that is not available,
    [{ sessionId, to, status: "failed", error }] and
    [{ sessionId, to, originalRecipient, groupName, type, filename?,
       status: "sent", messageId }]. *)
Inductive entry :=
| Unavailable (sid err : list N)
| FailedEntry (sid to err : list N)
| SentEntry (sid to originalRecipient groupName type : list N)
            (filename : option (list N)) (messageId : list N).

(** ** Calls to the outside

    Every access of the modelled functions to something they do not own:
    the module-level [clients] Map of waManager.js, a whatsapp-web.js
    Client, the mongoose [sessionModel], the [registeredWebhooks] Map and
    [webhookUrls] object of webhookManager.js, axios, fs and the runtime.
    The [results] array that [sendBatchMessage] allocates and pushes to is
    an object of the heap as well: what has been pushed stays pushed when
    an exception unwinds the pushing code (one batch is followed at a
    time). *)

Inductive call :=
(* const clients = new Map() *)
| ClientsHas (sid : list N)
| ClientsGet (sid : list N)
| ClientsSet (sid : list N) (h : handle)
| ClientsDelete (sid : list N)
| ClientsEntries
(* whatsapp-web.js *)
| NewClient (sid : list N)
| ClientInfo (h : handle)
| InitializeRace (h : handle)
| Destroy (h : handle)
| GetChats (h : handle)
| SendMessage (h : handle) (to : list N) (c : content)
| MediaFromUrl (url : list N)
(* sessionModel *)
| DeleteMany (uid : list N) (sts : list status) (before : Z)
| DeleteAll
| Create (s : session)
| FindOne (sid : list N)
| FindOneAndUpdate (sid : list N) (st : status) (now : Z)
| FindOneAndDelete (sid : list N)
(* webhookManager.js state, axios *)
| RegisteredGet (eventType : list N)
| WebhookUrls (eventType : list N)
| AxiosPost (url : list N) (payload : list (list N * option (list N))) (eventType : list N)
(* const results = [] of sendBatchMessage *)
| ResultsNew
| ResultsPush (e : entry)
| ResultsGet
(* runtime *)
| DateNow
| LocaleString
| UuidV4
| MathRandom
| SetTimeout (ms : Z)
| Import (module : list N)
| ExistsSync (path : list N)
| RmSync (path : list N)
| ReadFileBase64 (path : list N)
| UnlinkSync (path : list N)
| MimeLookup (name : list N)
| ConsoleLog (line : list N)
| ConsoleError (line : list N).

Definition resp_of (c : call) : Type :=
  match c with
  | ClientsHas _ => bool
  | ClientsGet _ => option handle
  | ClientsSet _ _ => unit
  | ClientsDelete _ => unit
  | ClientsEntries => list (list N * handle)
  | NewClient _ => handle
  | ClientInfo _ => option (list N)
  | InitializeRace _ => unit
  | Destroy _ => unit
  | GetChats _ => list chat
  | SendMessage _ _ _ => list N
  | MediaFromUrl _ => media
  | DeleteMany _ _ _ => nat
  | DeleteAll => nat
  | Create _ => unit
  | FindOne _ => option session
  | FindOneAndUpdate _ _ _ => unit
  | FindOneAndDelete _ => option session
  | RegisteredGet _ => option (list N)
  | WebhookUrls _ => option (list N)
  | AxiosPost _ _ _ => unit
  | ResultsNew => unit
  | ResultsPush _ => unit
  | ResultsGet => list entry
  | DateNow => Z
  | LocaleString => list N
  | UuidV4 => list N
  | MathRandom => (nat * nat)%type
  | SetTimeout _ => unit
  | Import _ => unit
  | ExistsSync _ => bool
  | RmSync _ => unit
  | ReadFileBase64 _ => list N
  | UnlinkSync _ => unit
  | MimeLookup _ => option (list N)
  | ConsoleLog _ => unit
  | ConsoleError _ => unit
  end.

(** ** Asynchronous programs

    [Do c k] performs the call [c] and goes on with how it settled;
    [Yield k] is a suspension point: the function gives the event loop
    back, and other tasks may run before [k] does. *)

Inductive async (A : Type) : Type :=
| Ret (a : A)
| Throw (e : error)
| Do (c : call) (k : outcome (resp_of c) -> async A)
| Yield (k : async A).
Arguments Ret {A} a.
Arguments Throw {A} e.
Arguments Do {A} c k.
Arguments Yield {A} k.

Fixpoint bind {A B} (p : async A) (f : A -> async B) : async B :=
  match p with
  | Ret a => f a
  | Throw e => Throw e
  | Do c k => Do c (fun r => bind (k r) f)
  | Yield k => Yield (bind k f)
  end.

Global Instance async_ret : MRet async := fun _ a => Ret a.
Global Instance async_bind : MBind async := fun _ _ f p => bind p f.

(** [try { p } catch (e) { h e }] *)
Fixpoint tryCatch {A} (p : async A) (h : error -> async A) : async A :=
  match p with
  | Ret a => Ret a
  | Throw e => h e
  | Do c k => Do c (fun r => tryCatch (k r) h)
  | Yield k => Yield (tryCatch k h)
  end.

Definition settle {A} (r : outcome A) : async A :=
  match r with
  | Fulfilled a => Ret a
  | Rejected e => Throw e
  end.

(** A synchronous call: it returns or throws on the spot. *)
Definition sync (c : call) : async (resp_of c) := Do c settle.

(** [await c]: the operation is started, the function is suspended, and
    it resumes with the value or the exception of the settled promise. *)
Definition await (c : call) : async (resp_of c) :=
  Do c (fun r => Yield (settle r)).

(** [await p] for an async function of this program: the callee runs up to
    its own suspension points, and the caller resumes one turn after the
    callee has settled. *)
Definition awaitFn {A} (p : async A) : async A :=
  tryCatch (a ← p; Yield (Ret a)) (fun e => Yield (Throw e)).

(** [for (const x of xs) { body x }] *)
Fixpoint forOf {X} (xs : list X) (body : X -> async unit) : async unit :=
  match xs with
  | [] => Ret tt
  | x :: xs' => body x ;; forOf xs' body
  end.

(** ** The world and the environment *)

(** What the program owns or writes: the pool, the session collection
    (keyed by the unique [sessionId]), the webhook registrations, the files
    on disk, the [results] array of the batch in progress, the number of
    Client objects constructed so far and the number of calls made. *)
Record world := mkWorld {
  clients : gmap (list N) handle;
  sessions : gmap (list N) session;
  registeredWebhooks : gmap (list N) (list N);
  webhookUrls : gmap (list N) (list N);
  files : gset (list N);
  results : list entry;
  created : nat;
  tick : nat
}.

(** What the outside answers, at each call (the calls are numbered by
    [tick], so that an environment may answer differently each time). *)
Record env := mkEnv {
  e_info : nat -> handle -> outcome (option (list N));
  e_initialize : nat -> handle -> initBehaviour;
  e_destroy : nat -> handle -> outcome unit;
  e_getChats : nat -> handle -> outcome (list chat);
  e_sendMessage : nat -> handle -> list N -> content -> outcome (list N);
  e_fromUrl : nat -> list N -> outcome media;
  e_post : nat -> list N -> outcome unit;
  e_now : nat -> Z;
  e_locale : nat -> list N;
  e_uuid : nat -> list N;
  e_random : nat -> nat * nat;
  e_rmSync : nat -> list N -> outcome unit;
  e_readFile : nat -> list N -> outcome (list N);
  e_mime : list N -> option (list N)
}.

Definition setClients (f : gmap (list N) handle -> gmap (list N) handle) (w : world) : world :=
  mkWorld (f (clients w)) (sessions w) (registeredWebhooks w) (webhookUrls w)
          (files w) (results w) (created w) (tick w).

Definition setSessions (f : gmap (list N) session -> gmap (list N) session) (w : world) : world :=
  mkWorld (clients w) (f (sessions w)) (registeredWebhooks w) (webhookUrls w)
          (files w) (results w) (created w) (tick w).

Definition setFiles (f : gset (list N) -> gset (list N)) (w : world) : world :=
  mkWorld (clients w) (sessions w) (registeredWebhooks w) (webhookUrls w)
          (f (files w)) (results w) (created w) (tick w).

Definition setResults (f : list entry -> list entry) (w : world) : world :=
  mkWorld (clients w) (sessions w) (registeredWebhooks w) (webhookUrls w)
          (files w) (f (results w)) (created w) (tick w).

Definition construct (w : world) : world :=
  mkWorld (clients w) (sessions w) (registeredWebhooks w) (webhookUrls w)
          (files w) (results w) (S (created w)) (tick w).

Definition next (w : world) : world :=
  mkWorld (clients w) (sessions w) (registeredWebhooks w) (webhookUrls w)
          (files w) (results w) (created w) (S (tick w)).

(** The filter of [sessionModel.deleteMany({ userId, status: { $in: sts },
    updatedAt: { $lt: before } })]. *)
Definition stale (uid : list N) (sts : list status) (before : Z) (s : session) : Prop :=
  userId s = uid /\ sessionStatus s ∈ sts /\ (updatedAt s < before)%Z.

Global Instance stale_dec uid sts before s : Decision (stale uid sts before s).
Proof. unfold stale. apply _. Defined.

(** [fs.rmSync(path, { recursive: true, force: true })] removes [path] and
    what lies below it. *)
Definition under (path f : list N) : Prop :=
  f = path \/ startsWith f (path ++ js "/") = true.

Global Instance under_dec path f : Decision (under path f).
Proof. unfold under. apply _. Defined.

Definition timeoutError : error :=
  Error (js "Initialization timeout after 60s").

(** [Promise.race([initPromise, timeoutPromise])]: the error it rejects
    with, if it does. *)
Definition initFailure (b : initBehaviour) : option error :=
  match b with
  | InitResolves => None
  | InitRejects e => Some e
  | InitHangs => Some timeoutError
  end.

Definition duplicateKey : error :=
  Error (js "E11000 duplicate key error").

(** The effect and the answer of one call, when the session collection
    answers: the calls of the mongoose model do what they say and do not
    reject, but for [Create] on a session id that is already there (the
    unique index).  [answerWith], below, lets the collection reject.  What
    a Client, the network, the clock, the random source and the file
    system answer is up to the environment.

    The pool is a finite map, which does not record the order in which
    its entries were set: [ClientsEntries] lists the pool in the order of
    the keys, the [Map] of the code in the order of insertion.  What is
    stated of a loop over the entries is stated up to their order. *)
Definition answer (E : env) (w : world) (c : call) : world * outcome (resp_of c) :=
  let t := tick w in
  match c return world * outcome (resp_of c) with
  | ClientsHas sid =>
      (w, Fulfilled (match clients w !! sid with Some _ => true | None => false end))
  | ClientsGet sid => (w, Fulfilled (clients w !! sid))
  | ClientsSet sid h => (setClients (insert sid h) w, Fulfilled tt)
  | ClientsDelete sid => (setClients (delete sid) w, Fulfilled tt)
  | ClientsEntries => (w, Fulfilled (map_to_list (clients w)))
  | NewClient sid => (construct w, Fulfilled (created w))
  | ClientInfo h => (w, e_info E t h)
  | InitializeRace h =>
      (w, match initFailure (e_initialize E t h) with
          | None => Fulfilled tt
          | Some e => Rejected e
          end)
  | Destroy h => (w, e_destroy E t h)
  | GetChats h => (w, e_getChats E t h)
  | SendMessage h to c => (w, e_sendMessage E t h to c)
  | MediaFromUrl url => (w, e_fromUrl E t url)
  | DeleteMany uid sts before =>
      let kept := filter (fun kv => ¬ stale uid sts before kv.2) (sessions w) in
      (setSessions (fun _ => kept) w, Fulfilled (size (sessions w) - size kept)%nat)
  | DeleteAll => (setSessions (fun _ => ∅) w, Fulfilled (size (sessions w)))
  | Create s =>
      match sessions w !! sessionId s with
      | Some _ => (w, Rejected duplicateKey)
      | None => (setSessions (insert (sessionId s) s) w, Fulfilled tt)
      end
  | FindOne sid => (w, Fulfilled (sessions w !! sid))
  | FindOneAndUpdate sid st now =>
      (setSessions (alter (withStatus st now) sid) w, Fulfilled tt)
  | FindOneAndDelete sid =>
      (setSessions (delete sid) w, Fulfilled (sessions w !! sid))
  | RegisteredGet ev => (w, Fulfilled (registeredWebhooks w !! ev))
  | WebhookUrls ev => (w, Fulfilled (webhookUrls w !! ev))
  | AxiosPost url _ _ => (w, e_post E t url)
  | ResultsNew => (setResults (fun _ => []) w, Fulfilled tt)
  | ResultsPush e => (setResults (fun l => l ++ [e]) w, Fulfilled tt)
  | ResultsGet => (w, Fulfilled (results w))
  | DateNow => (w, Fulfilled (e_now E t))
  | LocaleString => (w, Fulfilled (e_locale E t))
  | UuidV4 => (w, Fulfilled (e_uuid E t))
  | MathRandom => (w, Fulfilled (e_random E t))
  | SetTimeout _ => (w, Fulfilled tt)
  | Import _ => (w, Fulfilled tt)
  | ExistsSync path =>
      (w, Fulfilled (bool_decide (Exists (under path) (elements (files w)))))
  | RmSync path =>
      match e_rmSync E t path with
      | Fulfilled _ => (setFiles (filter (fun f => ¬ under path f)) w, Fulfilled tt)
      | Rejected e => (w, Rejected e)
      end
  | ReadFileBase64 path => (w, e_readFile E t path)
  | UnlinkSync path =>
      if bool_decide (path ∈ files w)
      then (setFiles (fun f => f ∖ {[path]}) w, Fulfilled tt)
      else (w, Rejected (Error (js "ENOENT")))
  | MimeLookup name => (w, Fulfilled (e_mime E name))
  | ConsoleLog _ => (w, Fulfilled tt)
  | ConsoleError _ => (w, Fulfilled tt)
  end.

Definition perform (E : env) (w : world) (c : call) : world * outcome (resp_of c) :=
  let '(w', r) := answer E w c in (next w', r).

(** A function that runs alone: the suspension points give nobody a
    turn.  The result is the final world, the calls made in order, and how
    the function settled. *)
Fixpoint run {A} (E : env) (p : async A) (w : world) : world * list call * outcome A :=
  match p with
  | Ret a => (w, [], Fulfilled a)
  | Throw e => (w, [], Rejected e)
  | Do c k =>
      let '(w1, r) := perform E w c in
      let '(w2, tr, o) := run E (k r) w1 in
      (w2, c :: tr, o)
  | Yield k => run E k w
  end.

(** Several tasks on one event loop.  A task runs without interruption up
    to its next suspension point ([segment]); the schedule says which
    suspended task resumes next.  The calls of all tasks are recorded in
    the order in which they are made. *)
Fixpoint segment {A} (E : env) (p : async A) (w : world) : world * list call * async A :=
  match p with
  | Do c k =>
      let '(w1, r) := perform E w c in
      let '(w2, tr, p') := segment E (k r) w1 in
      (w2, c :: tr, p')
  | _ => (w, [], p)
  end.

Definition resume {A} (E : env) (p : async A) (w : world) : world * list call * async A :=
  match p with
  | Yield k => segment E k w
  | _ => (w, [], p)
  end.

(** Calling the async functions one after the other: each runs up to its
    first suspension point. *)
Fixpoint start {A} (E : env) (ps : list (async A)) (w : world)
  : world * list call * list (async A) :=
  match ps with
  | [] => (w, [], [])
  | p :: ps' =>
      let '(w1, tr1, p1) := segment E p w in
      let '(w2, tr2, ps1) := start E ps' w1 in
      (w2, tr1 ++ tr2, p1 :: ps1)
  end.

Fixpoint interleave {A} (E : env) (schedule : list nat) (ts : list (async A)) (w : world)
  : world * list call * list (async A) :=
  match schedule with
  | [] => (w, [], ts)
  | i :: schedule' =>
      match ts !! i with
      | Some p =>
          let '(w1, tr1, p1) := resume E p w in
          let '(w2, tr2, ts') := interleave E schedule' (<[i := p1]> ts) w1 in
          (w2, tr1 ++ tr2, ts')
      | None => interleave E schedule' ts w
      end
  end.

Definition concurrently {A} (E : env) (schedule : list nat) (ps : list (async A)) (w : world)
  : world * list call * list (async A) :=
  let '(w1, tr1, ts) := start E ps w in
  let '(w2, tr2, ts') := interleave E schedule ts w1 in
  (w2, tr1 ++ tr2, ts').

(** ** services/webhookManager.js *)

Module Webhook.

Definition sentLine (eventType url : list N) : list N :=
  [9989%N] ++ js " Webhook sent: " ++ eventType ++ js " " ++ [8594%N] ++ js " " ++ url.

Definition failedLine (eventType msg : list N) : list N :=
  [10060%N] ++ js " Webhook failed for " ++ eventType ++ js ": " ++ msg.

Definition sendWebhook (eventType : list N) (payload : list (list N * option (list N)))
  : async unit :=
  url ← sync (RegisteredGet eventType);
  url ← (if truthy url then Ret url else sync (WebhookUrls eventType));
  match url with
  | Some (c :: u) =>
      tryCatch
        (await (AxiosPost (c :: u) payload eventType);;
         sync (ConsoleLog (sentLine eventType (c :: u))))
        (fun err => sync (ConsoleError (failedLine eventType (message err))))
  | _ => Ret tt
  end.

(** The argument of a notify function: an object read by property name. *)
Definition object := list N -> option (list N).

Definition fields (data : object) (names : list string) : list (list N * option (list N)) :=
  map (fun n => (js n, data (js n))) names.

Definition notifyMessageReceived (data : object) : async unit :=
  awaitFn (sendWebhook (js "message")
    ((js "event", Some (js "message.received"))
     :: fields data ["messageId"; "from"; "to"; "text"; "type"; "timestamp"; "sessionId"]%string)).

Definition notifyMessageDelivered (data : object) : async unit :=
  awaitFn (sendWebhook (js "delivery")
    ((js "event", Some (js "message.delivered"))
     :: fields data ["messageId"; "status"; "timestamp"; "sessionId"]%string)).

Definition notifyGroupMemberAdded (data : object) : async unit :=
  awaitFn (sendWebhook (js "group")
    ((js "event", Some (js "group.member.added"))
     :: fields data ["groupId"; "groupName"; "waId"; "addedBy"; "timestamp"; "sessionId"]%string)).

Definition notifyGroupMemberRemoved (data : object) : async unit :=
  awaitFn (sendWebhook (js "group")
    ((js "event", Some (js "group.member.removed"))
     :: fields data ["groupId"; "groupName"; "waId"; "removedBy"; "timestamp"; "sessionId"]%string)).

Definition notifySessionUpdate (data : object) : async unit :=
  awaitFn (sendWebhook (js "session")
    ((js "event", Some (js "session.update"))
     :: fields data ["sessionId"; "status"; "phoneNumber"; "timestamp"]%string)).

Definition notifyMessageAck (data : object) : async unit :=
  awaitFn (sendWebhook (js "delivery")
    ((js "event", Some (js "message.ack"))
     :: fields data ["messageId"; "ack"; "ackName"; "timestamp"; "sessionId"]%string)).

End Webhook.

(** ** services/waManager.js

    The [console] lines of this module are left out: they read no state
    and decide nothing.  The [client.on(...)] registrations of
    [createClient] belong to the construction of the Client ([NewClient]);
    the callbacks themselves run only when the library fires an event. *)

Module Manager.

(** [if (client.info) ...]: the Client is ready once [info] is there. *)
Definition hasInfo (client : handle) : async bool :=
  info ← sync (ClientInfo client);
  Ret (bool_decide (is_Some info)).

(** Reading [.info] of what [clients.get] returned; of [undefined] it
    throws a TypeError. *)
Definition infoOf (client : option handle) : async bool :=
  match client with
  | Some c => hasInfo c
  | None => Throw (Error (js "Cannot read properties of undefined (reading 'info')"))
  end.

Definition isNetworkError (msg : list N) : bool :=
  includes msg (js "ERR_INTERNET_DISCONNECTED")
  || includes msg (js "ERR_NAME_NOT_RESOLVED")
  || includes msg (js "net::").

Definition createClient (userId sessionId sessionName : list N) : async handle :=
  tryCatch
    (has ← sync (ClientsHas sessionId);
     existing ←
       (if has : bool then
          existingClient ← sync (ClientsGet sessionId);
          tryCatch
            (ready ← infoOf existingClient;
             Ret (if ready : bool then existingClient else None))
            (fun e => sync (ClientsDelete sessionId);; Ret None)
        else Ret None);
     match existing with
     | Some existingClient => Ret existingClient
     | None =>
         sessionInfo ← await (FindOne sessionId);
         client ← sync (NewClient sessionId);
         sync (ClientsSet sessionId client);;
         tryCatch
           (await (InitializeRace client);;
            Ret client)
           (fun initError =>
              now ← sync DateNow;
              (if isNetworkError (message initError)
               then await (FindOneAndUpdate sessionId NetworkError now)
               else await (FindOneAndUpdate sessionId Failed now));;
              sync (ClientsDelete sessionId);;
              Throw initError)
     end)
    (fun error =>
       sync (ClientsDelete sessionId);;
       Throw error).

Arguments createClient : simpl never.

Definition startNewSession (userId sessionName : list N) (forceNew : bool)
  : async (list N) :=
  tryCatch
    (now ← sync DateNow;
     await (DeleteMany userId [Disconnected; AuthFailed] (now - 3600000));;
     now ← sync DateNow;
     await (DeleteMany userId [Qr] (now - 600000));;
     uuid ← sync UuidV4;
     let sessionId := js "session_" ++ uuid in
     name ← (if truthy (Some sessionName) then Ret sessionName
             else (l ← sync LocaleString; Ret (js "Session " ++ l)));
     createdNow ← sync DateNow;
     updatedNow ← sync DateNow;
     await (Create (mkSession userId sessionId name Pending None None createdNow updatedNow));;
     awaitFn (createClient userId sessionId sessionName);;
     Ret sessionId)
    (fun error => Throw error).

Definition disconnectSession (sessionId : list N) : async unit :=
  client ← sync (ClientsGet sessionId);
  match client with
  | Some client =>
      tryCatch
        (await (Destroy client);;
         sync (ClientsDelete sessionId))
        (fun err => Ret tt)
  | None => Ret tt
  end;;
  now ← sync DateNow;
  await (FindOneAndUpdate sessionId Disconnected now).

(** [path.join(process.cwd(), '.wwebjs_auth', `session-${sessionId}`)],
    relative to the working directory, for a session id that is one path
    segment ([oneSegment], below).  For an id with a separator [path.join]
    also resolves the [.] and [..] segments, which this string does not. *)
Definition authPath (sessionId : list N) : list N :=
  js ".wwebjs_auth/session-" ++ sessionId.

Definition deleteSession (sessionId : list N) : async (option session) :=
  client ← sync (ClientsGet sessionId);
  match client with
  | Some client =>
      tryCatch
        (await (Destroy client);;
         sync (ClientsDelete sessionId))
        (fun err => Ret tt)
  | None => Ret tt
  end;;
  result ← await (FindOneAndDelete sessionId);
  tryCatch
    (await (Import (js "fs"));;
     await (Import (js "path"));;
     there ← sync (ExistsSync (authPath sessionId));
     if there : bool then sync (RmSync (authPath sessionId)) else Ret tt)
    (fun err => Ret tt);;
  Ret result.

Definition clearAllSessions : async nat :=
  entries ← sync ClientsEntries;
  forOf entries (fun '(id, client) =>
    tryCatch (await (Destroy client)) (fun e => Ret tt);;
    sync (ClientsDelete id));;
  deletedCount ← await DeleteAll;
  tryCatch
    (await (Import (js "fs"));;
     await (Import (js "path"));;
     there ← sync (ExistsSync (js ".wwebjs_auth"));
     if there : bool then sync (RmSync (js ".wwebjs_auth")) else Ret tt)
    (fun fsError => Ret tt);;
  Ret deletedCount.

(** The [while (attempts < maxAttempts)] loop of [restoreSession], with
    [n] attempts left. *)
Fixpoint poll (n : nat) (sessionId : list N) : async (option handle) :=
  match n with
  | O => Ret None
  | S n' =>
      await (SetTimeout 1000);;
      client ← sync (ClientsGet sessionId);
      ready ←
        match client with
        | Some c => tryCatch (hasInfo c) (fun e => Ret false)
        | None => Ret false
        end;
      if ready : bool then Ret client else poll n' sessionId
  end.

Definition notFoundError (sessionId : list N) : error :=
  Error (js "Session " ++ sessionId ++ js " not found in database").

Definition restoreFailed (sessionId : list N) : error :=
  Error (js "Failed to restore session: " ++ sessionId).

Definition restoreSession (sessionId : list N) : async handle :=
  tryCatch
    (let sessionId := trim sessionId in
     has ← sync (ClientsHas sessionId);
     active ←
       (if has : bool then
          client ← sync (ClientsGet sessionId);
          tryCatch
            (ready ← infoOf client;
             Ret (if ready : bool then client else None))
            (fun e => sync (ClientsDelete sessionId);; Ret None)
        else Ret None);
     match active with
     | Some client => Ret client
     | None =>
         session ← await (FindOne sessionId);
         match session with
         | None => Throw (notFoundError sessionId)
         | Some session =>
             awaitFn (createClient (userId session) sessionId (sessionName session));;
             polled ← poll 30 sessionId;
             match polled with
             | Some client => Ret client
             | None =>
                 client ← sync (ClientsGet sessionId);
                 match client with
                 | Some client => Ret client
                 | None => Throw (restoreFailed sessionId)
                 end
             end
         end
     end)
    (fun error => Throw error).

Definition notConnected (sessionId : list N) : error :=
  Error (js "Session " ++ sessionId
         ++ js " restored but not connected to WhatsApp. Please scan QR code or use an active session.").

Definition notAvailable (sessionId : list N) (cause : error) : error :=
  Error (js "Session " ++ sessionId ++ js " is not available. " ++ message cause).

Definition getOrRestoreClient (sessionId : list N) : async handle :=
  let sessionId := trim sessionId in
  tryCatch
    (client ← sync (ClientsGet sessionId);
     pooled ←
       match client with
       | Some c =>
           tryCatch
             (ready ← hasInfo c;
              if ready : bool then
                sessionInfo ← await (FindOne sessionId);
                phoneNumber ← sync (ClientInfo c);
                Ret (Some c)
              else Ret None)
             (fun e => Ret None)
       | None => Ret None
       end;
     match pooled with
     | Some c => Ret c
     | None =>
         restoredClient ← awaitFn (restoreSession sessionId);
         ready ← hasInfo restoredClient;
         if ready : bool then Ret restoredClient
         else Throw (notConnected sessionId)
     end)
    (fun error => Throw (notAvailable sessionId error)).

End Manager.

(** ** HTTP responses of the controllers *)

Inductive body :=
| BatchDone (total : nat) (ledger : list entry)     (* { success: true, total, results } *)
| Deleted (sid : list N)                            (* { success: true, message, sessionId } *)
| GroupFound (c : chat)                             (* { success: true, groupId, name, ... } *)
| MultipleMatched (matches : list chat)             (* { message: "Multiple groups matched, ...", matches } *)
| Failure (err : list N) (details : option (list N)).  (* { error, details? } *)

Record response := Respond { statusCode : nat; responseBody : body }.

(** ** controllers/session.controller.js *)

Module SessionController.

Definition deleteSessionController (sessionId : list N) : async response :=
  tryCatch
    (result ← awaitFn (Manager.deleteSession sessionId);
     match result with
     | None => Ret (Respond 404 (Failure (js "Session not found") None))
     | Some _ => Ret (Respond 200 (Deleted sessionId))
     end)
    (fun err =>
       Ret (Respond 500 (Failure (js "Unable to delete session") (Some (message err))))).

End SessionController.

(** ** controllers/message.controller.js *)

(** What [resolveRecipient] returns:
    [{ id, name, found?, partialMatch?, error? }]. *)
Record resolved := mkResolved {
  r_id : option (list N);
  r_name : option (list N);
  r_found : option bool;
  r_partialMatch : bool;
  r_error : option (list N)
}.

(** ** Numbers of a request

    [delayMin] and [delayMax] reach [randomDelay] as the body of the
    request holds them: [sendBatchMessage] converts neither.  A JSON body
    holds numbers, a multipart body holds strings.  The numbers of
    JavaScript are doubles; what [-], [+], [*], [Math.floor], the
    conversions between numbers and strings and [setTimeout] make of them
    is the runtime's, and it is taken as it is: nothing is assumed of
    it. *)
Class arithmetic := Arithmetic {
  double : Type;
  (* a whole number written in the program: 1, 15000, 20000 *)
  whole : Z -> double;
  (* a - b, a + b and a * b on two numbers *)
  numSub : double -> double -> double;
  numAdd : double -> double -> double;
  numMul : double -> double -> double;
  (* Math.floor(a) *)
  numFloor : double -> double;
  (* the number of [0, 1) that Math.random() returned: the environment
     names it by a pair (n, d), for n / (n + d + 1) *)
  fraction : nat * nat -> double;
  (* Number(s) and String(a) *)
  toNumber : list N -> double;
  toString : double -> list N;
  (* the milliseconds that setTimeout(f, a) waits *)
  millis : double -> Z
}.

(** A value of the body in an arithmetic expression: a number or a
    string.  ([null], [false] and [true] act there as the numbers 0, 0 and
    1; an array or an object acts as the string it converts to.) *)
Inductive value `{arithmetic} :=
| Num (x : double)
| Str (s : list N).

(** The body of a batch request, after the JSON arrays are parsed.
    [delayMin] and [delayMax] are what the body holds, if it holds any. *)
Record batchRequest `{arithmetic} := mkBatch {
  b_sessionIds : list (list N);
  b_to : list (list N);
  b_text : option (list N);
  b_mediaUrls : list (list N);
  b_files : list upload;
  b_delayMin : option value;
  b_delayMax : option value
}.
Arguments mkBatch {_} b_sessionIds b_to b_text b_mediaUrls b_files b_delayMin b_delayMax.

Section MessageController.

(** [String.prototype.toLowerCase], supplied by the runtime. *)
Variable toLowerCase : list N -> list N.

Context `{JS : arithmetic}.

(** ToNumber *)
Definition asNumber (v : value) : double :=
  match v with
  | Num x => x
  | Str s => toNumber s
  end.

(** [a - b] *)
Definition jsSub (a b : value) : double := numSub (asNumber a) (asNumber b).

(** [a + b] for a number [a]: the sum when [b] is a number, the
    concatenation of [String(a)] and [b] when [b] is a string. *)
Definition jsAdd (a : double) (b : value) : value :=
  match b with
  | Num y => Num (numAdd a y)
  | Str s => Str (toString a ++ s)
  end.

(** [Math.floor(r * (max - min + 1)) + min] for the random number [r]. *)
Definition scale (r : nat * nat) (min max : value) : value :=
  jsAdd (numFloor (numMul (fraction r) (numAdd (jsSub max min) (whole 1)))) min.

Definition randomDelay (min max : value) : async value :=
  r ← sync MathRandom;
  Ret (scale r min max).

Definition delay (ms : value) : async unit := await (SetTimeout (millis (asNumber ms))).

(** [let { ..., delayMin = 15000, delayMax = 20000 } = req.body] *)
Definition delayMin (req : batchRequest) : value :=
  default (Num (whole 15000)) (b_delayMin req).

Definition delayMax (req : batchRequest) : value :=
  default (Num (whole 20000)) (b_delayMax req).

Definition exactMatch (recipient : list N) (c : chat) : bool :=
  isGroup c && truthy (chatName c)
  && eqs (toLowerCase (orElse (chatName c) [])) (toLowerCase recipient).

Definition partialMatches (recipient : list N) (c : chat) : bool :=
  isGroup c && truthy (chatName c)
  && includes (toLowerCase (orElse (chatName c) [])) (toLowerCase recipient).

Definition resolveRecipient (client : handle) (recipient : list N) : async resolved :=
  if includes recipient (js "@g.us") || includes recipient (js "@c.us") then
    Ret (mkResolved (Some recipient) None None false None)
  else if includes recipient (js "-") then
    Ret (mkResolved (Some (recipient ++ js "@g.us")) None None false None)
  else
    let cleanNumber := removeNonDigits recipient in
    if (10 <=? length cleanNumber)%nat && eqs cleanNumber (removeSeparators recipient) then
      Ret (mkResolved (Some (cleanNumber ++ js "@c.us")) None None false None)
    else
      tryCatch
        (chats ← await (GetChats client);
         match List.find (exactMatch recipient) chats with
         | Some matchingChat =>
             Ret (mkResolved (Some (chatId matchingChat)) (chatName matchingChat)
                             (Some true) false None)
         | None =>
             match List.find (partialMatches recipient) chats with
             | Some partialMatch =>
                 Ret (mkResolved (Some (chatId partialMatch)) (chatName partialMatch)
                                 (Some true) true None)
             | None =>
                 Ret (mkResolved None (Some recipient) (Some false) false None)
             end
         end)
        (fun err =>
           Ret (mkResolved None (Some recipient) (Some false) false (Some (message err)))).

(** [text?.trim()] is truthy. *)
Definition hasText (text : option (list N)) : bool :=
  match text with
  | Some t => truthy (Some (trim t))
  | None => false
  end.

Definition octetStream : list N := js "application/octet-stream".

(** The loop over [req.files]: the data of each upload is read once. *)
Fixpoint readUploads (fs : list upload) : async (list media) :=
  match fs with
  | [] => Ret []
  | file :: fs' =>
      mime ← sync (MimeLookup (originalname file));
      base64 ← sync (ReadFileBase64 (uploadPath file));
      rest ← readUploads fs';
      Ret (mkMedia (orElse mime octetStream) base64 (Some (originalname file)) :: rest)
  end.

(** The loop over [mediaUrls]. *)
Fixpoint fetchRemote (urls : list (list N)) : async (list media) :=
  match urls with
  | [] => Ret []
  | url :: urls' =>
      m ← await (MediaFromUrl url);
      rest ← fetchRemote urls';
      Ret (m :: rest)
  end.

Definition notReadyYet : list N := js "Client not ready yet".

(** "Prepare all clients first": the local [clientMap]. *)
Fixpoint prepareClients (sessionIds : list (list N)) (clientMap : gmap (list N) handle)
  : async (gmap (list N) handle) :=
  match sessionIds with
  | [] => Ret clientMap
  | sessionId :: rest =>
      clientMap ←
        tryCatch
          (client ← awaitFn (Manager.getOrRestoreClient sessionId);
           ready ← Manager.hasInfo client;
           if ready : bool then Ret (<[sessionId := client]> clientMap)
           else
             sync (ResultsPush (Unavailable sessionId notReadyYet));;
             Ret clientMap)
          (fun err =>
             sync (ResultsPush (Unavailable sessionId (message err)));;
             Ret clientMap);
      prepareClients rest clientMap
  end.

Definition captionFor (first : bool) (text : option (list N)) : option (list N) :=
  if first && hasText text then text else None.

(** The loop over [localMediaData], from index [i]. *)
Fixpoint sendLocal (client : handle) (sessionId recipientId recipient groupName : list N)
         (text : option (list N)) (i : nat) (items : list media) : async unit :=
  match items with
  | [] => Ret tt
  | mediaData :: items' =>
      msg ← await (SendMessage client recipientId
                     (Media mediaData (captionFor (bool_decide (i = 0%nat)) text)));
      sync (ResultsPush (SentEntry sessionId recipientId recipient groupName
                           (mimetype mediaData) (mediaFilename mediaData) msg));;
      sendLocal client sessionId recipientId recipient groupName text (S i) items'
  end.

(** The loop over [remoteMediaList], from index [i]. *)
Fixpoint sendRemote (client : handle) (sessionId recipientId recipient groupName : list N)
         (text : option (list N)) (noLocal : bool) (i : nat) (items : list media) : async unit :=
  match items with
  | [] => Ret tt
  | m :: items' =>
      msg ← await (SendMessage client recipientId
                     (Media m (captionFor (noLocal && bool_decide (i = 0%nat)) text)));
      sync (ResultsPush (SentEntry sessionId recipientId recipient groupName
                           (mimetype m) None msg));;
      sendRemote client sessionId recipientId recipient groupName text noLocal (S i) items'
  end.

Definition notFoundMessage (recipient : list N) : list N :=
  js "Recipient not found: " ++ recipient.

(** The body of the inner loop, for one recipient and one session. *)
Definition processPair (clientMap : gmap (list N) handle) (req : batchRequest)
           (localMediaData remoteMediaList : list media)
           (recipient sessionId : list N) : async unit :=
  match clientMap !! sessionId with
  | None => Ret tt
  | Some client =>
      tryCatch (A := unit)
        (resolved ← awaitFn (resolveRecipient client recipient);
         match r_id resolved return async unit with
         | Some (c :: s) =>
             let recipientId := c :: s in
             let groupName := orElse (r_name resolved) recipient in
             (if bool_decide (localMediaData = []) && bool_decide (remoteMediaList = []) then
                match b_text req with
                | Some text =>
                    if hasText (Some text) then
                      msg ← await (SendMessage client recipientId (Text text));
                      sync (ResultsPush (SentEntry sessionId recipientId recipient groupName
                                           (js "text") None msg))
                    else Ret tt
                | None => Ret tt
                end
              else
                sendLocal client sessionId recipientId recipient groupName
                          (b_text req) 0 localMediaData;;
                sendRemote client sessionId recipientId recipient groupName
                           (b_text req) (bool_decide (localMediaData = [])) 0 remoteMediaList);;
             wait ← randomDelay (delayMin req) (delayMax req);
             delay wait
         | _ =>
             sync (ResultsPush (FailedEntry sessionId recipient (notFoundMessage recipient)))
         end)
        (fun err =>
           sync (ResultsPush (FailedEntry sessionId recipient (message err))))
  end.

(** "Round-robin: alternate between sessions for each recipient":
    recipients in the outer loop, sessions in the inner loop. *)
Definition roundRobin (clientMap : gmap (list N) handle) (req : batchRequest)
           (localMediaData remoteMediaList : list media) : async unit :=
  forOf (b_to req) (fun recipient =>
    forOf (b_sessionIds req) (fun sessionId =>
      processPair clientMap req localMediaData remoteMediaList recipient sessionId)).

(** [safeUnlink] *)
Definition safeUnlink (filePath : list N) : async unit :=
  tryCatch (sync (UnlinkSync filePath)) (fun _ => Ret tt).

Definition sendBatchMessage (req : batchRequest) : async response :=
  tryCatch
    (if bool_decide (b_sessionIds req = []) then
       Ret (Respond 400 (Failure (js "sessionIds (array) required") None))
     else if bool_decide (b_to req = []) then
       Ret (Respond 400 (Failure (js "to (array) required") None))
     else if negb (hasText (b_text req))
             && bool_decide (b_files req = []) && bool_decide (b_mediaUrls req = []) then
       Ret (Respond 400 (Failure (js "text or media files required") None))
     else
       sync ResultsNew;;
       localMediaData ← readUploads (b_files req);
       let uploadedFiles := map uploadPath (b_files req) in
       remoteMediaList ← fetchRemote (b_mediaUrls req);
       clientMap ← prepareClients (b_sessionIds req) ∅;
       roundRobin clientMap req localMediaData remoteMediaList;;
       forOf uploadedFiles safeUnlink;;
       results ← sync ResultsGet;
       Ret (Respond 200 (BatchDone (length results) results)))
    (fun err =>
       Ret (Respond 500 (Failure (js "Failed to send batch messages") (Some (message err))))).

End MessageController.

(** ** controllers/group.controller.js: the lookup of a group by name *)

Section GroupController.

(** The [normalize] helper of [getGroupIdByName] (NFKC, runs of white
    space collapsed, trimmed, lower-cased), supplied by the runtime. *)
Variable normalize : option (list N) -> list N.

Definition namedLike (groupName : list N) (exact : bool) (c : chat) : bool :=
  isGroup c && truthy (chatName c)
  && (if exact
      then eqs (normalize (chatName c)) (normalize (Some groupName))
      else includes (normalize (chatName c)) (normalize (Some groupName))).

Definition groupNotFound : response :=
  Respond 404 (Failure (js "Group not found") None).

Definition getGroupIdByName (sessionId groupName : option (list N)) : async response :=
  tryCatch
    (match sessionId, groupName with
     | Some (a :: sid), Some (b :: gname) =>
         let sessionId := a :: sid in
         let groupName := b :: gname in
         client ← awaitFn (Manager.getOrRestoreClient sessionId);
         ready ← Manager.hasInfo client;
         if negb ready then
           Ret (Respond 400 (Failure (js "Session not ready yet") None))
         else
           chats ← await (GetChats client);
           match List.find (namedLike groupName true) chats with
           | Some group => Ret (Respond 200 (GroupFound group))
           | None =>
               match List.filter (namedLike groupName false) chats with
               | [group] => Ret (Respond 200 (GroupFound group))
               | [] => Ret groupNotFound
               | matches => Ret (Respond 200 (MultipleMatched matches))
               end
           end
     | _, _ => Ret (Respond 400 (Failure (js "sessionId and groupName required") None))
     end)
    (fun err =>
       Ret (Respond 500 (Failure (js "Failed to get groupId") (Some (message err))))).

End GroupController.


(** ** Observations on a run *)

(** The durations of the [setTimeout] calls of a trace, in order. *)
Fixpoint sleeps (tr : list call) : list Z :=
  match tr with
  | [] => []
  | SetTimeout ms :: tr' => ms :: sleeps tr'
  | _ :: tr' => sleeps tr'
  end.

(** The [client.sendMessage] calls of a trace, in order. *)
Fixpoint sends (tr : list call) : list (handle * list N * content) :=
  match tr with
  | [] => []
  | SendMessage h to c :: tr' => (h, to, c) :: sends tr'
  | _ :: tr' => sends tr'
  end.

(** What a trace does to the pool and which Clients it constructs. *)
Fixpoint poolCalls (tr : list call) : list call :=
  match tr with
  | [] => []
  | ClientsHas sid :: tr' => ClientsHas sid :: poolCalls tr'
  | ClientsGet sid :: tr' => ClientsGet sid :: poolCalls tr'
  | ClientsSet sid h :: tr' => ClientsSet sid h :: poolCalls tr'
  | ClientsDelete sid :: tr' => ClientsDelete sid :: poolCalls tr'
  | NewClient sid :: tr' => NewClient sid :: poolCalls tr'
  | _ :: tr' => poolCalls tr'
  end.

(** The HTTP POSTs of a trace. *)
Fixpoint posts (tr : list call) : list (list N) :=
  match tr with
  | [] => []
  | AxiosPost url _ _ :: tr' => url :: posts tr'
  | _ :: tr' => posts tr'
  end.

(** The session id that a call on the pool, on a Client under construction
    or on the session collection is keyed by. *)
Definition keyOf (c : call) : option (list N) :=
  match c with
  | ClientsHas sid | ClientsGet sid | ClientsSet sid _ | ClientsDelete sid
  | NewClient sid | FindOne sid | FindOneAndUpdate sid _ _ | FindOneAndDelete sid => Some sid
  | _ => None
  end.

Definition keyedBy (sid : list N) (c : call) : Prop :=
  match keyOf c with
  | Some k => k = sid
  | None => True
  end.

(** The recipient token and the session id that a ledger entry of a send
    attempt carries. *)
Definition pairOf (e : entry) : option (list N * list N) :=
  match e with
  | Unavailable _ _ => None
  | FailedEntry sid to _ => Some (to, sid)
  | SentEntry sid _ originalRecipient _ _ _ _ => Some (originalRecipient, sid)
  end.

Definition isSent (e : entry) : Prop :=
  match e with SentEntry _ _ _ _ _ _ _ => True | _ => False end.

Definition isUnavailable (e : entry) : Prop :=
  match e with Unavailable _ _ => True | _ => False end.

(** ** Fixtures: worlds and environments of the examples *)

(** Nothing fails and no Client is ready. *)
Definition quiet : env :=
  mkEnv (fun _ _ => Fulfilled None) (fun _ _ => InitResolves) (fun _ _ => Fulfilled tt)
        (fun _ _ => Fulfilled []) (fun _ _ _ _ => Fulfilled (js "msg-1"))
        (fun _ _ => Fulfilled (mkMedia (js "image/png") (js "iVBORw0KGgo=") None))
        (fun _ _ => Fulfilled tt)
        (fun _ => 0%Z) (fun _ => js "1/1/2025") (fun _ => js "0000") (fun _ => (0, 0)%nat)
        (fun _ _ => Fulfilled tt) (fun _ _ => Fulfilled (js "iVBORw0KGgo=")) (fun _ => None).

Definition withInfo (f : nat -> handle -> outcome (option (list N))) (E : env) : env :=
  mkEnv f (e_initialize E) (e_destroy E) (e_getChats E) (e_sendMessage E) (e_fromUrl E)
        (e_post E) (e_now E) (e_locale E) (e_uuid E) (e_random E) (e_rmSync E)
        (e_readFile E) (e_mime E).

Definition withInitialize (f : nat -> handle -> initBehaviour) (E : env) : env :=
  mkEnv (e_info E) f (e_destroy E) (e_getChats E) (e_sendMessage E) (e_fromUrl E)
        (e_post E) (e_now E) (e_locale E) (e_uuid E) (e_random E) (e_rmSync E)
        (e_readFile E) (e_mime E).

Definition withDestroy (f : nat -> handle -> outcome unit) (E : env) : env :=
  mkEnv (e_info E) (e_initialize E) f (e_getChats E) (e_sendMessage E) (e_fromUrl E)
        (e_post E) (e_now E) (e_locale E) (e_uuid E) (e_random E) (e_rmSync E)
        (e_readFile E) (e_mime E).

Definition withChats (f : nat -> handle -> outcome (list chat)) (E : env) : env :=
  mkEnv (e_info E) (e_initialize E) (e_destroy E) f (e_sendMessage E) (e_fromUrl E)
        (e_post E) (e_now E) (e_locale E) (e_uuid E) (e_random E) (e_rmSync E)
        (e_readFile E) (e_mime E).


Definition withPost (f : nat -> list N -> outcome unit) (E : env) : env :=
  mkEnv (e_info E) (e_initialize E) (e_destroy E) (e_getChats E) (e_sendMessage E)
        (e_fromUrl E) f (e_now E) (e_locale E) (e_uuid E) (e_random E) (e_rmSync E)
        (e_readFile E) (e_mime E).

Definition withRandom (f : nat -> nat * nat) (E : env) : env :=
  mkEnv (e_info E) (e_initialize E) (e_destroy E) (e_getChats E) (e_sendMessage E)
        (e_fromUrl E) (e_post E) (e_now E) (e_locale E) (e_uuid E) f (e_rmSync E)
        (e_readFile E) (e_mime E).

(** Every Client is ready, with the same phone number. *)
Definition ready : env := withInfo (fun _ _ => Fulfilled (Some (js "15550001111"))) quiet.

Definition emptyWorld : world := mkWorld ∅ ∅ ∅ ∅ ∅ [] 0 0.

Definition aliceSession : session :=
  mkSession (js "alice") (js "s1") (js "Alice phone") Connected None None 0 0.

(** A persisted session with credentials on disk and nothing pooled. *)
Definition persisted : world :=
  mkWorld ∅ {[ js "s1" := aliceSession ]} ∅ ∅ {[ Manager.authPath (js "s1") ]} [] 0 0.

(** The same session with its Client pooled. *)
Definition pooled : world :=
  mkWorld {[ js "s1" := 0%nat ]} {[ js "s1" := aliceSession ]} ∅ ∅
          {[ Manager.authPath (js "s1") ]} [] 1 0.

Definition teamAlpha : chat := mkChat true (Some (js "Team Alpha")) (js "1203630001@g.us").
Definition teamBeta : chat := mkChat true (Some (js "Team Beta")) (js "1203630002@g.us").

(** ** The recipient shapes of the specification

    Shapes 1 to 3 of the resolver as the specification words them: a token
    that already carries a chat suffix passes through; else a token with a
    dash gets the group suffix; else a token whose digits, at least ten,
    are the token without spaces, dashes and plus signs gets the person
    suffix on its digits.  [None]: the token goes on to the lookup by
    group name. *)

Definition groupSuffix : list N := js "@g.us".
Definition personSuffix : list N := js "@c.us".

Definition shapeOf (token : list N) : option (list N) :=
  if includes token groupSuffix || includes token personSuffix then Some token
  else if includes token (js "-") then Some (token ++ groupSuffix)
  else
    let digits := removeNonDigits token in
    if (10 <=? length digits)%nat && eqs digits (removeSeparators token)
    then Some (digits ++ personSuffix)
    else None.

(** A string that does not start with white space. *)
Definition cleanStart (s : list N) : Prop :=
  match s with
  | [] => True
  | c :: _ => isSpace c = false
  end.

(** The URL that [sendWebhook] ends up with: the registered one if it is
    truthy, else the one of [webhookUrls]. *)
Definition configured (w : world) (eventType : list N) : option (list N) :=
  if truthy (registeredWebhooks w !! eventType)
  then registeredWebhooks w !! eventType
  else webhookUrls w !! eventType.

(** Two groups whose names both contain "team". *)
Definition twoTeams : env :=
  withChats (fun _ _ => Fulfilled [teamAlpha; teamBeta]) ready.

(** On the names of the examples (ASCII, single spaces, no padding) the
    [normalize] helper of the group controller only lower-cases. *)
Definition normalizeAscii (name : option (list N)) : list N :=
  asciiLower (orElse name []).

(** Every call that a program can make satisfies [P]. *)
Inductive callsAll (P : call -> Prop) {A : Type} : async A -> Prop :=
| callsAll_Ret (a : A) : callsAll P (Ret a)
| callsAll_Throw (e : error) : callsAll P (Throw e)
| callsAll_Do (c : call) (k : outcome (resp_of c) -> async A) :
    P c -> (forall r, callsAll P (k r)) -> callsAll P (Do c k)
| callsAll_Yield (k : async A) : callsAll P k -> callsAll P (Yield k).

(** Initialization never settles: the race is lost after 60 s. *)
Definition hanging : env := withInitialize (fun _ _ => InitHangs) quiet.

(** [client.destroy()] rejects: the browser of a Client that has not
    finished starting is not there to be closed. *)
Definition stuck : env :=
  withDestroy
    (fun _ _ => Rejected (Error (js "Cannot read properties of null (reading 'close')")))
    ready.

(** Two schedules for two tasks: taking turns, and one after the other. *)
Definition takingTurns : list nat := [0; 1; 0; 1; 0; 1; 0; 1; 0; 1].
Definition oneThenOther : list nat := [0; 0; 0; 0; 0; 1; 1; 1].

(** How a task of the event loop has ended, if it has. *)
Definition ended {A} (t : async A) : option (outcome A) :=
  match t with
  | Ret a => Some (Fulfilled a)
  | Throw e => Some (Rejected e)
  | _ => None
  end.

(** ** What a batch leaves in the ledger and in the trace *)

(** A call that leaves the [results] array alone. *)
Definition leavesResults (c : call) : Prop :=
  match c with
  | ResultsNew | ResultsPush _ => False
  | _ => True
  end.

(** A call of the session manager on behalf of session [sid]. *)
Definition managerCall (sid : list N) (c : call) : Prop :=
  keyedBy sid c /\ leavesResults c.

(** A call that, if it is made on a Client, is made on [client]. *)
Definition onClient (client : handle) (c : call) : Prop :=
  match c with
  | GetChats h | SendMessage h _ _ | ClientInfo h | Destroy h | InitializeRace h => h = client
  | _ => True
  end.

(** The entry of a successful send for the pair. *)
Definition sentFor (recipient sid : list N) (e : entry) : Prop :=
  isSent e /\ pairOf e = Some (recipient, sid).

(** The entry of a successful send for the pair, to the chat [rid] under
    the display name [groupName]. *)
Definition sentTo (recipient sid rid groupName : list N) (e : entry) : Prop :=
  match e with
  | SentEntry s to original name _ _ _ =>
      s = sid /\ to = rid /\ original = recipient /\ name = groupName
  | _ => False
  end.

(** What the sends of one pair can be, in order: the text alone, or every
    local media item and then every remote one, the text riding as the
    caption of the very first item. *)
Definition plannedContents (text : option (list N)) (localMediaData remoteMediaList : list media)
  : list content :=
  match localMediaData, remoteMediaList with
  | [], [] =>
      match text with
      | Some t => if hasText (Some t) then [Text t] else []
      | None => []
      end
  | _, _ =>
      match localMediaData ++ remoteMediaList with
      | [] => []
      | m :: ms => Media m (captionFor true text) :: map (fun m' => Media m' None) ms
      end
  end.

(** What the loop over [localMediaData] sends from index [i] on, and the
    loop over [remoteMediaList]. *)
Fixpoint localContents (text : option (list N)) (i : nat) (items : list media) : list content :=
  match items with
  | [] => []
  | m :: items' =>
      Media m (captionFor (bool_decide (i = 0)) text) :: localContents text (S i) items'
  end.

Fixpoint remoteContents (text : option (list N)) (noLocal : bool) (i : nat)
         (items : list media) : list content :=
  match items with
  | [] => []
  | m :: items' =>
      Media m (captionFor (noLocal && bool_decide (i = 0)) text)
      :: remoteContents text noLocal (S i) items'
  end.

(** A world in which [t] calls have been made. *)
Definition atTick (t : nat) : world := mkWorld ∅ ∅ ∅ ∅ ∅ [] 0 t.

(** The entries of a pair: at least one, all of them of the pair. *)
Definition block (recipient sid : list N) (b : list entry) : Prop :=
  b <> [] /\ Forall (fun e => pairOf e = Some (recipient, sid)) b.

(** A call that is not a sleep. *)
Definition noSleep (c : call) : Prop :=
  match c with
  | SetTimeout _ => False
  | _ => True
  end.

Definition ledgerOf (steps : list (list entry * list call)) : list entry :=
  concat (map fst steps).

Definition traceOf (steps : list (list entry * list call)) : list call :=
  concat (map snd steps).

(** A Client that reports its [info] whenever it is asked. *)
Definition alwaysReady (E : env) (client : handle) : Prop :=
  forall t, exists info, e_info E t client = Fulfilled (Some info).

Section Ledger.

Context `{JS : arithmetic}.
Variable toLowerCase : list N -> list N.
Variable E : env.

(** The number of content items of a batch: the text alone, or every
    media item (the text then rides on the first as its caption). *)
Definition contentItems (req : batchRequest) (localMediaData remoteMediaList : list media) : nat :=
  match localMediaData, remoteMediaList with
  | [], [] => if hasText (b_text req) then 1 else 0
  | _, _ => length localMediaData + length remoteMediaList
  end.

(** What a pair that has sent everything sleeps, for the random number
    [r]: what [setTimeout] makes of [randomDelay(delayMin, delayMax)]. *)
Definition pause (req : batchRequest) (r : nat * nat) : Z :=
  millis (asNumber (scale r (delayMin req) (delayMax req))).

(** What [resolveRecipient] answers when it is the call number [t]: it
    reads nothing but the chat list of the Client. *)
Definition resolvedAt (t : nat) (client : handle) (recipient : list N) : outcome resolved :=
  (run E (resolveRecipient toLowerCase client recipient) (atTick t)).2.

(** What processing one pair on [client] adds to the ledger, and the
    calls it makes, when it starts as the call number [t]:
    - the recipient resolves to the chat [rid] and every content item of
      the plan is sent to it through [client], each with its entry; then
      a random number is drawn and the loop sleeps what the window makes
      of that number;
    - or the recipient does not resolve: nothing is sent, one failed
      entry, no sleep;
    - or the recipient resolves and a send is rejected: the items before
      it are sent and have their entries, that send is the last, one
      failed entry carries the message of its error, no sleep. *)
Inductive pairOutcome (req : batchRequest) (plan : list content)
          (client : handle) (recipient sid : list N) (t : nat)
  : list entry -> list call -> Prop :=
| pair_sent (res : resolved) (rid : list N) (b : list entry) (tr0 : list call) :
    resolvedAt t client recipient = Fulfilled res ->
    r_id res = Some rid ->
    rid <> [] ->
    Forall (sentTo recipient sid rid (orElse (r_name res) recipient)) b ->
    length b = length plan ->
    sends tr0 = map (fun c => (client, rid, c)) plan ->
    sleeps tr0 = [] ->
    pairOutcome req plan client recipient sid t b
      (tr0 ++ [MathRandom; SetTimeout (pause req (e_random E (t + length tr0)))])
| pair_unresolved (res : resolved) (tr : list call) :
    resolvedAt t client recipient = Fulfilled res ->
    orElse (r_id res) [] = [] ->
    sends tr = [] ->
    sleeps tr = [] ->
    pairOutcome req plan client recipient sid t
      [FailedEntry sid recipient (notFoundMessage recipient)] tr
| pair_send_failed (res : resolved) (rid : list N) (b : list entry) (tr0 : list call)
                   (c : content) (e : error) :
    resolvedAt t client recipient = Fulfilled res ->
    r_id res = Some rid ->
    rid <> [] ->
    Forall (sentTo recipient sid rid (orElse (r_name res) recipient)) b ->
    plan !! length b = Some c ->
    sends tr0 = map (fun c => (client, rid, c)) (take (length b) plan) ->
    sleeps tr0 = [] ->
    e_sendMessage E (t + length tr0) client rid c = Rejected e ->
    pairOutcome req plan client recipient sid t
      (b ++ [FailedEntry sid recipient (message e)])
      (tr0 ++ [SendMessage client rid c;
               ResultsPush (FailedEntry sid recipient (message e))]).

(** One turn of the inner loop, started as the call number [t]: a session
    without a prepared Client is skipped. *)
Definition pairStep (req : batchRequest) (plan : list content)
           (clientMap : gmap (list N) handle) (t : nat)
           (pair : list N * list N) (step : list entry * list call) : Prop :=
  match clientMap !! pair.2 with
  | Some client =>
      pairOutcome req plan client pair.1 pair.2 t step.1 step.2
      /\ Forall (onClient client) step.2
  | None => step = ([], [])
  end.

(** The turns of the loop over [pairs], one after the other from the call
    number [t] on: each starts where the one before it has ended. *)
Inductive stepsFrom (req : batchRequest) (plan : list content)
          (clientMap : gmap (list N) handle)
  : nat -> list (list N * list N) -> list (list entry * list call) -> Prop :=
| steps_done (t : nat) : stepsFrom req plan clientMap t [] []
| steps_next (t : nat) (pair : list N * list N) (step : list entry * list call)
             (pairs : list (list N * list N)) (steps : list (list entry * list call)) :
    pairStep req plan clientMap t pair step ->
    stepsFrom req plan clientMap (t + length step.2) pairs steps ->
    stepsFrom req plan clientMap t (pair :: pairs) (step :: steps).

(** What a loop over media items (or the single text) leaves when it
    starts in [w]: the entries of the items sent, in the ledger; no sleep;
    every item of [plan] sent, in order, or the items before the one whose
    send was rejected. *)
Definition sendsOutcome (client : handle) (recipient sid rid groupName : list N)
           (plan : list content) (w w' : world) (tr : list call) (o : outcome unit) : Prop :=
  exists b,
    results w' = results w ++ b
    /\ Forall (sentTo recipient sid rid groupName) b
    /\ sleeps tr = []
    /\ Forall (onClient client) tr
    /\ match o with
       | Fulfilled _ =>
           length b = length plan
           /\ sends tr = map (fun c => (client, rid, c)) plan
       | Rejected e =>
           exists tr0 c,
             tr = tr0 ++ [SendMessage client rid c]
             /\ plan !! length b = Some c
             /\ sends tr0 = map (fun c => (client, rid, c)) (take (length b) plan)
             /\ e_sendMessage E (tick w + length tr0) client rid c = Rejected e
       end.

End Ledger.

(** ** The numbers of the examples

    Exact arithmetic on fractions, and the strings of decimal digits.  On
    what the examples compute with (whole numbers below 2^31, the halves
    of such numbers, strings of digits) it is the arithmetic of the
    runtime. *)
Inductive exactNumber :=
| Fraction (p : Z) (q : positive)
| NotANumber.

Definition exactSub (a b : exactNumber) : exactNumber :=
  match a, b with
  | Fraction p q, Fraction r s => Fraction (p * Z.pos s - r * Z.pos q) (q * s)
  | _, _ => NotANumber
  end.

Definition exactAdd (a b : exactNumber) : exactNumber :=
  match a, b with
  | Fraction p q, Fraction r s => Fraction (p * Z.pos s + r * Z.pos q) (q * s)
  | _, _ => NotANumber
  end.

Definition exactMul (a b : exactNumber) : exactNumber :=
  match a, b with
  | Fraction p q, Fraction r s => Fraction (p * r) (q * s)
  | _, _ => NotANumber
  end.

Definition exactFloor (a : exactNumber) : exactNumber :=
  match a with
  | Fraction p q => Fraction (p `div` Z.pos q) 1
  | NotANumber => NotANumber
  end.

(** [Number(s)] for a string of decimal digits (the empty string is 0). *)
Definition digitsToNumber (s : list N) : exactNumber :=
  if forallb isDigit s
  then Fraction (fold_left (fun n c => n * 10 + (Z.of_N c - 48)) s 0)%Z 1
  else NotANumber.

(** [String(a)] for a whole number. *)
Definition wholeToString (a : exactNumber) : list N :=
  match a with
  | Fraction p q => js (DecimalString.NilZero.string_of_int (Z.to_int (p `div` Z.pos q)))
  | NotANumber => js "NaN"
  end.

(** The timers of Node.js wait one millisecond for a delay that is not a
    number between 1 and 2^31 - 1. *)
Definition timerMillis (a : exactNumber) : Z :=
  match a with
  | Fraction p q =>
      if ((Z.pos q <=? p) && (p <=? 2147483647 * Z.pos q))%Z then p `div` Z.pos q else 1%Z
  | NotANumber => 1%Z
  end.

Definition exact : arithmetic :=
  Arithmetic exactNumber (fun n => Fraction n 1) exactSub exactAdd exactMul exactFloor
             (fun r => Fraction (Z.of_nat r.1) (Pos.of_nat (r.1 + r.2 + 1)))
             digitsToNumber wholeToString timerMillis.

(** A batch of one text to two recipients through two sessions, with a
    window of one to two seconds. *)
Definition twoByTwo : @batchRequest exact :=
  mkBatch [js "s1"; js "s2"] [js "15550000001@c.us"; js "15550000002@c.us"]
          (Some (js "hello")) [] []
          (Some (Num (whole 1000))) (Some (Num (whole 2000))).

(** The same batch as a multipart body holds it: the window is two
    strings. *)
Definition twoByTwoForm : @batchRequest exact :=
  mkBatch [js "s1"; js "s2"] [js "15550000001@c.us"; js "15550000002@c.us"]
          (Some (js "hello")) [] []
          (Some (Str (js "1000"))) (Some (Str (js "2000"))).

Definition twoClients : gmap (list N) handle := {[ js "s1" := 0; js "s2" := 1 ]}.


(** Every random number is one half. *)
Definition halves : env := withRandom (fun _ => (1, 0)%nat) ready.

(** A batch of one text to a chat id, to a name that no group has, and to
    the name of a group, through the pooled session, with the window of
    the defaults. *)
Definition threeRecipients : @batchRequest exact :=
  mkBatch [js "s1"] [js "15550000001@c.us"; js "no such group"; js "Team Alpha"]
          (Some (js "hello")) [] [] None None.

(** A webhook is registered for incoming messages, and its URL cannot be
    reached. *)
Definition hooked : world :=
  mkWorld ∅ ∅ {[ js "message" := js "http://hooks.example/in" ]} ∅ ∅ [] 0 0.

Definition unreachable : env :=
  withPost (fun _ _ => Rejected (Error (js "connect ECONNREFUSED"))) quiet.

(** ** More of services/webhookManager.js: the registrations

    [registerWebhook], [unregisterWebhook] and [getRegisteredWebhooks] are
    synchronous functions on the [registeredWebhooks] Map; their [console]
    lines read no state and decide nothing, and are left out. *)

Module Registry.

Definition setRegistered (f : gmap (list N) (list N) -> gmap (list N) (list N))
           (w : world) : world :=
  mkWorld (clients w) (sessions w) (f (registeredWebhooks w)) (webhookUrls w)
          (files w) (results w) (created w) (tick w).

Definition required : error := Error (js "eventType and url are required").

(** [eventType] and [url] are what the caller passes: possibly missing,
    possibly empty. *)
Definition registerWebhook (eventType url : option (list N)) (w : world)
  : world * outcome unit :=
  match eventType, url with
  | Some (a :: ev), Some (b :: u) =>
      (setRegistered (insert (a :: ev) (b :: u)) w, Fulfilled tt)
  | _, _ => (w, Rejected required)
  end.

Definition unregisterWebhook (eventType : list N) (w : world) : world :=
  setRegistered (delete eventType) w.

(** The object built from the entries of the Map by assignment
    ([webhooks[eventType] = url]), read by its own keys.  Assigning a
    string to the key "__proto__" of a plain object creates no key: the
    object never shows a registration under that name. *)
Definition getRegisteredWebhooks (w : world) : gmap (list N) (list N) :=
  delete (js "__proto__") (registeredWebhooks w).

End Registry.

(** ** More of services/waManager.js *)

Module Lifecycle.

Definition noActiveClient (sessionId : list N) : error :=
  Error (js "No active client for session: " ++ sessionId).

(** [getClient], also exported as [getActiveClient]. *)
Definition getClient (sessionId : list N) : async handle :=
  client ← sync (ClientsGet sessionId);
  match client with
  | Some client => Ret client
  | None => Throw (noActiveClient sessionId)
  end.

(** The callback that [restoreSessions] maps over the sessions to restore
    at startup, with the index of the session in the list. *)
Definition restoreOne (session : session) (index : nat) : async unit :=
  tryCatch
    (has ← sync (ClientsHas (sessionId session));
     if has : bool then Ret tt
     else
       await (SetTimeout (Z.of_nat index * 1000));;
       awaitFn (Manager.createClient (userId session) (sessionId session)
                                     (sessionName session));;
       Ret tt)
    (fun err =>
       now ← sync DateNow;
       await (FindOneAndUpdate (sessionId session) Disconnected now)).

Section Events.

(** [new Date().toISOString()], supplied by the runtime. *)
Variable toISOString : Z -> list N.

(** The argument of [notifySessionUpdate] in the two handlers:
    [{ sessionId, status, phoneNumber: null, timestamp }]. *)
Definition sessionEvent (sessionId status timestamp : list N) : Webhook.object :=
  fun key =>
    if eqs key (js "sessionId") then Some sessionId
    else if eqs key (js "status") then Some status
    else if eqs key (js "timestamp") then Some timestamp
    else None.

(** [client.on("auth_failure", ...)] of [createClient], for the session
    the Client was constructed for. *)
Definition onAuthFailure (sessionId : list N) : async unit :=
  now ← sync DateNow;
  await (FindOneAndUpdate sessionId AuthFailed now);;
  sync (ClientsDelete sessionId);;
  stamp ← sync DateNow;
  awaitFn (Webhook.notifySessionUpdate
             (sessionEvent sessionId (js "auth_failed") (toISOString stamp))).

(** [client.on("disconnected", ...)] of [createClient]. *)
Definition onDisconnected (sessionId : list N) : async unit :=
  now ← sync DateNow;
  await (FindOneAndUpdate sessionId Disconnected now);;
  sync (ClientsDelete sessionId);;
  stamp ← sync DateNow;
  awaitFn (Webhook.notifySessionUpdate
             (sessionEvent sessionId (js "disconnected") (toISOString stamp))).

End Events.

End Lifecycle.

(** ** More of the controllers: JSON answers by field *)

Inductive jvalue :=
| JNull
| JBool (b : bool)
| JString (s : list N).

Record reply := Reply { replyStatus : nat; replyBody : list (string * jvalue) }.

(** [x || null] *)
Definition orNull (x : option (list N)) : jvalue :=
  match x with
  | Some (c :: s) => JString (c :: s)
  | _ => JNull
  end.

(** A string that may be [null] or [undefined]. *)
Definition nullable (x : option (list N)) : jvalue :=
  match x with
  | Some s => JString s
  | None => JNull
  end.

Module SessionRoutes.

(** What [connectSession] reads of the request: [req.body.userId],
    [req.body.sessionName], [req.body.name] and the [forceNew] flag it
    computes. *)
Record connectRequest := mkConnect {
  c_userId : option (list N);
  c_sessionName : option (list N);
  c_name : option (list N);
  c_forceNew : bool
}.

Definition connectSession (req : connectRequest) : async reply :=
  tryCatch
    (let userId := orElse (c_userId req) (js "test-user-1") in
     let sessionName := orElse (c_sessionName req) (orElse (c_name req) []) in
     sessionId ← awaitFn (Manager.startNewSession userId sessionName (c_forceNew req));
     Ret (Reply 200 [("sessionId", JString sessionId); ("userId", JString userId);
                     ("sessionName", orNull (Some sessionName))]%string))
    (fun err =>
       Ret (Reply 500 [("error", JString (js "Unable to create session"));
                       ("details", JString (message err))]%string)).

Definition disconnect (sessionId : list N) : async reply :=
  tryCatch
    (awaitFn (Manager.disconnectSession sessionId);;
     Ret (Reply 200 [("status", JString (js "disconnected"))]%string))
    (fun err =>
       Ret (Reply 500 [("error", JString (js "Unable to disconnect session"));
                       ("details", JString (message err))]%string)).


End SessionRoutes.

(** ** More of controllers/message.controller.js *)

(** [formatRecipientId] *)
Definition formatRecipientId (id : list N) : list N :=
  if includes id (js "@g.us") || includes id (js "@c.us") then id
  else if includes id (js "-") then id ++ js "@g.us"
  else removeNonDigits id ++ js "@c.us".

(** The body of a [sendMessage] request. *)
Record sendRequest := mkSend {
  s_sessionId : option (list N);
  s_to : option (list N);
  s_text : option (list N)
}.

Section SendMessage.

Variable toLowerCase : list N -> list N.

Definition couldNotResolve (to : list N) : list N :=
  js "Could not resolve recipient: " ++ to.

Definition sendMessage (req : sendRequest) : async reply :=
  match s_sessionId req, s_to req, s_text req with
  | Some (a :: sid), Some (b :: to'), Some (c :: text') =>
      let sessionId := a :: sid in
      let to := b :: to' in
      let text := c :: text' in
      tryCatch
        (client ← awaitFn (Manager.getOrRestoreClient sessionId);
         ready ← Manager.hasInfo client;
         if negb ready then
           Ret (Reply 400 [("error",
                  JString (js "Session not ready yet. Please wait for connection."))]%string)
         else
           resolved ← awaitFn (resolveRecipient toLowerCase client to);
           match r_id resolved with
           | Some (d :: chatId) =>
               msg ← await (SendMessage client (d :: chatId) (Text text));
               Ret (Reply 200 [("success", JBool true); ("messageId", JString msg);
                               ("to", JString (d :: chatId));
                               ("originalRecipient", JString to);
                               ("groupName", nullable (r_name resolved));
                               ("sessionId", JString sessionId)]%string)
           | _ => Ret (Reply 400 [("error", JString (couldNotResolve to))]%string)
           end)
        (fun err =>
           Ret (Reply 500 [("error", JString (js "Failed to send message"));
                           ("details", JString (message err))]%string))
  | _, _, _ =>
      Ret (Reply 400 [("error", JString (js "sessionId, to, and text required"))]%string)
  end.

End SendMessage.

(** The calls that touch the pool or the session collection do so only
    for session [sid], and nothing sweeps the collection. *)
Definition confinedTo (sid : list N) (c : call) : Prop :=
  match c with
  | ClientsSet k _ | ClientsDelete k | FindOneAndUpdate k _ _ | FindOneAndDelete k => k = sid
  | Create s => sessionId s = sid
  | DeleteMany _ _ _ | DeleteAll => False
  | _ => True
  end.

(** The calls of the session manager for session [sid]: on the pool, the
    Client and the record of [sid], plus the clock and the timer. *)
Definition sessionCall (sid : list N) (c : call) : Prop :=
  match c with
  | ClientsHas k | ClientsGet k | ClientsSet k _ | ClientsDelete k
  | NewClient k | FindOne k | FindOneAndUpdate k _ _ | FindOneAndDelete k => k = sid
  | ClientInfo _ | InitializeRace _ | Destroy _ | DateNow | SetTimeout _ => True
  | _ => False
  end.

(** A call that removes no file. *)
Definition keepsFiles (c : call) : Prop :=
  match c with
  | RmSync _ | UnlinkSync _ => False
  | _ => True
  end.

(** A call that constructs no Client. *)
Definition constructsNothing (c : call) : Prop :=
  match c with
  | NewClient _ => False
  | _ => True
  end.

(** The filter of the two sweeps of [startNewSession], taken at the times
    [now1] and [now2] of its two readings of the clock. *)
Definition swept (uid : list N) (now1 now2 : Z) (s : session) : Prop :=
  stale uid [Disconnected; AuthFailed] (now1 - 3600000) s
  \/ stale uid [Qr] (now2 - 600000) s.

(** The Excel sheet of [sendBatchFromExcel]: from the rows of the first
    sheet to the contacts of the batch. *)

Section Excel.

Variable toLowerCase : list N -> list N.

(** A number of a sheet, with what the runtime makes of it: whether it is
    falsy (0 or NaN) and [String(n)]. *)
Variable number : Type.
Variable isFalsy : number -> bool.
Variable numberToString : number -> list N.

(** A cell of [xlsx.utils.sheet_to_json(worksheet, { header: 1 })]. *)
Inductive cell :=
| CellString (s : list N)
| CellNumber (n : number)
| CellBool (b : bool)
| CellEmpty.

Definition truthyCell (c : cell) : bool :=
  match c with
  | CellString s => truthy (Some s)
  | CellNumber n => negb (isFalsy n)
  | CellBool b => b
  | CellEmpty => false
  end.

(** [String(x)] *)
Definition showCell (c : cell) : list N :=
  match c with
  | CellString s => s
  | CellNumber n => numberToString n
  | CellBool b => if b then js "true" else js "false"
  | CellEmpty => js "undefined"
  end.

Definition isPhoneHeader (h : cell) : bool :=
  match h with
  | CellString (c :: s) =>
      includes (toLowerCase (c :: s)) (js "phone")
      || includes (toLowerCase (c :: s)) (js "number")
  | _ => false
  end.

Definition isNameHeader (h : cell) : bool :=
  match h with
  | CellString (c :: s) => includes (toLowerCase (c :: s)) (js "name")
  | _ => false
  end.

(** [Array.prototype.findIndex], [None] for -1. *)
Fixpoint findIndex {X} (p : X -> bool) (l : list X) : option nat :=
  match l with
  | [] => None
  | x :: l' => if p x then Some 0 else S <$> findIndex p l'
  end.

(** [String(phone).replace(/[\s\-]/g, '')] *)
Definition cleanPhone (s : list N) : list N :=
  filter (fun c => (isSpace c || (c =? 45)%N) = false) s.

Record contact := mkContact { contactPhone : list N; contactName : cell }.

(** The body of the loop over the rows; [None] for a row that is not an
    array. *)
Definition contactOf (phoneColIndex nameColIndex : nat) (row : option (list cell))
  : option contact :=
  match row with
  | None => None
  | Some row =>
      let phone := nth phoneColIndex row CellEmpty in
      let name := nth nameColIndex row CellEmpty in
      if truthyCell phone then
        let cleanedPhone := cleanPhone (showCell phone) in
        if truthy (Some cleanedPhone) && (10 <=? length cleanedPhone) then
          Some (mkContact cleanedPhone
                          (if truthyCell name then name else CellString cleanedPhone))
        else None
      else None
  end.

(** [data[0] || []] *)
Definition headersOf (data : list (option (list cell))) : list cell :=
  match data with
  | Some headers :: _ => headers
  | _ => []
  end.

Definition phoneColIndex (headers : list cell) : nat :=
  default 0 (findIndex isPhoneHeader headers).

Definition nameColIndex (headers : list cell) : nat :=
  default 1 (findIndex isNameHeader headers).

(** The contacts of a sheet: the loop starts at the second row. *)
Definition extractContacts (data : list (option (list cell))) : list contact :=
  let headers := headersOf data in
  omap (contactOf (phoneColIndex headers) (nameColIndex headers)) (tail data).

(** A contact that can be dialled: a phone of ten code units or more
    without white space or dashes, and a name. *)
Definition dialable (c : contact) : Prop :=
  10 <= length (contactPhone c)
  /\ Forall (fun ch => isSpace ch = false /\ ch <> 45%N) (contactPhone c)
  /\ truthyCell (contactName c) = true.

End Excel.

Arguments CellString {number} s.
Arguments CellNumber {number} n.
Arguments CellBool {number} b.
Arguments CellEmpty {number}.
Arguments mkContact {number} contactPhone contactName.
Arguments contactPhone {number} c.
Arguments contactName {number} c.
Arguments truthyCell {number} isFalsy c.
Arguments showCell {number} numberToString c.
Arguments isPhoneHeader toLowerCase {number} h.
Arguments isNameHeader toLowerCase {number} h.
Arguments contactOf {number} isFalsy numberToString phoneColIndex nameColIndex row.
Arguments headersOf {number} data.
Arguments phoneColIndex toLowerCase {number} headers.
Arguments nameColIndex toLowerCase {number} headers.
Arguments extractContacts toLowerCase {number} isFalsy numberToString data.
Arguments dialable {number} isFalsy c.

(** ** More observations *)

(** The pool entry and the record of session [other] are in [w'] what
    they were in [w]. *)
Definition untouched (other : list N) (w w' : world) : Prop :=
  clients w' !! other = clients w !! other
  /\ sessions w' !! other = sessions w !! other.

(** The Clients that a trace destroys, in order. *)
Fixpoint destroyed (tr : list call) : list handle :=
  match tr with
  | [] => []
  | Destroy h :: tr' => h :: destroyed tr'
  | _ :: tr' => destroyed tr'
  end.

(** The sends of a trace are the first items of [plan], in order, all
    through [client] to [recipientId]; nothing sleeps in between; a loop
    that ends without an exception has sent the whole plan. *)
Definition followsPlan {A} (client : handle) (recipientId : list N) (plan : list content)
           (tr : list call) (o : outcome A) : Prop :=
  exists n,
    n <= length plan
    /\ sends tr = map (fun c => (client, recipientId, c)) (take n plan)
    /\ sleeps tr = []
    /\ match o with
       | Fulfilled _ => n = length plan
       | Rejected _ => True
       end.

(** The calls that prepare the media of a batch. *)
Definition mediaCall (c : call) : Prop :=
  match c with
  | MimeLookup _ | ReadFileBase64 _ | MediaFromUrl _ => True
  | _ => False
  end.

(** The pool, the session collection, the files and the number of Clients
    constructed are the same. *)
Definition sameState (w w' : world) : Prop :=
  clients w' = clients w /\ sessions w' = sessions w /\ files w' = files w
  /\ created w' = created w.

(** ** More fixtures *)

Definition withFromUrl (f : nat -> list N -> outcome media) (E : env) : env :=
  mkEnv (e_info E) (e_initialize E) (e_destroy E) (e_getChats E) (e_sendMessage E) f
        (e_post E) (e_now E) (e_locale E) (e_uuid E) (e_random E) (e_rmSync E)
        (e_readFile E) (e_mime E).

(** No remote file can be fetched. *)
Definition offline : env :=
  withFromUrl (fun _ _ => Rejected (Error (js "getaddrinfo ENOTFOUND files.example"))) ready.

(** A picture by URL to one recipient through the pooled session. *)
Definition remotePicture : @batchRequest exact :=
  mkBatch [js "s1"] [js "15550000001@c.us"] None [js "http://files.example/a.png"] []
          None None.

Definition hookUrl : list N := js "http://hooks.example/in".

(** ** A session collection that can fail

    A call of the mongoose model goes to the database and may be
    rejected.  [outage t = Some e]: the call of the model that is made as
    call number [t] is rejected with [e], and the collection is left as
    it was.  With no outage the calls are answered as [answer] says. *)
Definition storeCall (c : call) : bool :=
  match c with
  | DeleteMany _ _ _ | DeleteAll | Create _ | FindOne _
  | FindOneAndUpdate _ _ _ | FindOneAndDelete _ => true
  | _ => false
  end.

Definition answerWith (outage : nat -> option error) (E : env) (w : world) (c : call)
  : world * outcome (resp_of c) :=
  match (if storeCall c then outage (tick w) else None) with
  | Some e => (w, Rejected e)
  | None => answer E w c
  end.

Definition performWith (outage : nat -> option error) (E : env) (w : world) (c : call)
  : world * outcome (resp_of c) :=
  let '(w', r) := answerWith outage E w c in (next w', r).

(** [run], with the outages of the session collection. *)
Fixpoint runWith {A} (outage : nat -> option error) (E : env) (p : async A) (w : world)
  : world * list call * outcome A :=
  match p with
  | Ret a => (w, [], Fulfilled a)
  | Throw e => (w, [], Rejected e)
  | Do c k =>
      let '(w1, r) := performWith outage E w c in
      let '(w2, tr, o) := runWith outage E (k r) w1 in
      (w2, c :: tr, o)
  | Yield k => runWith outage E k w
  end.

(** The session collection answers every call. *)
Definition reliable : nat -> option error := fun _ => None.

(** The session collection is down: every call of the model is rejected. *)
Definition storeDown : error := Error (js "MongoNetworkError: connection timed out").

Definition down : nat -> option error := fun _ => Some storeDown.

(** A session id that is one path segment: it holds no slash and no
    backslash, so that [path.join] only puts the segments together. *)
Definition oneSegment (sid : list N) : Prop :=
  Forall (fun c => c <> 47%N /\ c <> 92%N) sid.

(** A call that is not a call of the session collection. *)
Definition besideStore (c : call) : Prop := storeCall c = false.


(** ** The runner *)

Section Runner.

Variable E : env.

Lemma run_bind {A B} (p : async A) (f : A -> async B) (w : world) :
  run E (p ≫= f) w =
  match run E p w with
  | (w1, tr1, Fulfilled a) =>
      let '(w2, tr2, o) := run E (f a) w1 in (w2, tr1 ++ tr2, o)
  | (w1, tr1, Rejected e) => (w1, tr1, Rejected e)
  end.
Proof.
  unfold mbind, async_bind.
  revert w. induction p as [a|e|c k IH|k IH]; intros w; cbn.
  - by destruct (run E (f a) w) as [[??]?].
  - done.
  - destruct (perform E w c) as [w1 r]. rewrite IH.
    destruct (run E (k r) w1) as [[w2 tr] [a|e]]; [|done].
    by destruct (run E (f a) w2) as [[??]?].
  - apply IH.
Qed.

Lemma run_tryCatch {A} (p : async A) (h : error -> async A) (w : world) :
  run E (tryCatch p h) w =
  match run E p w with
  | (w1, tr1, Fulfilled a) => (w1, tr1, Fulfilled a)
  | (w1, tr1, Rejected e) =>
      let '(w2, tr2, o) := run E (h e) w1 in (w2, tr1 ++ tr2, o)
  end.
Proof.
  revert w. induction p as [a|e|c k IH|k IH]; intros w; cbn.
  - done.
  - by destruct (run E (h e) w) as [[??]?].
  - destruct (perform E w c) as [w1 r]. rewrite IH.
    destruct (run E (k r) w1) as [[w2 tr] [a|e]]; [done|].
    by destruct (run E (h e) w2) as [[??]?].
  - apply IH.
Qed.

Lemma run_awaitFn {A} (p : async A) (w : world) : run E (awaitFn p) w = run E p w.
Proof.
  unfold awaitFn. rewrite run_tryCatch, run_bind.
  destruct (run E p w) as [[w1 tr] [a|e]]; cbn; by rewrite app_nil_r.
Qed.

Lemma run_sync (c : call) (w : world) :
  run E (sync c) w = ((perform E w c).1, [c], (perform E w c).2).
Proof. cbn. destruct (perform E w c) as [w1 [a|e]]; done. Qed.

Lemma run_await (c : call) (w : world) :
  run E (await c) w = ((perform E w c).1, [c], (perform E w c).2).
Proof. cbn. destruct (perform E w c) as [w1 [a|e]]; done. Qed.

(** A task that has the event loop for itself does what [run] says: the
    sequential runner is the interleaving one with a single task, resumed
    until it ends. *)
Lemma run_alone {A} (p : async A) (w : world) :
  exists n q,
    concurrently E (replicate n 0) [p] w = ((run E p w).1.1, (run E p w).1.2, [q])
    /\ ended q = Some (run E p w).2.
Proof.
  unfold concurrently. cbn [start].
  revert w. induction p as [a|e|c k IH|k IH]; intros w.
  - exists 0, (Ret a). done.
  - exists 0, (Throw e). done.
  - cbn [segment run]. destruct (perform E w c) as [w1 r].
    destruct (IH r w1) as (n & q & Hrun & Hq). exists n, q.
    destruct (segment E (k r) w1) as [[w2 tr2] p2].
    destruct (run E (k r) w1) as [[w3 tr3] o3].
    destruct (interleave E (replicate n 0) [p2] w2) as [[w4 tr4] ts4].
    cbn in *. rewrite app_nil_r in *. injection Hrun as -> <- ->. done.
  - destruct (IH w) as (n & q & Hrun & Hq). exists (S n), q.
    cbn [segment run replicate interleave lookup list_lookup resume].
    destruct (segment E k w) as [[w2 tr2] p2].
    cbn [insert list_insert] in *.
    destruct (interleave E (replicate n 0) [p2] w2) as [[w4 tr4] ts4].
    cbn in *. rewrite app_nil_r in *. injection Hrun as -> <- ->. done.
Qed.

End Runner.

(** ** Strings *)

Lemma trimStart_clean (s : list N) : cleanStart (trimStart s).
Proof.
  induction s as [|c s IH]; cbn; [done|].
  destruct (isSpace c) eqn:Hc; [apply IH | exact Hc].
Qed.

Lemma trimStart_id (s : list N) : cleanStart s -> trimStart s = s.
Proof. destruct s as [|c s]; cbn; [done|]. by intros ->. Qed.

Lemma trimEnd_clean (s : list N) : cleanStart s -> cleanStart (trimEnd s).
Proof.
  destruct s as [|c s]; cbn; [done|]. intros Hc.
  destruct (trimEnd s); [by rewrite Hc | done].
Qed.

Lemma trimEnd_idem (s : list N) : trimEnd (trimEnd s) = trimEnd s.
Proof.
  induction s as [|c s IH]; cbn; [done|].
  destruct (trimEnd s) as [|d t] eqn:Ht.
  - destruct (isSpace c) eqn:Hc; cbn; [done | by rewrite Hc].
  - change (trimEnd (c :: d :: t)) with
      (match trimEnd (d :: t) with
       | [] => if isSpace c then [] else [c]
       | u => c :: u
       end).
    by rewrite IH.
Qed.

Lemma trim_idem (s : list N) : trim (trim s) = trim s.
Proof.
  unfold trim.
  rewrite (trimStart_id (trimEnd (trimStart s))).
  - apply trimEnd_idem.
  - apply trimEnd_clean, trimStart_clean.
Qed.

(** ** The recipient resolver *)

Section Resolver.

Variable toLowerCase : list N -> list N.
Variable E : env.

(** C4. For every recipient token, shapes 1 to 3 are pure string
    transforms, applied in this order, the first that matches winning: a
    token that contains a group or person chat suffix is returned as it is;
    else a token with a dash gets the group suffix; else a token whose
    digits-only form has at least ten digits and equals the token without
    spaces, dashes and plus signs is that digit string with the person
    suffix.  In each case the display name is null, the result depends on
    the token alone (not on the Client, the world or the environment), and
    the Client is not called: the resolver returns at once, its run makes
    no call and leaves the world as it was. *)
Theorem resolveRecipient_shapes (client : handle) (recipient id : list N) (w : world) :
  shapeOf recipient = Some id ->
  resolveRecipient toLowerCase client recipient
    = Ret (mkResolved (Some id) None None false None)
  /\ run E (resolveRecipient toLowerCase client recipient) w
    = (w, [], Fulfilled (mkResolved (Some id) None None false None)).
Proof.
  unfold shapeOf, resolveRecipient, groupSuffix, personSuffix.
  destruct (includes recipient (js "@g.us") || includes recipient (js "@c.us")).
  { intros [= <-]. done. }
  destruct (includes recipient (js "-")).
  { intros [= <-]. done. }
  cbv zeta.
  destruct ((10 <=? length (removeNonDigits recipient))%nat
            && eqs (removeNonDigits recipient) (removeSeparators recipient)).
  { intros [= <-]. done. }
  discriminate.
Qed.

End Resolver.

Lemma resolveRecipient_shapes_phone :
  resolveRecipient asciiLower 0%nat (js "+1 555 123 4567")
    = Ret (mkResolved (Some (js "15551234567@c.us")) None None false None)
  /\ run quiet (resolveRecipient asciiLower 0%nat (js "+1 555 123 4567")) emptyWorld
    = (emptyWorld, [], Fulfilled (mkResolved (Some (js "15551234567@c.us")) None None false None)).
Proof.
  apply (resolveRecipient_shapes asciiLower quiet 0%nat (js "+1 555 123 4567")
           (js "15551234567@c.us") emptyWorld).
  vm_compute. reflexivity.
Defined.

Example shapeOf_suffixed : shapeOf (js "120363-41@g.us") = Some (js "120363-41@g.us").
Proof. vm_compute. reflexivity. Qed.

Example shapeOf_dashed : shapeOf (js "120363-41") = Some (js "120363-41@g.us").
Proof. vm_compute. reflexivity. Qed.

Example shapeOf_short_number : shapeOf (js "555 1234") = None.
Proof. vm_compute. reflexivity. Qed.

Example shapeOf_name : shapeOf (js "team") = None.
Proof. vm_compute. reflexivity. Qed.

(** What the lookup by name does with several substring matches, in
    general: the first group of the chat list whose name contains the
    token is returned, flagged [partialMatch]. *)
Lemma resolveRecipient_first_partial (toLowerCase : list N -> list N) (E : env) (w : world)
      (client : handle) (recipient : list N) (chats : list chat) (first : chat) :
  shapeOf recipient = None ->
  e_getChats E (tick w) client = Fulfilled chats ->
  List.find (exactMatch toLowerCase recipient) chats = None ->
  List.find (partialMatches toLowerCase recipient) chats = Some first ->
  (run E (resolveRecipient toLowerCase client recipient) w).2
  = Fulfilled (mkResolved (Some (chatId first)) (chatName first) (Some true) true None).
Proof.
  unfold shapeOf, resolveRecipient, groupSuffix, personSuffix.
  destruct (includes recipient (js "@g.us") || includes recipient (js "@c.us")); [done|].
  destruct (includes recipient (js "-")); [done|].
  cbv zeta.
  destruct ((10 <=? length (removeNonDigits recipient))%nat
            && eqs (removeNonDigits recipient) (removeSeparators recipient)); [done|].
  intros _ Hchats Hexact Hpartial.
  rewrite run_tryCatch, run_bind. cbn.
  rewrite Hchats. cbn. rewrite Hexact, Hpartial. done.
Qed.

(** C3. The code at the input of the claim: the token "team" reaches the
    lookup by name, no group is named "team", two groups contain it, and
    the resolver returns the first of them ("Team Alpha"), flagged as a
    partial match; no ambiguous outcome is reported. *)
Theorem resolveRecipient_picks_first_of_two :
  shapeOf (js "team") = None
  /\ List.find (exactMatch asciiLower (js "team")) [teamAlpha; teamBeta] = None
  /\ List.filter (partialMatches asciiLower (js "team")) [teamAlpha; teamBeta]
     = [teamAlpha; teamBeta]
  /\ (run twoTeams (resolveRecipient asciiLower 0%nat (js "team")) emptyWorld).2
     = Fulfilled (mkResolved (Some (js "1203630001@g.us")) (Some (js "Team Alpha"))
                             (Some true) true None).
Proof. vm_compute. done. Qed.

(** The sibling lookup of the group controller, on the same chats and the
    same token, reports both groups instead of choosing. *)
Lemma getGroupIdByName_reports_both :
  (run twoTeams (getGroupIdByName normalizeAscii (Some (js "s1")) (Some (js "team"))) pooled).2
  = Fulfilled (Respond 200 (MultipleMatched [teamAlpha; teamBeta])).
Proof. vm_compute. done. Qed.

(** ** The notification bus *)

Section Notify.

Variable E : env.

Lemma sendWebhook_run (w : world) (eventType : list N)
      (payload : list (list N * option (list N))) :
  exists w' tr,
    run E (Webhook.sendWebhook eventType payload) w = (w', tr, Fulfilled tt)
    /\ length (posts tr) <= 1
    /\ (truthy (configured w eventType) = false ->
        tr = [RegisteredGet eventType; WebhookUrls eventType])
    /\ (forall url e,
          truthy (configured w eventType) = true ->
          configured w eventType = Some url ->
          (forall t, e_post E t url = Rejected e) ->
          posts tr = [url]
          /\ last tr = Some (ConsoleError (Webhook.failedLine eventType (message e)))).
Proof.
  unfold Webhook.sendWebhook, configured.
  rewrite run_bind. cbn.
  destruct (registeredWebhooks w !! eventType) as [[|c u]|] eqn:Hreg; cbn;
    [destruct (webhookUrls w !! eventType) as [[|c u]|] eqn:Hurl; cbn;
       [|destruct (e_post E (S (S (tick w))) (c :: u)) as [[]|e0] eqn:Hpost; cbn|]
    |destruct (e_post E (S (tick w)) (c :: u)) as [[]|e0] eqn:Hpost; cbn
    |destruct (webhookUrls w !! eventType) as [[|c u]|] eqn:Hurl; cbn;
       [|destruct (e_post E (S (S (tick w))) (c :: u)) as [[]|e0] eqn:Hpost; cbn|]];
    eexists _, _; (split; [reflexivity|]); (split; [cbn; lia|]);
    (split; [done|]); try done.
  all: intros url e _ [= <-] Hall; rewrite Hall in Hpost; try done.
  all: by injection Hpost as <-.
Qed.

Lemma sendWebhook_settles (w : world) (eventType : list N)
      (payload : list (list N * option (list N))) :
  (run E (awaitFn (Webhook.sendWebhook eventType payload)) w).2 = Fulfilled tt.
Proof.
  rewrite run_awaitFn.
  destruct (sendWebhook_run w eventType payload) as (w' & tr & -> & _). done.
Qed.

(** C8. For every event category and payload, in every world and
    environment, [sendWebhook] settles without an exception.  It posts at
    most once (no retry).  When no truthy URL is configured for the
    category (neither registered nor in [webhookUrls]) it only consults
    the two tables and returns: no POST, nothing logged.  When the POST to
    the configured URL is rejected, that one POST is the only one and the
    last thing the function does is log the failure with the message of
    the error.  The notify functions, which the operations that trigger an
    event await, settle without an exception as well. *)
Theorem sendWebhook_never_raises (w : world) (eventType : list N)
        (payload : list (list N * option (list N))) :
  (exists w' tr,
     run E (Webhook.sendWebhook eventType payload) w = (w', tr, Fulfilled tt)
     /\ length (posts tr) <= 1
     /\ (truthy (configured w eventType) = false ->
         tr = [RegisteredGet eventType; WebhookUrls eventType])
     /\ (forall url e,
           truthy (configured w eventType) = true ->
           configured w eventType = Some url ->
           (forall t, e_post E t url = Rejected e) ->
           posts tr = [url]
           /\ last tr = Some (ConsoleError (Webhook.failedLine eventType (message e)))))
  /\ (forall data,
        (run E (Webhook.notifyMessageReceived data) w).2 = Fulfilled tt
        /\ (run E (Webhook.notifyMessageDelivered data) w).2 = Fulfilled tt
        /\ (run E (Webhook.notifyMessageAck data) w).2 = Fulfilled tt
        /\ (run E (Webhook.notifyGroupMemberAdded data) w).2 = Fulfilled tt
        /\ (run E (Webhook.notifyGroupMemberRemoved data) w).2 = Fulfilled tt
        /\ (run E (Webhook.notifySessionUpdate data) w).2 = Fulfilled tt).
Proof.
  split; [apply sendWebhook_run|].
  intros data. repeat split; apply sendWebhook_settles.
Qed.

End Notify.

(** An unreachable URL: one POST, the failure logged, no exception. *)
Example sendWebhook_unreachable :
  run unreachable (Webhook.sendWebhook (js "message") [(js "event", Some (js "message.received"))])
      hooked
  = (next (next (next hooked)),
     [RegisteredGet (js "message");
      AxiosPost (js "http://hooks.example/in") [(js "event", Some (js "message.received"))]
                (js "message");
      ConsoleError (Webhook.failedLine (js "message") (js "connect ECONNREFUSED"))],
     Fulfilled tt).
Proof. vm_compute. reflexivity. Qed.

(** No URL for the category: two lookups and nothing else. *)
Example sendWebhook_unconfigured :
  run unreachable (Webhook.sendWebhook (js "group") [(js "event", Some (js "group.member.added"))])
      hooked
  = (next (next hooked), [RegisteredGet (js "group"); WebhookUrls (js "group")], Fulfilled tt).
Proof. vm_compute. reflexivity. Qed.

(** ** Calls of a program *)

Section Calls.

Variable P : call -> Prop.

Lemma callsAll_bind {A B} (p : async A) (f : A -> async B) :
  callsAll P p -> (forall a, callsAll P (f a)) -> callsAll P (p ≫= f).
Proof.
  unfold mbind, async_bind.
  intros Hp Hf. induction Hp; cbn; [apply Hf | by constructor | | by constructor].
  constructor; [assumption | auto].
Qed.

Lemma callsAll_tryCatch {A} (p : async A) (h : error -> async A) :
  callsAll P p -> (forall e, callsAll P (h e)) -> callsAll P (tryCatch p h).
Proof.
  intros Hp Hh. induction Hp; cbn; [by constructor | apply Hh | | by constructor].
  constructor; [assumption | auto].
Qed.

Lemma callsAll_sync (c : call) : P c -> callsAll P (sync c).
Proof. intros Hc. constructor; [assumption|]. intros [a|e]; constructor. Qed.

Lemma callsAll_await (c : call) : P c -> callsAll P (await c).
Proof.
  intros Hc. constructor; [assumption|].
  intros [a|e]; constructor; constructor.
Qed.

Lemma callsAll_awaitFn {A} (p : async A) : callsAll P p -> callsAll P (awaitFn p).
Proof.
  intros Hp. unfold awaitFn. apply callsAll_tryCatch.
  - apply callsAll_bind; [assumption|]. intros a. constructor. constructor.
  - intros e. constructor. constructor.
Qed.

Lemma callsAll_impl {A} (Q : call -> Prop) (p : async A) :
  (forall c, Q c -> P c) -> callsAll Q p -> callsAll P p.
Proof. intros HQ Hp. induction Hp; constructor; auto. Qed.

Lemma callsAll_run {A} (E : env) (p : async A) (w : world) :
  callsAll P p -> Forall P (run E p w).1.2.
Proof.
  intros Hp. revert w. induction Hp as [a|e|c k Hc Hk IH|k Hk IH]; intros w; cbn.
  - constructor.
  - constructor.
  - destruct (perform E w c) as [w1 r]. specialize (IH r w1).
    destruct (run E (k r) w1) as [[w2 tr] o]. cbn in *. by constructor.
  - apply IH.
Qed.

End Calls.

Ltac calls :=
  repeat first
    [ apply callsAll_bind; [|intros ?]
    | apply callsAll_tryCatch; [|intros ?]
    | apply callsAll_awaitFn
    | match goal with
      | |- callsAll ?P (sync ?c) => apply (callsAll_sync P c)
      | |- callsAll ?P (await ?c) => apply (callsAll_await P c)
      end
    | solve [repeat split]
    | match goal with
      | |- callsAll _ (match ?x with _ => _ end) => destruct x
      | |- forall _ : outcome _, _ => intros [?|?]
      end
    | constructor ].

(** ** The session manager *)

Section Restore.

Variable E : env.

Lemma hasInfo_keyed (sid : list N) (c : handle) : callsAll (managerCall sid) (Manager.hasInfo c).
Proof. unfold Manager.hasInfo. calls. Qed.

Lemma infoOf_keyed (sid : list N) (c : option handle) : callsAll (managerCall sid) (Manager.infoOf c).
Proof. destruct c; [apply hasInfo_keyed | constructor]. Qed.

Lemma createClient_keyed (uid sid name : list N) :
  callsAll (managerCall sid) (Manager.createClient uid sid name).
Proof.
  unfold Manager.createClient.
  apply callsAll_tryCatch; [|intros ?; calls].
  apply callsAll_bind; [calls|]. intros has.
  apply callsAll_bind.
  { destruct has; [|constructor].
    apply callsAll_bind; [calls|]. intros existing.
    apply callsAll_tryCatch; [|intros ?; calls].
    apply callsAll_bind; [apply infoOf_keyed|]. intros ?. constructor. }
  intros [existing|]; [constructor|].
  calls.
Qed.

Lemma poll_keyed (n : nat) (sid : list N) : callsAll (managerCall sid) (Manager.poll n sid).
Proof.
  induction n as [|n IH]; cbn [Manager.poll]; [constructor|].
  apply callsAll_bind; [calls|]. intros _.
  apply callsAll_bind; [calls|]. intros client.
  apply callsAll_bind.
  { destruct client; [|constructor].
    apply callsAll_tryCatch; [apply hasInfo_keyed | intros ?; constructor]. }
  intros [|]; [constructor | apply IH].
Qed.

Lemma restoreSession_keyed (s : list N) :
  callsAll (managerCall (trim s)) (Manager.restoreSession s).
Proof.
  unfold Manager.restoreSession. cbv zeta.
  apply callsAll_tryCatch; [|intros ?; constructor].
  apply callsAll_bind; [calls|]. intros has.
  apply callsAll_bind.
  { destruct has; [|constructor].
    apply callsAll_bind; [calls|]. intros client.
    apply callsAll_tryCatch; [|intros ?; calls].
    apply callsAll_bind; [apply infoOf_keyed|]. intros ?. constructor. }
  intros [client|]; [constructor|].
  apply callsAll_bind; [calls|]. intros [session|]; [|constructor].
  apply callsAll_bind; [apply callsAll_awaitFn, createClient_keyed|]. intros _.
  apply callsAll_bind; [apply poll_keyed|]. intros [client|]; [constructor|].
  calls.
Qed.

Lemma getOrRestoreClient_keyed (s : list N) :
  callsAll (managerCall (trim s)) (Manager.getOrRestoreClient s).
Proof.
  unfold Manager.getOrRestoreClient. cbv zeta.
  apply callsAll_tryCatch; [|intros ?; constructor].
  apply callsAll_bind; [calls|]. intros client.
  apply callsAll_bind.
  { destruct client as [c|]; [|constructor].
    apply callsAll_tryCatch; [|intros ?; constructor].
    apply callsAll_bind; [apply hasInfo_keyed|]. intros [|]; calls. }
  intros [c|]; [constructor|].
  apply callsAll_bind.
  { apply callsAll_awaitFn.
    pose proof (restoreSession_keyed (trim s)) as H. by rewrite trim_idem in H. }
  intros restored.
  apply callsAll_bind; [apply hasInfo_keyed|]. intros [|]; constructor.
Qed.

(** C10. For every session id [s], [restoreSession] and
    [getOrRestoreClient] first trim it: called with [s] they are the same
    program as called with [trim s], so in every world and environment the
    two calls make the same calls in the same order, leave the same world
    and settle alike.  Every call they make on the pool, on the Client
    under construction and on the session collection is keyed by
    [trim s]: the pool entry consulted and populated and the record loaded
    are those of the trimmed id. *)
Theorem restore_trims (s : list N) (w : world) :
  Manager.restoreSession s = Manager.restoreSession (trim s)
  /\ Manager.getOrRestoreClient s = Manager.getOrRestoreClient (trim s)
  /\ run E (Manager.restoreSession s) w = run E (Manager.restoreSession (trim s)) w
  /\ run E (Manager.getOrRestoreClient s) w = run E (Manager.getOrRestoreClient (trim s)) w
  /\ Forall (keyedBy (trim s)) (run E (Manager.restoreSession s) w).1.2
  /\ Forall (keyedBy (trim s)) (run E (Manager.getOrRestoreClient s) w).1.2.
Proof.
  assert (Hr : Manager.restoreSession s = Manager.restoreSession (trim s)).
  { unfold Manager.restoreSession. cbv zeta. by rewrite trim_idem. }
  assert (Hg : Manager.getOrRestoreClient s = Manager.getOrRestoreClient (trim s)).
  { unfold Manager.getOrRestoreClient. cbv zeta. by rewrite trim_idem. }
  repeat split; [exact Hr | exact Hg | by rewrite <- Hr | by rewrite <- Hg | |].
  - eapply callsAll_run, callsAll_impl, restoreSession_keyed. by intros c [Hc _].
  - eapply callsAll_run, callsAll_impl, getOrRestoreClient_keyed. by intros c [Hc _].
Qed.

End Restore.

(** C2, as stated, fails: with an initialization that never settles, the
    race is lost after 60 s, [createClient] rethrows the error and so does
    [startNewSession]: the call raises and returns no session id. *)
Lemma startNewSession_raises_on_timeout :
  (run hanging (Manager.startNewSession (js "alice") (js "Alice phone") false) emptyWorld).2
  = Rejected timeoutError
  /\ ~ exists sid,
       (run hanging (Manager.startNewSession (js "alice") (js "Alice phone") false) emptyWorld).2
       = Fulfilled sid.
Proof.
  assert (H : (run hanging (Manager.startNewSession (js "alice") (js "Alice phone") false)
                 emptyWorld).2 = Rejected timeoutError) by (vm_compute; reflexivity).
  split; [exact H|]. intros [sid Hsid]. rewrite H in Hsid. discriminate.
Qed.

Section StartSession.

Variable E : env.

Lemma perform_Create_fresh (w : world) (s : session) :
  sessions w !! sessionId s = None ->
  perform E w (Create s) = (next (setSessions (insert (sessionId s) s) w), Fulfilled tt).
Proof. intros H. unfold perform. cbn. by rewrite H. Qed.

Lemma createClient_init_failure (w : world) (uid sid name : list N) (e : error) :
  (forall t h, initFailure (e_initialize E t h) = Some e) ->
  clients w !! sid = None ->
  exists w' tr now,
    run E (Manager.createClient uid sid name) w = (w', tr, Rejected e)
    /\ clients w' = clients w
    /\ sessions w' =
       alter (withStatus (if Manager.isNetworkError (message e)
                          then NetworkError else Failed) now) sid (sessions w).
Proof.
  intros Hinit Hpool.
  unfold Manager.createClient.
  rewrite run_tryCatch, run_bind. cbn. rewrite Hpool. cbn.
  rewrite Hinit. cbn.
  destruct (Manager.isNetworkError (message e)); cbn;
    eexists _, _, _; (split; [reflexivity|]); cbn;
    (split; [|reflexivity]);
    by rewrite delete_delete_eq, delete_insert_id.
Qed.

(** C2, amended. For every StartSession request whose session id is fresh
    (not persisted, not pooled): when the initialization of the new Client
    fails after the pending record is written (it rejects, or the 60 s
    race is lost), the call raises that error - it does not return the
    session id -, the persisted record of the session is left in a
    terminal state ([network_error] if the message of the error names a
    network failure, [failed] otherwise), and the pool holds no entry for
    the session. *)
Theorem startNewSession_creation_failure
        (w : world) (uid name uuid : list N) (forceNew : bool) (e : error) :
  (forall t, e_uuid E t = uuid) ->
  (forall t h, initFailure (e_initialize E t h) = Some e) ->
  sessions w !! (js "session_" ++ uuid) = None ->
  clients w !! (js "session_" ++ uuid) = None ->
  exists w' tr st,
    run E (Manager.startNewSession uid name forceNew) w = (w', tr, Rejected e)
    /\ sessionStatus <$> sessions w' !! (js "session_" ++ uuid) = Some st
    /\ st = (if Manager.isNetworkError (message e) then NetworkError else Failed)
    /\ terminal st = true
    /\ clients w' !! (js "session_" ++ uuid) = None.
Proof.
  intros Huuid Hinit Hfresh Hpool.
  unfold Manager.startNewSession.
  rewrite run_tryCatch.
  rewrite run_bind. cbn. rewrite Huuid.
  destruct name as [|c name]; cbn.
  all: rewrite perform_Create_fresh
    by (cbn; apply map_lookup_filter_None_2; left;
        apply map_lookup_filter_None_2; by left).
  all: cbn; rewrite run_bind, run_awaitFn.
  all: match goal with
       | |- context [run E (Manager.createClient ?u ?s ?n) ?wx] =>
           destruct (createClient_init_failure wx u s n e Hinit)
             as (w' & tr & now & Hrun & Hc & Hs); [exact Hpool|]; rewrite Hrun
       end.
  all: cbn; eexists _, _, _; (split; [reflexivity|]).
  all: rewrite Hs, Hc; cbn; rewrite lookup_alter_eq, lookup_insert_eq; cbn.
  all: split; [reflexivity|]; split; [reflexivity|];
       split; [by destruct (Manager.isNetworkError (message e)) | exact Hpool].
Qed.

End StartSession.

Lemma startNewSession_creation_failure_timeout :
  exists w' tr st,
    run hanging (Manager.startNewSession (js "alice") (js "Alice phone") false) emptyWorld
    = (w', tr, Rejected timeoutError)
    /\ sessionStatus <$> sessions w' !! (js "session_" ++ js "0000") = Some st
    /\ st = (if Manager.isNetworkError (message timeoutError) then NetworkError else Failed)
    /\ terminal st = true
    /\ clients w' !! (js "session_" ++ js "0000") = None.
Proof.
  apply (startNewSession_creation_failure hanging emptyWorld (js "alice")
           (js "Alice phone") (js "0000") false timeoutError).
  - intros t. reflexivity.
  - intros t h. reflexivity.
  - vm_compute. reflexivity.
  - vm_compute. reflexivity.
Defined.

(** ** Deleting a session *)

Section Delete.

Variable E : env.

(** What [deleteSession] does when the Client can be destroyed and the
    credential folder can be removed: it returns the persisted record, if
    there was one, and afterwards the session is neither pooled nor
    persisted, and its folder is gone. *)
Lemma deleteSession_when_destroy_succeeds (w : world) (sid : list N) :
  (forall t h, e_destroy E t h = Fulfilled tt) ->
  (forall t path, e_rmSync E t path = Fulfilled tt) ->
  exists w' tr,
    run E (Manager.deleteSession sid) w = (w', tr, Fulfilled (sessions w !! sid))
    /\ clients w' !! sid = None
    /\ sessions w' !! sid = None
    /\ Manager.authPath sid ∉ files w'.
Proof.
  intros Hdestroy Hrm.
  unfold Manager.deleteSession.
  rewrite run_bind. cbn.
  destruct (clients w !! sid) as [h|] eqn:Hpool;
    [rewrite run_bind; cbn; rewrite Hdestroy; cbn|cbn];
    (case_bool_decide as Hthere; cbn; [unfold perform; cbn; rewrite Hrm; cbn|]);
    eexists _, _; (split; [reflexivity|]); cbn;
    rewrite ?lookup_delete_eq; (split; [done|]); (split; [done|]).
  1,3: intros [Hnot _]%elem_of_filter; apply Hnot; by left.
  all: intros Hin; apply Hthere, Exists_exists; exists (Manager.authPath sid);
       split; [by apply elem_of_elements | by left].
Qed.

(** Deleting a session that is not persisted: [deleteSession] returns
    null and the controller answers 404, without an exception. *)
Lemma deleteSessionController_absent (w : world) (sid : list N) :
  sessions w !! sid = None ->
  clients w !! sid = None ->
  (run E (SessionController.deleteSessionController sid) w).2
  = Fulfilled (Respond 404 (Failure (js "Session not found") None)).
Proof.
  intros Hdb Hpool.
  unfold SessionController.deleteSessionController, Manager.deleteSession.
  rewrite run_tryCatch, run_bind, run_awaitFn, run_bind. cbn.
  rewrite Hpool. cbn. rewrite Hdb.
  case_bool_decide; cbn; [|done].
  unfold perform. cbn. by destruct (e_rmSync E _ _).
Qed.

End Delete.

(** C9. The code at the failing input: the session is persisted and its
    Client is pooled, and [client.destroy()] rejects.  [deleteSession]
    returns the deleted record (the controller answers 200), the record
    and the credential folder are gone, but the Client is still in the
    pool: [clients.delete] sits behind the failed [destroy] in the same
    [try] block. *)
Theorem deleteSession_leaves_handle_pooled :
  let '(w', tr, o) := run stuck (Manager.deleteSession (js "s1")) pooled in
  o = Fulfilled (Some aliceSession)
  /\ sessions w' !! js "s1" = None
  /\ bool_decide (Manager.authPath (js "s1") ∈ files w') = false
  /\ clients w' !! js "s1" = Some 0
  /\ (run stuck (SessionController.deleteSessionController (js "s1")) pooled).2
     = Fulfilled (Respond 200 (Deleted (js "s1"))).
Proof. vm_compute. done. Qed.

(** The sibling [clearAllSessions], in the same world and environment,
    empties the pool although [destroy] rejects: there [clients.delete]
    comes after the [try] block. *)
Lemma clearAllSessions_empties_pool :
  let '(w', tr, o) := run stuck Manager.clearAllSessions pooled in
  o = Fulfilled 1 /\ clients w' !! js "s1" = None /\ sessions w' !! js "s1" = None.
Proof. vm_compute. done. Qed.

(** ** Concurrent restores *)

(** C1. The code at the failing input: the session is persisted and not
    pooled, every Client is ready as soon as it exists, and two
    [restoreSession] calls for the same id take turns on the event loop.
    Both find the pool without the session ([clients.has] twice, before
    any [clients.set]), so two Clients are constructed for the one id; the
    second replaces the first in the pool, the first is never destroyed,
    and both callers end up with the second.  The same holds of two
    [getOrRestoreClient] calls. *)
Theorem concurrent_restores_construct_two_clients :
  (let '(w', tr, ts) :=
     concurrently ready takingTurns
       [Manager.restoreSession (js "s1"); Manager.restoreSession (js "s1")] persisted in
   created w' = 2
   /\ poolCalls tr
      = [ClientsHas (js "s1"); ClientsHas (js "s1");
         ClientsHas (js "s1"); ClientsHas (js "s1");
         NewClient (js "s1"); ClientsSet (js "s1") 0;
         NewClient (js "s1"); ClientsSet (js "s1") 1;
         ClientsGet (js "s1"); ClientsGet (js "s1")]
   /\ clients w' !! js "s1" = Some 1
   /\ map ended ts = [Some (Fulfilled 1); Some (Fulfilled 1)])
  /\ (let '(w', tr, ts) :=
       concurrently ready (takingTurns ++ [0; 1; 0; 1])
         [Manager.getOrRestoreClient (js "s1"); Manager.getOrRestoreClient (js "s1")]
         persisted in
     created w' = 2
     /\ clients w' !! js "s1" = Some 1
     /\ map ended ts = [Some (Fulfilled 1); Some (Fulfilled 1)]).
Proof. vm_compute. done. Qed.

(** When the first call runs to its end before the second resumes, the
    second finds the Client of the first: one Client is constructed.  How
    many Clients two restores construct depends on the schedule. *)
Lemma serial_restores_construct_one_client :
  let '(w', tr, ts) :=
    concurrently ready oneThenOther
      [Manager.restoreSession (js "s1"); Manager.restoreSession (js "s1")] persisted in
  created w' = 1
  /\ clients w' !! js "s1" = Some 0
  /\ map ended ts = [Some (Fulfilled 0); Some (Fulfilled 0)].
Proof. vm_compute. done. Qed.

(** Without any concurrency: while the pooled Client of a session is not
    ready (it waits for its QR code to be scanned, say), every restore
    constructs another Client and stores it over the previous one. *)
Lemma restores_of_unready_session_construct_two_clients :
  let '(w', tr, o) :=
    run quiet (Manager.restoreSession (js "s1");; Manager.restoreSession (js "s1"))
        persisted in
  created w' = 2 /\ clients w' !! js "s1" = Some 1 /\ o = Fulfilled 1.
Proof. vm_compute. done. Qed.


(** ** The batch loop *)

Lemma sleeps_app (tr1 tr2 : list call) : sleeps (tr1 ++ tr2) = sleeps tr1 ++ sleeps tr2.
Proof.
  induction tr1 as [|c tr1 IH]; [done|].
  destruct c; cbn; rewrite ?IH; done.
Qed.

Lemma sleeps_noSleep (tr : list call) : Forall noSleep tr -> sleeps tr = [].
Proof.
  induction 1 as [|c tr Hc _ IH]; [done|].
  destruct c; cbn; done.
Qed.

Lemma sends_app (tr1 tr2 : list call) : sends (tr1 ++ tr2) = sends tr1 ++ sends tr2.
Proof.
  induction tr1 as [|c tr1 IH]; [done|].
  destruct c; cbn; rewrite ?IH; done.
Qed.

Lemma perform_tick (E : env) (w : world) (c : call) : tick (perform E w c).1 = S (tick w).
Proof.
  unfold perform. destruct c; cbn; try done.
  - by destruct (sessions w !! sessionId s).
  - by destruct (e_rmSync E (tick w) path).
  - by case_bool_decide.
Qed.

(** Every call advances the clock of calls by one. *)
Lemma run_tick {A} (E : env) (p : async A) (w : world) :
  tick (run E p w).1.1 = tick w + length (run E p w).1.2.
Proof.
  revert w. induction p as [a|e|c k IH|k IH]; intros w; cbn.
  - lia.
  - lia.
  - pose proof (perform_tick E w c) as Ht.
    destruct (perform E w c) as [w1 r]. specialize (IH r w1).
    destruct (run E (k r) w1) as [[w2 tr] o]. cbn in *. lia.
  - apply IH.
Qed.

Lemma localContents_later (text : option (list N)) (i : nat) (items : list media) :
  localContents text (S i) items = map (fun m => Media m None) items.
Proof.
  revert i. induction items as [|m items IH]; intros i; cbn; [done|].
  by rewrite IH.
Qed.

Lemma remoteContents_later (text : option (list N)) (noLocal : bool) (i : nat)
      (items : list media) :
  noLocal && bool_decide (i = 0) = false ->
  remoteContents text noLocal i items = map (fun m => Media m None) items.
Proof.
  revert i. induction items as [|m items IH]; intros i Hflag; cbn; [done|].
  rewrite Hflag. cbn. rewrite IH; [done | apply andb_false_r].
Qed.

(** The two loops over the media, one after the other, send the plan. *)
Lemma plannedContents_media (text : option (list N)) (localMediaData remoteMediaList : list media) :
  bool_decide (localMediaData = []) && bool_decide (remoteMediaList = []) = false ->
  localContents text 0 localMediaData
  ++ remoteContents text (bool_decide (localMediaData = [])) 0 remoteMediaList
  = plannedContents text localMediaData remoteMediaList.
Proof.
  intros Hmedia. unfold plannedContents.
  destruct localMediaData as [|m ms].
  - destruct remoteMediaList as [|m' ms']; [done|].
    cbn. by rewrite remoteContents_later.
  - cbn [localContents app]. rewrite localContents_later, map_app.
    rewrite remoteContents_later by done. done.
Qed.

Section Batch.

Context `{JS : arithmetic}.
Variable toLowerCase : list N -> list N.
Variable E : env.

Lemma perform_results (w : world) (c : call) :
  leavesResults c -> results (perform E w c).1 = results w.
Proof.
  unfold perform.
  destruct c; cbn; try done; intros _.
  - by destruct (sessions w !! sessionId s).
  - by destruct (e_rmSync E (tick w) path).
  - by case_bool_decide.
Qed.

Lemma callsAll_results {A} (p : async A) (w : world) :
  callsAll leavesResults p -> results (run E p w).1.1 = results w.
Proof.
  intros Hp. revert w. induction Hp as [a|e|c k Hc Hk IH|k Hk IH]; intros w; cbn.
  - done.
  - done.
  - pose proof (perform_results w c Hc) as Hw.
    destruct (perform E w c) as [w1 r]. specialize (IH r w1).
    destruct (run E (k r) w1) as [[w2 tr] o]. cbn in *. congruence.
  - apply IH.
Qed.

Lemma resolveRecipient_calls (client : handle) (recipient : list N) :
  callsAll (fun c => leavesResults c /\ noSleep c /\ onClient client c)
           (resolveRecipient toLowerCase client recipient).
Proof.
  unfold resolveRecipient.
  destruct (includes recipient (js "@g.us") || includes recipient (js "@c.us")); [constructor|].
  destruct (includes recipient (js "-")); [constructor|].
  cbv zeta.
  destruct ((10 <=? length (removeNonDigits recipient))%nat
            && eqs (removeNonDigits recipient) (removeSeparators recipient)); [constructor|].
  calls.
Qed.

(** The resolver never raises, and what it answers depends on the world
    through the number of the call alone. *)
Lemma resolveRecipient_at (client : handle) (recipient : list N) (w : world) :
  exists res,
    (run E (resolveRecipient toLowerCase client recipient) w).2 = Fulfilled res
    /\ resolvedAt toLowerCase E (tick w) client recipient = Fulfilled res
    /\ sends (run E (resolveRecipient toLowerCase client recipient) w).1.2 = [].
Proof.
  unfold resolvedAt, resolveRecipient.
  destruct (includes recipient (js "@g.us") || includes recipient (js "@c.us")); [by eexists|].
  destruct (includes recipient (js "-")); [by eexists|].
  cbv zeta.
  destruct ((10 <=? length (removeNonDigits recipient))%nat
            && eqs (removeNonDigits recipient) (removeSeparators recipient)); [by eexists|].
  rewrite !run_tryCatch, !run_bind. cbn.
  destruct (e_getChats E (tick w) client) as [chats|e]; cbn; [|by eexists].
  destruct (find (exactMatch toLowerCase recipient) chats); [by eexists|].
  destruct (find (partialMatches toLowerCase recipient) chats); by eexists.
Qed.

Lemma resolveRecipient_settles (client : handle) (recipient : list N) (w : world) :
  exists w' tr res,
    run E (resolveRecipient toLowerCase client recipient) w = (w', tr, Fulfilled res)
    /\ resolvedAt toLowerCase E (tick w) client recipient = Fulfilled res
    /\ results w' = results w
    /\ tick w' = tick w + length tr
    /\ sleeps tr = []
    /\ sends tr = []
    /\ Forall (onClient client) tr.
Proof.
  pose proof (resolveRecipient_calls client recipient) as Hcalls.
  assert (Hres : results (run E (resolveRecipient toLowerCase client recipient) w).1.1
                 = results w).
  { apply callsAll_results. eapply callsAll_impl, Hcalls. by intros c (? & _). }
  assert (Hsl : Forall noSleep (run E (resolveRecipient toLowerCase client recipient) w).1.2).
  { apply callsAll_run. eapply callsAll_impl, Hcalls. by intros c (_ & ? & _). }
  assert (Hon : Forall (onClient client)
                       (run E (resolveRecipient toLowerCase client recipient) w).1.2).
  { apply callsAll_run. eapply callsAll_impl, Hcalls. by intros c (_ & _ & ?). }
  pose proof (run_tick E (resolveRecipient toLowerCase client recipient) w) as Htick.
  destruct (resolveRecipient_at client recipient w) as (res & Hok & Hat & Hsends).
  destruct (run E (resolveRecipient toLowerCase client recipient) w) as [[w' tr] o].
  cbn in *. subst o.
  exists w', tr, res. repeat split; try done. by apply sleeps_noSleep.
Qed.

Lemma sendsOutcome_nil (client : handle) (recipient sid rid groupName : list N) (w : world) :
  sendsOutcome E client recipient sid rid groupName [] w w [] (Fulfilled tt).
Proof. exists []. rewrite app_nil_r. repeat split; constructor. Qed.

(** One item is sent and has its entry, and the loop goes on. *)
Lemma sendsOutcome_cons (client : handle) (recipient sid rid groupName : list N)
      (c : content) (plan : list content) (entry : entry) (w w1 w' : world)
      (tr : list call) (o : outcome unit) :
  sentTo recipient sid rid groupName entry ->
  results w1 = results w ++ [entry] ->
  tick w1 = S (S (tick w)) ->
  sendsOutcome E client recipient sid rid groupName plan w1 w' tr o ->
  sendsOutcome E client recipient sid rid groupName (c :: plan) w w'
               (SendMessage client rid c :: ResultsPush entry :: tr) o.
Proof.
  intros Hentry Hres1 Htick (b & Hres & Hb & Hsl & Hon & Ho).
  exists (entry :: b). rewrite Hres, Hres1, <- app_assoc.
  split; [done|]. split; [by constructor|]. split; [done|].
  split; [by repeat constructor|].
  destruct o as [[]|e].
  - destruct Ho as [Hlen Hs]. cbn. by rewrite Hlen, Hs.
  - destruct Ho as (tr0 & c0 & -> & Hc0 & Hs & Hrej).
    exists (SendMessage client rid c :: ResultsPush entry :: tr0), c0.
    cbn. rewrite Hs. repeat split; try done.
    rewrite Htick in Hrej. by replace (tick w + S (S (length tr0))) with (S (S (tick w)) + length tr0) by lia.
Qed.

(** The send of the first item is rejected. *)
Lemma sendsOutcome_rejected (client : handle) (recipient sid rid groupName : list N)
      (c : content) (plan : list content) (w w' : world) (e : error) :
  results w' = results w ->
  e_sendMessage E (tick w) client rid c = Rejected e ->
  sendsOutcome E client recipient sid rid groupName (c :: plan) w w'
               [SendMessage client rid c] (Rejected e).
Proof.
  intros Hres Hrej. exists []. rewrite app_nil_r.
  split; [done|]. split; [constructor|]. split; [done|]. split; [by repeat constructor|].
  exists [], c. cbn. rewrite Nat.add_0_r. done.
Qed.

(** Two loops, one after the other. *)
Lemma sendsOutcome_app (client : handle) (recipient sid rid groupName : list N)
      (plan1 plan2 : list content) (w w1 w2 : world) (tr1 tr2 : list call) (o : outcome unit) :
  tick w1 = tick w + length tr1 ->
  sendsOutcome E client recipient sid rid groupName plan1 w w1 tr1 (Fulfilled tt) ->
  sendsOutcome E client recipient sid rid groupName plan2 w1 w2 tr2 o ->
  sendsOutcome E client recipient sid rid groupName (plan1 ++ plan2) w w2 (tr1 ++ tr2) o.
Proof.
  intros Htick (b1 & Hres1 & Hb1 & Hsl1 & Hon1 & Hlen1 & Hs1)
         (b2 & Hres2 & Hb2 & Hsl2 & Hon2 & Ho).
  exists (b1 ++ b2). rewrite Hres2, Hres1, app_assoc.
  split; [done|]. split; [by apply Forall_app|].
  split; [by rewrite sleeps_app, Hsl1, Hsl2|]. split; [by apply Forall_app|].
  destruct o as [[]|e].
  - destruct Ho as [Hlen2 Hs2].
    by rewrite !length_app, Hlen1, Hlen2, sends_app, Hs1, Hs2, map_app.
  - destruct Ho as (tr0 & c & -> & Hc & Hs2 & Hrej).
    exists (tr1 ++ tr0), c. rewrite app_assoc. split; [done|].
    rewrite !length_app, Hlen1. split; [|split].
    + by rewrite lookup_app_r, Nat.add_comm, Nat.add_sub by lia.
    + rewrite sends_app, Hs1, Hs2, take_app_add, map_app. done.
    + rewrite Htick in Hrej. by rewrite Nat.add_assoc.
Qed.

Lemma sendLocal_run (client : handle) (sid rid recipient groupName : list N)
      (text : option (list N)) (items : list media) (i : nat) (w : world) :
  exists w' tr o,
    run E (sendLocal client sid rid recipient groupName text i items) w = (w', tr, o)
    /\ sendsOutcome E client recipient sid rid groupName (localContents text i items) w w' tr o.
Proof.
  revert i w. induction items as [|m items IH]; intros i w; cbn [sendLocal localContents].
  - exists w, [], (Fulfilled tt). split; [done | apply sendsOutcome_nil].
  - rewrite run_bind. cbn.
    destruct (e_sendMessage E (tick w) client rid
                (Media m (captionFor (bool_decide (i = 0)) text))) as [msg|e] eqn:Hsend; cbn.
    + match goal with
      | |- context [run E (sendLocal _ _ _ _ _ _ _ _) ?wx] =>
          destruct (IH (S i) wx) as (w' & tr & o & Hrun & Hout)
      end.
      rewrite Hrun. eexists _, _, _. split; [reflexivity|].
      eapply sendsOutcome_cons; [| | |exact Hout]; done.
    + eexists _, _, _. split; [reflexivity|]. by apply sendsOutcome_rejected.
Qed.

Lemma sendRemote_run (client : handle) (sid rid recipient groupName : list N)
      (text : option (list N)) (noLocal : bool) (items : list media) (i : nat) (w : world) :
  exists w' tr o,
    run E (sendRemote client sid rid recipient groupName text noLocal i items) w = (w', tr, o)
    /\ sendsOutcome E client recipient sid rid groupName
                    (remoteContents text noLocal i items) w w' tr o.
Proof.
  revert i w. induction items as [|m items IH]; intros i w; cbn [sendRemote remoteContents].
  - exists w, [], (Fulfilled tt). split; [done | apply sendsOutcome_nil].
  - rewrite run_bind. cbn.
    destruct (e_sendMessage E (tick w) client rid
                (Media m (captionFor (noLocal && bool_decide (i = 0)) text)))
      as [msg|e] eqn:Hsend; cbn.
    + match goal with
      | |- context [run E (sendRemote _ _ _ _ _ _ _ _ _) ?wx] =>
          destruct (IH (S i) wx) as (w' & tr & o & Hrun & Hout)
      end.
      rewrite Hrun. eexists _, _, _. split; [reflexivity|].
      eapply sendsOutcome_cons; [| | |exact Hout]; done.
    + eexists _, _, _. split; [reflexivity|]. by apply sendsOutcome_rejected.
Qed.

Lemma sendText_run (client : handle) (sid rid recipient groupName : list N)
      (text : option (list N)) (w : world) :
  exists w' tr o,
    run E
      match text with
      | Some text =>
          if hasText (Some text) then
            await (SendMessage client rid (Text text))
            ≫= fun msg =>
                 sync (ResultsPush (SentEntry sid rid recipient groupName (js "text") None msg))
          else Ret tt
      | None => Ret tt
      end w = (w', tr, o)
    /\ sendsOutcome E client recipient sid rid groupName (plannedContents text [] []) w w' tr o.
Proof.
  unfold plannedContents.
  destruct text as [text|]; [destruct (hasText (Some text)) eqn:Htext|].
  - rewrite run_bind. cbn.
    destruct (e_sendMessage E (tick w) client rid (Text text)) as [msg|e] eqn:Hsend; cbn.
    + eexists _, _, _. split; [reflexivity|].
      eapply sendsOutcome_cons; [| | |apply sendsOutcome_nil]; done.
    + eexists _, _, _. split; [reflexivity|]. by apply sendsOutcome_rejected.
  - eexists _, _, _. split; [reflexivity | apply sendsOutcome_nil].
  - eexists _, _, _. split; [reflexivity | apply sendsOutcome_nil].
Qed.

Lemma sendMedia_run (client : handle) (sid rid recipient groupName : list N)
      (text : option (list N)) (localMediaData remoteMediaList : list media) (w : world) :
  bool_decide (localMediaData = []) && bool_decide (remoteMediaList = []) = false ->
  exists w' tr o,
    run E
      (sendLocal client sid rid recipient groupName text 0 localMediaData;;
       sendRemote client sid rid recipient groupName text
                  (bool_decide (localMediaData = [])) 0 remoteMediaList) w = (w', tr, o)
    /\ sendsOutcome E client recipient sid rid groupName
                    (plannedContents text localMediaData remoteMediaList) w w' tr o.
Proof.
  intros Hmedia. rewrite <- (plannedContents_media text) by done.
  rewrite run_bind.
  pose proof (run_tick E (sendLocal client sid rid recipient groupName text 0 localMediaData) w)
    as Htick.
  destruct (sendLocal_run client sid rid recipient groupName text localMediaData 0 w)
    as (w1 & tr1 & o1 & Hrun1 & Hout1).
  rewrite Hrun1 in *. cbn [fst snd] in Htick. destruct o1 as [[]|e].
  - destruct (sendRemote_run client sid rid recipient groupName text
                (bool_decide (localMediaData = [])) remoteMediaList 0 w1)
      as (w2 & tr2 & o2 & Hrun2 & Hout2).
    rewrite Hrun2. eexists _, _, _. split; [reflexivity|].
    by eapply sendsOutcome_app.
  - eexists _, _, _. split; [reflexivity|].
    destruct Hout1 as (b & Hres & Hb & Hsl & Hon & tr0 & c & -> & Hc & Hs & Hrej).
    exists b. repeat split; try done.
    exists tr0, c. repeat split; try done.
    + apply lookup_app_l_Some. exact Hc.
    + rewrite Hs. f_equal. apply lookup_lt_Some in Hc. by rewrite take_app_le by lia.
Qed.

Lemma delay_run (min max : value) (w : world) :
  run E (randomDelay min max ≫= fun wait => delay wait) w
  = (next (next w),
     [MathRandom; SetTimeout (millis (asNumber (scale (e_random E (tick w)) min max)))],
     Fulfilled tt).
Proof. rewrite run_bind. reflexivity. Qed.

Lemma processPair_run (clientMap : gmap (list N) handle) (req : batchRequest)
      (localMediaData remoteMediaList : list media)
      (recipient sid : list N) (client : handle) (w : world) :
  clientMap !! sid = Some client ->
  exists w' tr b,
    run E (processPair toLowerCase clientMap req localMediaData remoteMediaList recipient sid) w
    = (w', tr, Fulfilled tt)
    /\ results w' = results w ++ b
    /\ pairOutcome toLowerCase E req
                   (plannedContents (b_text req) localMediaData remoteMediaList)
                   client recipient sid (tick w) b tr
    /\ Forall (onClient client) tr.
Proof.
  intros Hcm. unfold processPair. rewrite Hcm.
  rewrite run_tryCatch, run_bind, run_awaitFn.
  destruct (resolveRecipient_settles client recipient w)
    as (w1 & tr1 & res & Hrun1 & Hat & Hres1 & Htick1 & Hsl1 & Hs1 & Hon1).
  rewrite Hrun1.
  destruct (r_id res) as [[|c rid]|] eqn:Hid.
  - cbn. eexists _, _, _. split; [reflexivity|]. cbn. rewrite Hres1.
    split; [reflexivity|]. split.
    + eapply pair_unresolved; [exact Hat | by rewrite Hid | |].
      * by rewrite sends_app, Hs1.
      * by rewrite sleeps_app, Hsl1.
    + apply Forall_app. split; [exact Hon1 | by constructor].
  - cbv zeta. rewrite run_bind.
    match goal with
    | |- context [run E ?p w1] =>
        assert (Hcontent : exists w2 tr2 o2,
                   run E p w1 = (w2, tr2, o2)
                   /\ tick w2 = tick w1 + length tr2
                   /\ sendsOutcome E client recipient sid (c :: rid)
                        (orElse (r_name res) recipient)
                        (plannedContents (b_text req) localMediaData remoteMediaList)
                        w1 w2 tr2 o2)
    end.
    { match goal with
      | |- context [run E ?p w1] => pose proof (run_tick E p w1) as Ht
      end.
      destruct (bool_decide (localMediaData = []) && bool_decide (remoteMediaList = []))
        eqn:Hmedia.
      - apply andb_true_iff in Hmedia as [->%bool_decide_eq_true ->%bool_decide_eq_true].
        destruct (sendText_run client sid (c :: rid) recipient (orElse (r_name res) recipient)
                    (b_text req) w1) as (w2 & tr2 & o2 & Hrun2 & Hout2).
        rewrite Hrun2 in *. by eexists _, _, _.
      - destruct (sendMedia_run client sid (c :: rid) recipient (orElse (r_name res) recipient)
                    (b_text req) localMediaData remoteMediaList w1 Hmedia)
          as (w2 & tr2 & o2 & Hrun2 & Hout2).
        rewrite Hrun2 in *. by eexists _, _, _. }
    destruct Hcontent as (w2 & tr2 & o2 & Hrun2 & Htick2 & b & Hres2 & Hb & Hsl2 & Hon2 & Ho).
    rewrite Hrun2. destruct o2 as [[]|e].
    + destruct Ho as [Hlen Hs2]. rewrite delay_run.
      eexists _, _, b. split; [reflexivity|]. cbn. rewrite Hres2, Hres1.
      split; [reflexivity|]. split.
      * rewrite app_assoc.
        replace (tick w2) with (tick w + length (tr1 ++ tr2))
          by (rewrite length_app; lia).
        eapply pair_sent; [exact Hat | exact Hid | done | exact Hb | exact Hlen | |].
        -- by rewrite sends_app, Hs1, Hs2.
        -- by rewrite sleeps_app, Hsl1, Hsl2.
      * apply Forall_app. split; [done|]. apply Forall_app. split; [done|].
        by repeat constructor.
    + cbn. destruct Ho as (tr0 & ct & -> & Hct & Hs2 & Hrej).
      eexists _, _, (b ++ [FailedEntry sid recipient (message e)]).
      split; [reflexivity|]. cbn. rewrite Hres2, Hres1, app_assoc.
      split; [reflexivity|]. split.
      * replace ((tr1 ++ tr0 ++ [SendMessage client (c :: rid) ct])
                 ++ [ResultsPush (FailedEntry sid recipient (message e))])
          with ((tr1 ++ tr0)
                ++ [SendMessage client (c :: rid) ct;
                    ResultsPush (FailedEntry sid recipient (message e))])
          by (by rewrite <- !app_assoc).
        eapply pair_send_failed; [exact Hat | exact Hid | done | exact Hb | exact Hct | | |].
        -- by rewrite sends_app, Hs1, Hs2.
        -- rewrite !sleeps_app in *. rewrite Hsl1. cbn.
           by destruct (sleeps tr0).
        -- rewrite length_app, Nat.add_assoc, <- Htick1. exact Hrej.
      * apply Forall_app. split; [|by repeat constructor].
        apply Forall_app. by split.
  - cbn. eexists _, _, _. split; [reflexivity|]. cbn. rewrite Hres1.
    split; [reflexivity|]. split.
    + eapply pair_unresolved; [exact Hat | by rewrite Hid | |].
      * by rewrite sends_app, Hs1.
      * by rewrite sleeps_app, Hsl1.
    + apply Forall_app. split; [exact Hon1 | by constructor].
Qed.

Lemma ledgerOf_app (s1 s2 : list (list entry * list call)) :
  ledgerOf (s1 ++ s2) = ledgerOf s1 ++ ledgerOf s2.
Proof. unfold ledgerOf. by rewrite map_app, concat_app. Qed.

Lemma traceOf_app (s1 s2 : list (list entry * list call)) :
  traceOf (s1 ++ s2) = traceOf s1 ++ traceOf s2.
Proof. unfold traceOf. by rewrite map_app, concat_app. Qed.

Lemma stepsFrom_app (req : batchRequest) (plan : list content)
      (clientMap : gmap (list N) handle) (t : nat)
      (pairs1 pairs2 : list (list N * list N)) (steps1 steps2 : list (list entry * list call)) :
  stepsFrom toLowerCase E req plan clientMap t pairs1 steps1 ->
  stepsFrom toLowerCase E req plan clientMap (t + length (traceOf steps1)) pairs2 steps2 ->
  stepsFrom toLowerCase E req plan clientMap t (pairs1 ++ pairs2) (steps1 ++ steps2).
Proof.
  intros H1. induction H1 as [t|t pair step pairs steps Hstep _ IH]; intros H2.
  - cbn in H2. by rewrite Nat.add_0_r in H2.
  - cbn [app]. constructor; [done|]. apply IH.
    unfold traceOf in *. cbn in H2. by rewrite length_app, Nat.add_assoc in H2.
Qed.

Lemma sessions_run (clientMap : gmap (list N) handle) (req : batchRequest)
      (localMediaData remoteMediaList : list media)
      (recipient : list N) (sids : list (list N)) (w : world) :
  exists w' steps,
    run E (forOf sids (fun sid =>
             processPair toLowerCase clientMap req localMediaData remoteMediaList
                         recipient sid)) w
    = (w', traceOf steps, Fulfilled tt)
    /\ results w' = results w ++ ledgerOf steps
    /\ stepsFrom toLowerCase E req
                 (plannedContents (b_text req) localMediaData remoteMediaList) clientMap
                 (tick w) (map (pair recipient) sids) steps.
Proof.
  revert w. induction sids as [|sid sids IH]; intros w.
  - exists w, []. cbn. rewrite app_nil_r. repeat split. constructor.
  - cbn [forOf]. rewrite run_bind.
    destruct (clientMap !! sid) as [client|] eqn:Hcm.
    + pose proof (run_tick E (processPair toLowerCase clientMap req localMediaData
                                          remoteMediaList recipient sid) w) as Htick.
      destruct (processPair_run clientMap req localMediaData remoteMediaList
                  recipient sid client w Hcm) as (w1 & tr1 & b1 & Hrun1 & Hres1 & Hout & Hon).
      rewrite Hrun1 in *. cbn [fst snd] in Htick.
      destruct (IH w1) as (w2 & steps & Hrun2 & Hres2 & Hsteps).
      rewrite Hrun2.
      exists w2, ((b1, tr1) :: steps). repeat split.
      * rewrite Hres2, Hres1, <- app_assoc. done.
      * cbn. constructor.
        -- unfold pairStep. cbn. rewrite Hcm. done.
        -- cbn. by rewrite <- Htick.
    + unfold processPair at 1. rewrite Hcm. cbn.
      destruct (IH w) as (w2 & steps & Hrun2 & Hres2 & Hsteps).
      rewrite Hrun2.
      exists w2, (([], []) :: steps). repeat split.
      * done.
      * cbn. constructor.
        -- unfold pairStep. cbn. rewrite Hcm. done.
        -- cbn. by rewrite Nat.add_0_r.
Qed.

Lemma roundRobin_run (clientMap : gmap (list N) handle) (req : batchRequest)
      (localMediaData remoteMediaList : list media) (w : world) :
  exists w' steps,
    run E (roundRobin toLowerCase clientMap req localMediaData remoteMediaList) w
    = (w', traceOf steps, Fulfilled tt)
    /\ results w' = results w ++ ledgerOf steps
    /\ stepsFrom toLowerCase E req
                 (plannedContents (b_text req) localMediaData remoteMediaList) clientMap
                 (tick w) (list_prod (b_to req) (b_sessionIds req)) steps.
Proof.
  unfold roundRobin. generalize (b_to req) as to.
  intros to. revert w. induction to as [|recipient to IH]; intros w.
  - exists w, []. cbn. rewrite app_nil_r. repeat split. constructor.
  - cbn [forOf list_prod]. rewrite run_bind.
    match goal with
    | |- context [run E ?p w] => pose proof (run_tick E p w) as Htick
    end.
    destruct (sessions_run clientMap req localMediaData remoteMediaList recipient
                (b_sessionIds req) w) as (w1 & steps1 & Hrun1 & Hres1 & Hsteps1).
    rewrite Hrun1 in *. cbn [fst snd] in Htick.
    destruct (IH w1) as (w2 & steps2 & Hrun2 & Hres2 & Hsteps2).
    rewrite Hrun2.
    exists w2, (steps1 ++ steps2). repeat split.
    + by rewrite traceOf_app.
    + by rewrite Hres2, Hres1, ledgerOf_app, app_assoc.
    + apply stepsFrom_app; [done|]. by rewrite <- Htick.
Qed.

Lemma plannedContents_length (req : batchRequest) (localMediaData remoteMediaList : list media) :
  length (plannedContents (b_text req) localMediaData remoteMediaList)
  = contentItems req localMediaData remoteMediaList.
Proof.
  unfold plannedContents, contentItems.
  destruct localMediaData as [|m ms].
  - destruct remoteMediaList as [|m' ms'].
    + destruct (b_text req) as [t|]; [|done]. by destruct (hasText (Some t)).
    + cbn. by rewrite length_map.
  - cbn. by rewrite length_map, length_app.
Qed.

Lemma sentTo_sentFor (recipient sid rid groupName : list N) (e : entry) :
  sentTo recipient sid rid groupName e -> sentFor recipient sid e.
Proof. destruct e; cbn; try done. by intros (-> & _ & -> & _). Qed.

Lemma pairOutcome_block (req : batchRequest) (plan : list content) (client : handle)
      (recipient sid : list N) (t : nat) (b : list entry) (tr : list call) :
  pairOutcome toLowerCase E req plan client recipient sid t b tr ->
  0 < length plan ->
  block recipient sid b.
Proof.
  intros Hout Hitems.
  destruct Hout as [res rid b tr0 _ _ _ Hb Hlen _ _|res tr _ _ _ _
                   |res rid b tr0 c e _ _ _ Hb _ _ _ _].
  - split.
    + intros ->. cbn in Hlen. lia.
    + eapply Forall_impl; [exact Hb|]. intros e He. by apply sentTo_sentFor in He as [_ He].
  - split; [done|]. by repeat constructor.
  - split.
    + by destruct b.
    + apply Forall_app. split; [|by repeat constructor].
      eapply Forall_impl; [exact Hb|]. intros e' He. by apply sentTo_sentFor in He as [_ He].
Qed.

(** C5. For every batch with recipients [A; B] and sessions [S1; S2], both
    with a prepared Client, and with something to send: the loop
    completes, and what it appends to the ledger is the entries of the
    pair (A, S1), then those of (A, S2), then those of (B, S1), then those
    of (B, S2) - recipients in the outer loop, sessions in the inner loop.
    Each pair has at least one entry.  The calls are made one pair after
    the other, in the same order: the trace is the calls of the first pair
    (whose Client calls are all on the Client of S1), followed by those of
    the second (on the Client of S2), the third (S1) and the fourth
    (S2). *)
Theorem roundRobin_order (clientMap : gmap (list N) handle) (req : batchRequest)
        (localMediaData remoteMediaList : list media) (w : world)
        (A B S1 S2 : list N) (client1 client2 : handle) :
  b_to req = [A; B] ->
  b_sessionIds req = [S1; S2] ->
  clientMap !! S1 = Some client1 ->
  clientMap !! S2 = Some client2 ->
  0 < contentItems req localMediaData remoteMediaList ->
  exists w' b1 b2 b3 b4 tr1 tr2 tr3 tr4,
    run E (roundRobin toLowerCase clientMap req localMediaData remoteMediaList) w
    = (w', tr1 ++ tr2 ++ tr3 ++ tr4, Fulfilled tt)
    /\ results w' = results w ++ b1 ++ b2 ++ b3 ++ b4
    /\ block A S1 b1 /\ block A S2 b2 /\ block B S1 b3 /\ block B S2 b4
    /\ Forall (onClient client1) tr1 /\ Forall (onClient client2) tr2
    /\ Forall (onClient client1) tr3 /\ Forall (onClient client2) tr4.
Proof.
  intros Hto Hsids H1 H2 Hitems.
  rewrite <- plannedContents_length in Hitems.
  destruct (roundRobin_run clientMap req localMediaData remoteMediaList w)
    as (w' & steps & Hrun & Hres & Hsteps).
  rewrite Hto, Hsids in Hsteps. cbn in Hsteps.
  inversion Hsteps as [|t1 p1 [b1 tr1] ps1 steps1 Hp1 Hsteps1]; subst.
  inversion Hsteps1 as [|t2 p2 [b2 tr2] ps2 steps2 Hp2 Hsteps2]; subst.
  inversion Hsteps2 as [|t3 p3 [b3 tr3] ps3 steps3 Hp3 Hsteps3]; subst.
  inversion Hsteps3 as [|t4 p4 [b4 tr4] ps4 steps4 Hp4 Hsteps4]; subst.
  inversion Hsteps4; subst.
  unfold pairStep in Hp1, Hp2, Hp3, Hp4. cbn in Hp1, Hp2, Hp3, Hp4.
  rewrite H1 in Hp1, Hp3. rewrite H2 in Hp2, Hp4.
  destruct Hp1 as [Ho1 Hc1], Hp2 as [Ho2 Hc2], Hp3 as [Ho3 Hc3], Hp4 as [Ho4 Hc4].
  exists w', b1, b2, b3, b4, tr1, tr2, tr3, tr4.
  unfold traceOf, ledgerOf in *. cbn in Hrun, Hres. rewrite !app_nil_r in *.
  repeat split; try done; eapply pairOutcome_block; eauto.
Qed.



End Batch.

Lemma roundRobin_order_two_by_two :
  exists w' b1 b2 b3 b4 tr1 tr2 tr3 tr4,
    run ready (roundRobin asciiLower twoClients twoByTwo [] []) emptyWorld
    = (w', tr1 ++ tr2 ++ tr3 ++ tr4, Fulfilled tt)
    /\ results w' = results emptyWorld ++ b1 ++ b2 ++ b3 ++ b4
    /\ block (js "15550000001@c.us") (js "s1") b1
    /\ block (js "15550000001@c.us") (js "s2") b2
    /\ block (js "15550000002@c.us") (js "s1") b3
    /\ block (js "15550000002@c.us") (js "s2") b4
    /\ Forall (onClient 0) tr1 /\ Forall (onClient 1) tr2
    /\ Forall (onClient 0) tr3 /\ Forall (onClient 1) tr4.
Proof.
  apply (roundRobin_order asciiLower ready twoClients twoByTwo [] [] emptyWorld
           (js "15550000001@c.us") (js "15550000002@c.us") (js "s1") (js "s2") 0 1).
  - reflexivity.
  - reflexivity.
  - vm_compute. reflexivity.
  - vm_compute. reflexivity.
  - vm_compute. lia.
Defined.

(** The same batch, evaluated: four sends, in the order (A, S1), (A, S2),
    (B, S1), (B, S2). *)
Example roundRobin_two_by_two_sends :
  let '(w', tr, o) := run ready (roundRobin asciiLower twoClients twoByTwo [] []) emptyWorld in
  sends tr
  = [(0, js "15550000001@c.us", Text (js "hello"));
     (1, js "15550000001@c.us", Text (js "hello"));
     (0, js "15550000002@c.us", Text (js "hello"));
     (1, js "15550000002@c.us", Text (js "hello"))]
  /\ map pairOf (results w')
     = [Some (js "15550000001@c.us", js "s1"); Some (js "15550000001@c.us", js "s2");
        Some (js "15550000002@c.us", js "s1"); Some (js "15550000002@c.us", js "s2")].
Proof. vm_compute. done. Qed.



(** The window of one to two seconds and the random number one half: the
    four pairs of the batch sleep a second and a half each. *)
Example window_of_numbers :
  sleeps (run halves (roundRobin asciiLower twoClients twoByTwo [] []) emptyWorld).1.2
  = [1500; 1500; 1500; 1500]%Z.
Proof. vm_compute. reflexivity. Qed.

(** The same window as a multipart body holds it, the strings "1000" and
    "2000": the difference is a number, the sum with the string "1000" is
    the string "5001000", and each pair sleeps an hour and twenty-three
    minutes. *)
Example window_of_strings :
  sleeps (run halves (roundRobin asciiLower twoClients twoByTwoForm [] []) emptyWorld).1.2
  = [5001000; 5001000; 5001000; 5001000]%Z.
Proof. vm_compute. reflexivity. Qed.


(** ** What a run preserves *)

Section Frame.

Variable E : env.

Lemma callsAll_preserves {A} (P : call -> Prop) (R : world -> world -> Prop) (p : async A) :
  (forall w, R w w) ->
  (forall w1 w2 w3, R w1 w2 -> R w2 w3 -> R w1 w3) ->
  (forall w c, P c -> R w (perform E w c).1) ->
  callsAll P p -> forall w, R w (run E p w).1.1.
Proof.
  intros Hrefl Htrans Hstep Hp.
  induction Hp as [a|e|c k Hc Hk IH|k Hk IH]; intros w; cbn.
  - apply Hrefl.
  - apply Hrefl.
  - specialize (Hstep w c Hc).
    destruct (perform E w c) as [w1 r]. specialize (IH r w1).
    destruct (run E (k r) w1) as [[w2 tr] o]. cbn in *. eauto.
  - apply IH.
Qed.

Lemma perform_untouched (sid other : list N) (w : world) (c : call) :
  other <> sid -> confinedTo sid c -> untouched other w (perform E w c).1.
Proof.
  intros Hne. unfold perform, untouched.
  destruct c; cbn; try done.
  - intros ->. by rewrite lookup_insert_ne.
  - intros ->. by rewrite lookup_delete_ne.
  - intros Hs. destruct (sessions w !! sessionId s); cbn; [done|].
    by rewrite lookup_insert_ne by congruence.
  - intros ->. by rewrite lookup_alter_ne.
  - intros ->. by rewrite lookup_delete_ne.
  - intros _. by destruct (e_rmSync E (tick w) path).
  - intros _. by case_bool_decide.
Qed.

Lemma callsAll_untouched {A} (sid other : list N) (p : async A) (w : world) :
  other <> sid -> callsAll (confinedTo sid) p -> untouched other w (run E p w).1.1.
Proof.
  intros Hne Hp.
  apply (callsAll_preserves (confinedTo sid) (untouched other) p); [done| | |done].
  - intros w1 w2 w3 [H1 H2] [H3 H4]. split; congruence.
  - intros w0 c Hc. by apply perform_untouched with sid.
Qed.

Lemma sessionCall_confined (sid : list N) (c : call) : sessionCall sid c -> confinedTo sid c.
Proof. by destruct c. Qed.

Lemma hasInfo_session (sid : list N) (c : handle) :
  callsAll (fun c => sessionCall sid c /\ noSleep c) (Manager.hasInfo c).
Proof. unfold Manager.hasInfo. calls. Qed.

Lemma infoOf_session (sid : list N) (c : option handle) :
  callsAll (fun c => sessionCall sid c /\ noSleep c) (Manager.infoOf c).
Proof. destruct c; [apply hasInfo_session | constructor]. Qed.

Lemma createClient_session (uid sid name : list N) :
  callsAll (fun c => sessionCall sid c /\ noSleep c) (Manager.createClient uid sid name).
Proof.
  unfold Manager.createClient.
  apply callsAll_tryCatch; [|intros ?; calls].
  apply callsAll_bind; [calls|]. intros has.
  apply callsAll_bind.
  { destruct has; [|constructor].
    apply callsAll_bind; [calls|]. intros existing.
    apply callsAll_tryCatch; [|intros ?; calls].
    apply callsAll_bind; [apply infoOf_session|]. intros ?. constructor. }
  intros [existing|]; [constructor|].
  calls.
Qed.

Lemma poll_session (n : nat) (sid : list N) :
  callsAll (fun c => sessionCall sid c /\ constructsNothing c) (Manager.poll n sid).
Proof.
  induction n as [|n IH]; cbn [Manager.poll]; [constructor|].
  apply callsAll_bind; [calls|]. intros _.
  apply callsAll_bind; [calls|]. intros client.
  apply callsAll_bind.
  { destruct client; [|constructor].
    apply callsAll_tryCatch; [unfold Manager.hasInfo; calls | intros ?; constructor]. }
  intros [|]; [constructor | apply IH].
Qed.

Lemma restoreSession_session (s : list N) :
  callsAll (sessionCall (trim s)) (Manager.restoreSession s).
Proof.
  unfold Manager.restoreSession. cbv zeta.
  apply callsAll_tryCatch; [|intros ?; constructor].
  apply callsAll_bind; [calls|]. intros has.
  apply callsAll_bind.
  { destruct has; [|constructor].
    apply callsAll_bind; [calls|]. intros client.
    apply callsAll_tryCatch; [|intros ?; calls].
    apply callsAll_bind; [|intros ?; constructor].
    eapply callsAll_impl, infoOf_session. by intros c [Hc _]. }
  intros [client|]; [constructor|].
  apply callsAll_bind; [calls|]. intros [session|]; [|constructor].
  apply callsAll_bind.
  { apply callsAll_awaitFn. eapply callsAll_impl, createClient_session. by intros c [Hc _]. }
  intros _.
  apply callsAll_bind.
  { eapply callsAll_impl, poll_session. by intros c [Hc _]. }
  intros [client|]; [constructor|].
  calls.
Qed.

Lemma getOrRestoreClient_session (s : list N) :
  callsAll (sessionCall (trim s)) (Manager.getOrRestoreClient s).
Proof.
  unfold Manager.getOrRestoreClient. cbv zeta.
  apply callsAll_tryCatch; [|intros ?; constructor].
  apply callsAll_bind; [calls|]. intros client.
  apply callsAll_bind.
  { destruct client as [c|]; [|constructor].
    apply callsAll_tryCatch; [|intros ?; constructor].
    unfold Manager.hasInfo. calls. }
  intros [c|]; [constructor|].
  apply callsAll_bind.
  { apply callsAll_awaitFn.
    pose proof (restoreSession_session (trim s)) as H. by rewrite trim_idem in H. }
  intros restored. unfold Manager.hasInfo. calls.
Qed.

Lemma disconnectSession_session (sid : list N) :
  callsAll (fun c => sessionCall sid c /\ constructsNothing c) (Manager.disconnectSession sid).
Proof. unfold Manager.disconnectSession. calls. Qed.

Lemma deleteSession_confined (sid : list N) :
  callsAll (confinedTo sid) (Manager.deleteSession sid).
Proof. unfold Manager.deleteSession. calls. Qed.

Lemma sessionCall_keepsFiles (sid : list N) (c : call) : sessionCall sid c -> keepsFiles c.
Proof. by destruct c. Qed.

Lemma restoreOne_session (s : session) (index : nat) :
  callsAll (sessionCall (sessionId s)) (Lifecycle.restoreOne s index).
Proof.
  unfold Lifecycle.restoreOne.
  apply callsAll_tryCatch; [|intros ?; calls].
  apply callsAll_bind; [calls|]. intros [|]; [constructor|].
  apply callsAll_bind; [calls|]. intros _.
  apply callsAll_bind; [|intros ?; constructor].
  apply callsAll_awaitFn. eapply callsAll_impl, createClient_session. by intros c [Hc _].
Qed.

End Frame.

Lemma sends_session (sid : list N) (tr : list call) :
  Forall (sessionCall sid) tr -> sends tr = [].
Proof.
  induction 1 as [|c tr Hc _ IH]; [done|].
  destruct c; cbn; done.
Qed.

(** ** The batch controller *)

Section BatchController.

Context `{JS : arithmetic}.
Variable toLowerCase : list N -> list N.
Variable E : env.

Lemma readUploads_media (fs : list upload) : callsAll mediaCall (readUploads fs).
Proof.
  induction fs as [|f fs IH]; cbn [readUploads]; [constructor|].
  apply callsAll_bind; [calls|]. intros mime.
  apply callsAll_bind; [calls|]. intros base64.
  apply callsAll_bind; [apply IH|]. intros rest. constructor.
Qed.

Lemma fetchRemote_media (urls : list (list N)) : callsAll mediaCall (fetchRemote urls).
Proof.
  induction urls as [|u urls IH]; cbn [fetchRemote]; [constructor|].
  apply callsAll_bind; [calls|]. intros m.
  apply callsAll_bind; [apply IH|]. intros rest. constructor.
Qed.

Lemma media_frame {A} (p : async A) (w : world) :
  callsAll mediaCall p ->
  sameState w (run E p w).1.1 /\ sends (run E p w).1.2 = [].
Proof.
  intros Hp. split.
  - apply (callsAll_preserves E mediaCall sameState p); [done| | |done].
    + intros w1 w2 w3 (?&?&?&?) (?&?&?&?). repeat split; congruence.
    + intros w0 c Hc. by destruct c.
  - pose proof (callsAll_run mediaCall E p w Hp) as Hall.
    induction Hall as [|c tr Hc _ IH]; [done|]. by destruct c.
Qed.

Lemma readUploads_run (fs : list upload) (w : world) :
  (forall t path, exists data, e_readFile E t path = Fulfilled data) ->
  exists w' tr ms,
    run E (readUploads fs) w = (w', tr, Fulfilled ms)
    /\ results w' = results w
    /\ length ms = length fs.
Proof.
  intros Hread. revert w. induction fs as [|file fs IH]; intros w; cbn [readUploads].
  - by exists w, [], [].
  - rewrite run_bind. cbn.
    destruct (Hread (S (tick w)) (uploadPath file)) as [data Hdata]. rewrite Hdata. cbn.
    rewrite run_bind.
    match goal with
    | |- context [run E (readUploads fs) ?wx] =>
        destruct (IH wx) as (w' & tr & ms & Hrun & Hres & Hlen)
    end.
    rewrite Hrun. cbn. eexists _, _, _. split; [reflexivity|]. cbn. split; [done|].
    by rewrite Hlen.
Qed.

Lemma fetchRemote_run (urls : list (list N)) (w : world) :
  (forall t url, exists m, e_fromUrl E t url = Fulfilled m) ->
  exists w' tr ms,
    run E (fetchRemote urls) w = (w', tr, Fulfilled ms)
    /\ results w' = results w
    /\ length ms = length urls.
Proof.
  intros Hfetch. revert w. induction urls as [|url urls IH]; intros w; cbn [fetchRemote].
  - by exists w, [], [].
  - rewrite run_bind. cbn.
    destruct (Hfetch (tick w) url) as [m Hm]. rewrite Hm. cbn.
    rewrite run_bind.
    match goal with
    | |- context [run E (fetchRemote urls) ?wx] =>
        destruct (IH wx) as (w' & tr & ms & Hrun & Hres & Hlen)
    end.
    rewrite Hrun. cbn. eexists _, _, _. split; [reflexivity|]. cbn. split; [done|].
    by rewrite Hlen.
Qed.

Lemma getOrRestoreClient_results (sid : list N) (w : world) :
  results (run E (Manager.getOrRestoreClient sid) w).1.1 = results w.
Proof.
  apply callsAll_results. eapply callsAll_impl, getOrRestoreClient_keyed.
  by intros c [_ Hc].
Qed.

Lemma getOrRestoreClient_sends (s : list N) (w : world) :
  sends (run E (Manager.getOrRestoreClient s) w).1.2 = [].
Proof.
  apply (sends_session (trim s)), callsAll_run, getOrRestoreClient_session.
Qed.

(** A Client that is pooled and reports its [info] is returned as it is,
    and the pool is left alone. *)
Lemma getOrRestoreClient_pooled (s : list N) (client : handle) (w : world) :
  clients w !! trim s = Some client ->
  alwaysReady E client ->
  exists w',
    run E (Manager.getOrRestoreClient s) w
    = (w', [ClientsGet (trim s); ClientInfo client; FindOne (trim s); ClientInfo client],
       Fulfilled client)
    /\ clients w' = clients w.
Proof.
  intros Hpool Hready.
  destruct (Hready (S (tick w))) as [i1 H1].
  destruct (Hready (S (S (S (tick w))))) as [i2 H2].
  unfold Manager.getOrRestoreClient. cbv zeta.
  rewrite run_tryCatch, run_bind. cbn. rewrite Hpool. cbn. rewrite H1. cbn.
  rewrite H2. cbn. by eexists.
Qed.

Lemma getOrRestoreClient_other (s k : list N) (w : world) :
  k <> trim s ->
  clients (run E (Manager.getOrRestoreClient s) w).1.1 !! k = clients w !! k.
Proof.
  intros Hne.
  apply (callsAll_untouched E (trim s) k (Manager.getOrRestoreClient s) w Hne).
  eapply callsAll_impl, getOrRestoreClient_session. apply sessionCall_confined.
Qed.

Lemma prepareClients_run (sids : list (list N)) (clientMap : gmap (list N) handle) (w : world) :
  exists w' tr clientMap' unavailable,
    run E (prepareClients sids clientMap) w = (w', tr, Fulfilled clientMap')
    /\ results w' = results w ++ unavailable
    /\ Forall isUnavailable unavailable
    /\ sends tr = []
    /\ (forall sid, is_Some (clientMap !! sid) -> is_Some (clientMap' !! sid))
    /\ (forall sid client,
          clientMap' !! sid = Some client ->
          clientMap !! sid = Some client
          \/ (sid ∈ sids /\ exists t info, e_info E t client = Fulfilled (Some info)))
    /\ (forall sid, sid ∈ sids ->
          is_Some (clientMap' !! sid) \/ exists err, Unavailable sid err ∈ unavailable).
Proof.
  revert clientMap w. induction sids as [|sid sids IH]; intros clientMap w;
    cbn [prepareClients].
  - exists w, [], clientMap, []. rewrite app_nil_r.
    repeat split; [done | done | by left |]. by intros sid ?%elem_of_nil.
  - rewrite run_bind, run_tryCatch, run_bind, run_awaitFn.
    pose proof (getOrRestoreClient_results sid w) as Hres0.
    pose proof (getOrRestoreClient_sends sid w) as Hs0.
    destruct (run E (Manager.getOrRestoreClient sid) w) as [[w1 tr1] [client|e]];
      cbn in Hres0, Hs0;
      [rewrite run_bind; cbn;
       destruct (e_info E (tick w1) client) as [[info|]|e] eqn:Hinfo; cbn | cbn].
    all: match goal with
         | |- context [run _ (prepareClients _ ?cm) ?wx] =>
             destruct (IH cm wx)
               as (w' & tr & cm' & un & Hrun & Hres & Hun & Hs & Hmono & Hfrom & Hall)
         end.
    all: rewrite Hrun; cbn in Hres.
    + eexists _, _, _, un. split; [reflexivity|].
      rewrite Hres, Hres0. split; [done|]. split; [done|].
      split; [cbn; by rewrite !sends_app, Hs0, Hs|]. split; [|split].
      * intros s Hsome. apply Hmono. rewrite lookup_insert.
        case_decide; [done | exact Hsome].
      * intros s c Hc. destruct (Hfrom s c Hc) as [Hin|[Hin Hok]].
        -- destruct (decide (s = sid)) as [->|Hne].
           ++ rewrite lookup_insert_eq in Hin. injection Hin as <-.
              right. split; [by left | by eauto].
           ++ rewrite lookup_insert_ne in Hin by done. by left.
        -- right. split; [by right | done].
      * intros s [->|Hin]%elem_of_cons; [|by apply Hall].
        left. apply Hmono. by rewrite lookup_insert_eq.
    + eexists _, _, _, (Unavailable sid notReadyYet :: un). split; [reflexivity|].
      rewrite Hres, Hres0, <- app_assoc. split; [done|]. split; [by constructor|].
      split; [cbn; by rewrite !sends_app, Hs0, Hs|]. split; [done|]. split.
      * intros s c Hc. destruct (Hfrom s c Hc) as [Hin|[Hin Hok]]; [by left|].
        right. split; [by right | done].
      * intros s [->|Hin]%elem_of_cons.
        -- right. eexists. apply elem_of_cons. by left.
        -- destruct (Hall s Hin) as [?|[err Herr]]; [by left|].
           right. exists err. apply elem_of_cons. by right.
    + eexists _, _, _, (Unavailable sid (message e) :: un). split; [reflexivity|].
      rewrite Hres, Hres0, <- app_assoc. split; [done|]. split; [by constructor|].
      split; [cbn; by rewrite !sends_app, Hs0, Hs|]. split; [done|]. split.
      * intros s c Hc. destruct (Hfrom s c Hc) as [Hin|[Hin Hok]]; [by left|].
        right. split; [by right | done].
      * intros s [->|Hin]%elem_of_cons.
        -- right. eexists. apply elem_of_cons. by left.
        -- destruct (Hall s Hin) as [?|[err Herr]]; [by left|].
           right. exists err. apply elem_of_cons. by right.
    + eexists _, _, _, (Unavailable sid (message e) :: un). split; [reflexivity|].
      rewrite Hres, Hres0, <- app_assoc. split; [done|]. split; [by constructor|].
      split; [cbn; by rewrite !sends_app, Hs0, Hs|]. split; [done|]. split.
      * intros s c Hc. destruct (Hfrom s c Hc) as [Hin|[Hin Hok]]; [by left|].
        right. split; [by right | done].
      * intros s [->|Hin]%elem_of_cons.
        -- right. eexists. apply elem_of_cons. by left.
        -- destruct (Hall s Hin) as [?|[err Herr]]; [by left|].
           right. exists err. apply elem_of_cons. by right.
Qed.

(** A session whose Client is pooled and reports its [info] whenever it
    is asked has that Client prepared. *)
Lemma prepareClients_ready (sids : list (list N)) (clientMap : gmap (list N) handle)
      (k : list N) (client : handle) (w : world) :
  clients w !! k = Some client ->
  alwaysReady E client ->
  (forall sid, trim sid = k -> is_Some (clientMap !! sid) -> clientMap !! sid = Some client) ->
  forall w' tr clientMap',
    run E (prepareClients sids clientMap) w = (w', tr, Fulfilled clientMap') ->
    (forall sid, trim sid = k -> is_Some (clientMap' !! sid) -> clientMap' !! sid = Some client)
    /\ (forall sid, trim sid = k -> sid ∈ sids -> clientMap' !! sid = Some client).
Proof.
  intros Hpool Hready.
  revert clientMap w Hpool. induction sids as [|sid sids IH];
    intros clientMap w Hpool Hinv w' tr cm'; cbn [prepareClients].
  - intros [= <- <- <-]. split; [done|]. by intros sid _ ?%elem_of_nil.
  - rewrite run_bind, run_tryCatch, run_bind, run_awaitFn.
    destruct (decide (trim sid = k)) as [Hk|Hk].
    + rewrite <- Hk in Hpool.
      destruct (getOrRestoreClient_pooled sid client w Hpool Hready) as (w1 & Hrun1 & Hc1).
      rewrite Hrun1, run_bind. cbn.
      destruct (Hready (tick w1)) as [info Hinfo]. rewrite Hinfo. cbn.
      destruct (prepareClients_run sids (<[sid := client]> clientMap) (next w1))
        as (w2 & tr2 & cm2 & un & Hrun2 & _ & _ & _ & Hmono & _).
      rewrite Hrun2. cbn. intros [= <- <- <-].
      destruct (IH (<[sid := client]> clientMap) (next w1)) with (w' := w2) (tr := tr2)
                                                                 (clientMap' := cm2)
        as [Hinv2 Hall2].
      * cbn. by rewrite Hc1, Hk in *.
      * intros s Hs Hsome. destruct (decide (s = sid)) as [->|Hne].
        -- by rewrite lookup_insert_eq.
        -- rewrite lookup_insert_ne in * by done. by apply Hinv.
      * exact Hrun2.
      * split; [exact Hinv2|].
        intros s Hs [->|Hin]%elem_of_cons; [|by apply Hall2].
        apply Hinv2; [done|]. apply Hmono. by rewrite lookup_insert_eq.
    + pose proof (getOrRestoreClient_other sid k w) as Hother.
      destruct (run E (Manager.getOrRestoreClient sid) w) as [[w1 tr1] [c|e]];
        cbn [fst snd] in Hother;
        [rewrite run_bind; cbn;
         destruct (e_info E (tick w1) c) as [[info|]|e] eqn:Hinfo; cbn | cbn].
      all: match goal with
           | |- context [run _ (prepareClients _ ?cm) ?wx] =>
               destruct (prepareClients_run sids cm wx)
                 as (w2 & tr2 & cm2 & un & Hrun2 & _);
               specialize (IH cm wx)
           end.
      all: rewrite Hrun2; cbn; intros [= <- <- <-].
      all: destruct IH with (w' := w2) (tr := tr2) (clientMap' := cm2) as [Hinv2 Hall2];
        [cbn; rewrite Hother by congruence; exact Hpool
        | | exact Hrun2 | ].
      all: try (split; [exact Hinv2|];
                intros s Hs [->|Hin]%elem_of_cons; [done | by apply Hall2]).
      all: try exact Hinv.
      intros s Hs Hsome. rewrite lookup_insert_ne in * by congruence. by apply Hinv.
Qed.

Lemma unlink_run (paths : list (list N)) (w : world) :
  exists w' tr,
    run E (forOf paths safeUnlink) w = (w', tr, Fulfilled tt)
    /\ results w' = results w
    /\ sends tr = [].
Proof.
  revert w. induction paths as [|path paths IH]; intros w; cbn [forOf].
  - by exists w, [].
  - rewrite run_bind. unfold safeUnlink at 1. rewrite run_tryCatch. cbn.
    unfold perform. cbn. case_bool_decide; cbn.
    all: match goal with
         | |- context [run _ (forOf _ safeUnlink) ?wx] =>
             destruct (IH wx) as (w' & tr & Hrun & Hres & Hs)
         end.
    all: rewrite Hrun; eexists _, _; split; [reflexivity|]; done.
Qed.

(** C7. For every batch request that passes validation (sessions,
    recipients and a text or media given) and whose media can be read and
    fetched: the call answers 200 with [success: true] and the whole
    ledger, whatever fails later.  The ledger is the entries of the
    sessions that are not available, followed by the entries of every pair
    of a recipient and a session, in the order of the loop.
    - The sessions: a Client is prepared only for a requested session and
      only if it reported its [info]; every requested session has a
      prepared Client or an entry that says why not; a requested session
      whose Client is pooled and reports its [info] whenever it is asked
      has that Client prepared.
    - The pairs: nothing is sent before the loop or after it, and the
      calls of the loop are those of the pairs, one pair after the other.
      Every pair whose session has a prepared Client is attempted,
      whatever happened to the pairs before it.  If its recipient
      resolves, every content item is sent to the resolved chat through
      that Client, in order, each with its entry - unless a send is
      rejected: then the items before it are sent and have their entries,
      and one failed entry carries the message of the error.  If its
      recipient does not resolve, nothing is sent for the pair and one
      failed entry says "Recipient not found: ...". *)
Theorem sendBatchMessage_records_failures (req : batchRequest) (w : world) :
  b_sessionIds req <> [] ->
  b_to req <> [] ->
  hasText (b_text req) = true \/ b_files req <> [] \/ b_mediaUrls req <> [] ->
  (forall t path, exists data, e_readFile E t path = Fulfilled data) ->
  (forall t url, exists m, e_fromUrl E t url = Fulfilled m) ->
  exists w' before after clientMap localMediaData remoteMediaList unavailable steps,
    run E (sendBatchMessage toLowerCase req) w
    = (w', before ++ traceOf steps ++ after,
       Fulfilled (Respond 200 (BatchDone (length (unavailable ++ ledgerOf steps))
                                         (unavailable ++ ledgerOf steps))))
    /\ sends before = [] /\ sends after = []
    /\ length localMediaData = length (b_files req)
    /\ length remoteMediaList = length (b_mediaUrls req)
    /\ Forall isUnavailable unavailable
    /\ (forall sid client,
          clientMap !! sid = Some client ->
          sid ∈ b_sessionIds req
          /\ exists t info, e_info E t client = Fulfilled (Some info))
    /\ (forall sid, sid ∈ b_sessionIds req ->
          is_Some (clientMap !! sid) \/ exists err, Unavailable sid err ∈ unavailable)
    /\ (forall sid client,
          sid ∈ b_sessionIds req ->
          clients w !! trim sid = Some client ->
          alwaysReady E client ->
          clientMap !! sid = Some client)
    /\ stepsFrom toLowerCase E req
                 (plannedContents (b_text req) localMediaData remoteMediaList) clientMap
                 (tick w + length before)
                 (list_prod (b_to req) (b_sessionIds req)) steps.
Proof.
  intros Hsids Hto Hcontent Hread Hfetch.
  unfold sendBatchMessage. rewrite run_tryCatch.
  rewrite (bool_decide_eq_false_2 _ Hsids), (bool_decide_eq_false_2 _ Hto).
  assert (Hvalid : negb (hasText (b_text req))
                   && bool_decide (b_files req = []) && bool_decide (b_mediaUrls req = [])
                   = false).
  { destruct Hcontent as [->|[H|H]]; [done| |].
    - rewrite (bool_decide_eq_false_2 _ H). by rewrite andb_false_r.
    - rewrite (bool_decide_eq_false_2 _ H). by rewrite andb_false_r. }
  rewrite Hvalid.
  rewrite run_bind. cbn [run sync].
  change (perform E w ResultsNew) with (next (setResults (fun _ => []) w), Fulfilled tt).
  cbn [run settle]. rewrite run_bind.
  set (w0 := next (setResults (fun _ => []) w)).
  pose proof (run_tick E (readUploads (b_files req)) w0) as Ht1.
  destruct (media_frame (readUploads (b_files req)) w0 (readUploads_media _))
    as [(Hc1 & _) Hs1].
  destruct (readUploads_run (b_files req) w0 Hread)
    as (w1 & tr1 & localMediaData & Hrun1 & Hres1 & Hlen1).
  rewrite Hrun1 in *. cbn [fst snd] in Ht1, Hc1, Hs1. rewrite run_bind.
  pose proof (run_tick E (fetchRemote (b_mediaUrls req)) w1) as Ht2.
  destruct (media_frame (fetchRemote (b_mediaUrls req)) w1 (fetchRemote_media _))
    as [(Hc2 & _) Hs2].
  destruct (fetchRemote_run (b_mediaUrls req) w1 Hfetch)
    as (w2 & tr2 & remoteMediaList & Hrun2 & Hres2 & Hlen2).
  rewrite Hrun2 in *. cbn [fst snd] in Ht2, Hc2, Hs2. rewrite run_bind.
  pose proof (run_tick E (prepareClients (b_sessionIds req) ∅) w2) as Ht3.
  destruct (prepareClients_run (b_sessionIds req) ∅ w2)
    as (w3 & tr3 & clientMap & unavailable & Hrun3 & Hres3 & Hun & Hs3 & _ & Hfrom & Hall).
  pose proof (fun k client Hpool Hready =>
                prepareClients_ready (b_sessionIds req) ∅ k client w2 Hpool Hready
                  (fun sid _ Hsome => match is_Some_None Hsome with end)
                  w3 tr3 clientMap Hrun3) as Hprepared.
  rewrite Hrun3 in *. cbn [fst snd] in Ht3. rewrite run_bind.
  destruct (roundRobin_run toLowerCase E clientMap req localMediaData remoteMediaList w3)
    as (w4 & steps & Hrun4 & Hres4 & Hsteps).
  rewrite Hrun4, run_bind.
  destruct (unlink_run (map uploadPath (b_files req)) w4) as (w5 & tr5 & Hrun5 & Hres5 & Hs5).
  rewrite Hrun5. cbn.
  assert (Hledger : results w5 = unavailable ++ ledgerOf steps).
  { rewrite Hres5, Hres4, Hres3, Hres2, Hres1. done. }
  rewrite Hledger.
  exists (next w5), (ResultsNew :: tr1 ++ tr2 ++ tr3), (tr5 ++ [ResultsGet]),
         clientMap, localMediaData, remoteMediaList, unavailable, steps.
  split; [by rewrite <- app_comm_cons, <- !app_assoc|].
  split; [cbn; by rewrite !sends_app, Hs1, Hs2, Hs3|].
  split; [by rewrite sends_app, Hs5|].
  split; [done|]. split; [done|]. split; [done|]. split; [|split; [done|split]].
  - intros sid client Hc. by destruct (Hfrom sid client Hc) as [?|?].
  - intros sid client Hin Hpool Hready.
    destruct (Hprepared (trim sid) client) as [_ Hp]; [|done|by apply Hp].
    rewrite Hc2, Hc1. exact Hpool.
  - replace (tick w + length (ResultsNew :: tr1 ++ tr2 ++ tr3)) with (tick w3); [done|].
    cbn [length]. rewrite !length_app. subst w0. cbn in Ht1. lia.
Qed.

End BatchController.

Lemma sendBatchMessage_records_failures_three :
  exists w' before after clientMap localMediaData remoteMediaList unavailable steps,
    run twoTeams (sendBatchMessage asciiLower threeRecipients) pooled
    = (w', before ++ traceOf steps ++ after,
       Fulfilled (Respond 200 (BatchDone (length (unavailable ++ ledgerOf steps))
                                         (unavailable ++ ledgerOf steps))))
    /\ sends before = [] /\ sends after = []
    /\ length localMediaData = length (b_files threeRecipients)
    /\ length remoteMediaList = length (b_mediaUrls threeRecipients)
    /\ Forall isUnavailable unavailable
    /\ (forall sid client,
          clientMap !! sid = Some client ->
          sid ∈ b_sessionIds threeRecipients
          /\ exists t info, e_info twoTeams t client = Fulfilled (Some info))
    /\ (forall sid, sid ∈ b_sessionIds threeRecipients ->
          is_Some (clientMap !! sid) \/ exists err, Unavailable sid err ∈ unavailable)
    /\ (forall sid client,
          sid ∈ b_sessionIds threeRecipients ->
          clients pooled !! trim sid = Some client ->
          alwaysReady twoTeams client ->
          clientMap !! sid = Some client)
    /\ stepsFrom asciiLower twoTeams threeRecipients
                 (plannedContents (b_text threeRecipients) localMediaData remoteMediaList)
                 clientMap (tick pooled + length before)
                 (list_prod (b_to threeRecipients) (b_sessionIds threeRecipients)) steps.
Proof.
  apply (sendBatchMessage_records_failures asciiLower twoTeams threeRecipients pooled).
  - discriminate.
  - discriminate.
  - left. vm_compute. reflexivity.
  - intros t path. eexists. reflexivity.
  - intros t url. eexists. reflexivity.
Defined.

(** The same batch, evaluated: the second recipient does not resolve, the
    first and the third are sent to, and the call answers 200 with the
    three entries. *)
Example sendBatchMessage_three_ledger :
  (run twoTeams (sendBatchMessage asciiLower threeRecipients) pooled).2
  = Fulfilled (Respond 200 (BatchDone 3
      [SentEntry (js "s1") (js "15550000001@c.us") (js "15550000001@c.us")
                 (js "15550000001@c.us") (js "text") None (js "msg-1");
       FailedEntry (js "s1") (js "no such group") (js "Recipient not found: no such group");
       SentEntry (js "s1") (js "1203630001@g.us") (js "Team Alpha")
                 (js "Team Alpha") (js "text") None (js "msg-1")]))
  /\ sends (run twoTeams (sendBatchMessage asciiLower threeRecipients) pooled).1.2
     = [(0, js "15550000001@c.us", Text (js "hello"));
        (0, js "1203630001@g.us", Text (js "hello"))].
Proof. vm_compute. done. Qed.


(** * Further properties

    The rest of the development covers more functions of the program, and
    says more of some that are met above. *)

(** ** Webhook registrations *)

Section Registrations.

Variable E : env.

Lemma sendWebhook_posts (w : world) (eventType : list N)
      (payload : list (list N * option (list N))) :
  posts (run E (Webhook.sendWebhook eventType payload) w).1.2
  = match configured w eventType with
    | Some (c :: u) => [c :: u]
    | _ => []
    end.
Proof.
  unfold Webhook.sendWebhook, configured.
  rewrite run_bind. cbn.
  destruct (registeredWebhooks w !! eventType) as [[|c u]|] eqn:Hreg; cbn.
  - destruct (webhookUrls w !! eventType) as [[|c u]|]; cbn; [done| |done].
    by destruct (e_post E _ _) as [[]|e0].
  - by destruct (e_post E _ _) as [[]|e0].
  - destruct (webhookUrls w !! eventType) as [[|c u]|]; cbn; [done| |done].
    by destruct (e_post E _ _) as [[]|e0].
Qed.

Lemma sendWebhook_same (w1 w2 : world) (eventType : list N)
      (payload : list (list N * option (list N))) :
  registeredWebhooks w1 !! eventType = registeredWebhooks w2 !! eventType ->
  webhookUrls w1 !! eventType = webhookUrls w2 !! eventType ->
  tick w1 = tick w2 ->
  (run E (Webhook.sendWebhook eventType payload) w1).1.2
  = (run E (Webhook.sendWebhook eventType payload) w2).1.2
  /\ (run E (Webhook.sendWebhook eventType payload) w1).2
     = (run E (Webhook.sendWebhook eventType payload) w2).2.
Proof.
  intros Hreg Hurl Htick.
  unfold Webhook.sendWebhook.
  rewrite !run_bind. cbn. rewrite Hreg.
  destruct (registeredWebhooks w2 !! eventType) as [[|c u]|]; cbn; rewrite ?Hurl.
  - destruct (webhookUrls w2 !! eventType) as [[|c u]|]; cbn; [done| |done].
    rewrite Htick. by destruct (e_post E _ _) as [[]|e0].
  - rewrite Htick. by destruct (e_post E _ _) as [[]|e0].
  - destruct (webhookUrls w2 !! eventType) as [[|c u]|]; cbn; [done| |done].
    rewrite Htick. by destruct (e_post E _ _) as [[]|e0].
Qed.

(** X1. A registration takes precedence over the configuration: once a
    non-empty URL is registered for a non-empty event category,
    [sendWebhook] for that category posts to the registered URL and to no
    other, whatever [webhookUrls] holds for the category and whether the
    POST succeeds or not.  [getRegisteredWebhooks] shows the URL under
    that category - unless the category is "__proto__", a key that the
    object it builds cannot hold: that registration is in force and is
    not shown - and what it shows for the other categories is what it
    showed before. *)
Theorem registerWebhook_takes_precedence (w : world) (eventType url : list N)
        (payload : list (list N * option (list N))) :
  eventType <> [] -> url <> [] ->
  exists w1,
    Registry.registerWebhook (Some eventType) (Some url) w = (w1, Fulfilled tt)
    /\ posts (run E (Webhook.sendWebhook eventType payload) w1).1.2 = [url]
    /\ Registry.getRegisteredWebhooks w1 !! eventType
       = (if bool_decide (eventType = js "__proto__") then None else Some url)
    /\ (forall other, other <> eventType ->
          Registry.getRegisteredWebhooks w1 !! other
          = Registry.getRegisteredWebhooks w !! other).
Proof.
  intros Hev Hurl.
  destruct eventType as [|a ev]; [done|]. destruct url as [|b u]; [done|].
  eexists. split; [reflexivity|]. split; [|split].
  - rewrite sendWebhook_posts. unfold configured. cbn.
    by rewrite lookup_insert_eq.
  - unfold Registry.getRegisteredWebhooks. cbn [registeredWebhooks Registry.setRegistered].
    case_bool_decide as Hproto.
    + rewrite Hproto. apply lookup_delete_eq.
    + rewrite lookup_delete_ne by done. apply lookup_insert_eq.
  - intros other Hother.
    unfold Registry.getRegisteredWebhooks. cbn [registeredWebhooks Registry.setRegistered].
    destruct (decide (other = js "__proto__")) as [->|Hne].
    + by rewrite !lookup_delete_eq.
    + rewrite !lookup_delete_ne by done. by apply lookup_insert_ne.
Qed.

(** X2. Unregistering a category removes its registration and no other;
    [sendWebhook] for the category then posts to the URL that
    [webhookUrls] configures for it, or not at all when there is none (or
    an empty one); unregistering twice is unregistering once. *)
Theorem unregisterWebhook_falls_back (w : world) (eventType : list N)
        (payload : list (list N * option (list N))) :
  let w1 := Registry.unregisterWebhook eventType w in
  Registry.getRegisteredWebhooks w1 !! eventType = None
  /\ (forall other, other <> eventType ->
        Registry.getRegisteredWebhooks w1 !! other
        = Registry.getRegisteredWebhooks w !! other)
  /\ posts (run E (Webhook.sendWebhook eventType payload) w1).1.2
     = match webhookUrls w !! eventType with
       | Some (c :: u) => [c :: u]
       | _ => []
       end
  /\ Registry.unregisterWebhook eventType w1 = w1.
Proof.
  cbv zeta. split; [|split; [|split]].
  - unfold Registry.getRegisteredWebhooks, Registry.unregisterWebhook.
    cbn [registeredWebhooks Registry.setRegistered].
    destruct (decide (eventType = js "__proto__")) as [->|Hne].
    + apply lookup_delete_eq.
    + rewrite lookup_delete_ne by done. apply lookup_delete_eq.
  - intros other Hother.
    unfold Registry.getRegisteredWebhooks, Registry.unregisterWebhook.
    cbn [registeredWebhooks Registry.setRegistered].
    destruct (decide (other = js "__proto__")) as [->|Hne].
    + by rewrite !lookup_delete_eq.
    + by rewrite !lookup_delete_ne by done.
  - rewrite sendWebhook_posts. unfold configured. cbn.
    by rewrite lookup_delete_eq.
  - unfold Registry.unregisterWebhook, Registry.setRegistered. cbn.
    by rewrite delete_delete_eq.
Qed.

End Registrations.


Lemma registerWebhook_takes_precedence_message :
  exists w1,
    Registry.registerWebhook (Some (js "message")) (Some hookUrl) emptyWorld
    = (w1, Fulfilled tt)
    /\ posts (run unreachable (Webhook.sendWebhook (js "message") []) w1).1.2 = [hookUrl]
    /\ Registry.getRegisteredWebhooks w1 !! js "message"
       = (if bool_decide (js "message" = js "__proto__") then None else Some hookUrl)
    /\ (forall other, other <> js "message" ->
          Registry.getRegisteredWebhooks w1 !! other
          = Registry.getRegisteredWebhooks emptyWorld !! other).
Proof.
  apply (registerWebhook_takes_precedence unreachable emptyWorld (js "message") hookUrl []).
  - vm_compute. discriminate.
  - vm_compute. discriminate.
Defined.

(** A registration under "__proto__" is in force and is not shown. *)
Example registerWebhook_proto_hidden :
  let w1 := (Registry.registerWebhook (Some (js "__proto__")) (Some hookUrl) emptyWorld).1 in
  Registry.getRegisteredWebhooks w1 = ∅
  /\ posts (run quiet (Webhook.sendWebhook (js "__proto__") []) w1).1.2 = [hookUrl].
Proof. vm_compute. done. Qed.



(** ** Constructing a Client *)

Ltac reduce :=
  cbn -[Manager.poll Manager.restoreSession Manager.getOrRestoreClient
        Manager.disconnectSession Manager.deleteSession Manager.startNewSession
        resolveRecipient Webhook.sendWebhook trim].

Ltac reduce_all :=
  cbn -[Manager.poll Manager.restoreSession Manager.getOrRestoreClient
        Manager.disconnectSession Manager.deleteSession Manager.startNewSession
        resolveRecipient Webhook.sendWebhook trim] in *.

Ltac oracle :=
  match goal with
  | |- context [settle (e_info ?E ?t ?h)] =>
      let H := fresh "Hinfo" in destruct (e_info E t h) as [[?|]|?] eqn:H
  | |- context [initFailure (e_initialize ?E ?t ?h)] =>
      let H := fresh "Hinit" in destruct (initFailure (e_initialize E t h)) eqn:H
  | |- context [settle (e_destroy ?E ?t ?h)] =>
      let H := fresh "Hdestroy" in destruct (e_destroy E t h) as [[]|?] eqn:H
  | |- context [Manager.isNetworkError ?m] => destruct (Manager.isNetworkError m)
  end; reduce.

Section Create.

Variable E : env.

Lemma createClient_settles (uid sid name : list N) (w : world) :
  exists w' tr o,
    run E (Manager.createClient uid sid name) w = (w', tr, o)
    /\ match o with
       | Fulfilled h => clients w' !! sid = Some h
       | Rejected e =>
           clients w' !! sid = None
           /\ exists t h, initFailure (e_initialize E t h) = Some e
       end
    /\ created w <= created w' <= S (created w)
    /\ dom (sessions w') = dom (sessions w)
    /\ sleeps tr = []
    /\ (sessions w' = sessions w
        \/ exists st now, terminal st = true
                          /\ sessions w' = alter (withStatus st now) sid (sessions w)).
Proof.
  unfold Manager.createClient.
  rewrite run_tryCatch, run_bind. cbn.
  destruct (clients w !! sid) as [h0|] eqn:Hpool; cbn; rewrite ?Hpool; cbn;
    repeat oracle.
  all: eexists _, _, _; (split; [reflexivity|]); cbn.
  all: rewrite ?lookup_delete_eq, ?lookup_insert_eq, ?dom_alter_L.
  all: (split; [by eauto|]); (split; [lia|]); (split; [done|]); (split; [done|]).
  all: first [by left | right; eexists _, _; (split; [|reflexivity]); reflexivity].
Qed.

End Create.


(** ** Restoring a session *)

Section Polling.

Variable E : env.

Lemma getClient_run (sid : list N) (w : world) :
  (run E (Lifecycle.getClient sid) w).2
  = match clients w !! sid with
    | Some h => Fulfilled h
    | None => Rejected (Lifecycle.noActiveClient sid)
    end.
Proof. unfold Lifecycle.getClient. cbn. by destruct (clients w !! sid). Qed.

Lemma poll_run (n : nat) (sid : list N) (w : world) :
  exists w' tr res k,
    run E (Manager.poll n sid) w = (w', tr, Fulfilled res)
    /\ clients w' = clients w /\ sessions w' = sessions w /\ created w' = created w
    /\ (forall c, res = Some c -> clients w !! sid = Some c)
    /\ sleeps tr = replicate k 1000%Z /\ k <= n.
Proof.
  revert w. induction n as [|n IH]; intros w; cbn [Manager.poll].
  - exists w, [], None, 0. repeat split; try done; try lia.
  - rewrite run_bind. cbn.
    destruct (clients w !! sid) as [c|] eqn:Hpool; cbn; repeat oracle.
    all: try match goal with
         | |- context [run _ (Manager.poll _ _) ?w1] =>
             destruct (IH w1) as (w' & tr & res & k & Hrun & Hc & Hs & Hn & Hres & Hsl & Hk);
             rewrite Hrun; cbn in *
         end.
    all: lazymatch goal with
         | Hsl : sleeps _ = replicate ?k _ |- _ => eexists _, _, _, (S k)
         | _ => eexists _, _, _, 1
         end; (split; [reflexivity|]); cbn.
    all: rewrite ?Hsl; repeat split; try done; try congruence; try lia.
    all: intros c0 Hc0; apply Hres in Hc0; congruence.
Qed.

End Polling.

Section Restoring.

Variable E : env.

Lemma restoreSession_settles (s : list N) (w : world) :
  exists w' tr o,
    run E (Manager.restoreSession s) w = (w', tr, o)
    /\ match o with
       | Fulfilled h => clients w' !! trim s = Some h
       | Rejected e =>
           (e = Manager.notFoundError (trim s) /\ sessions w !! trim s = None
            /\ created w' = created w)
           \/ (clients w' !! trim s = None
               /\ exists t h, initFailure (e_initialize E t h) = Some e)
       end
    /\ created w <= created w' <= S (created w)
    /\ dom (sessions w') = dom (sessions w)
    /\ exists k, k <= 30 /\ sleeps tr = replicate k 1000%Z.
Proof.
  unfold Manager.restoreSession. cbv zeta.
  rewrite run_tryCatch, run_bind. cbn -[Manager.poll].
  destruct (clients w !! trim s) as [h0|] eqn:Hpool; cbn -[Manager.poll];
    rewrite ?Hpool; cbn -[Manager.poll]; repeat oracle.
  all: try (destruct (sessions w !! trim s) as [session|] eqn:Hdb; cbn -[Manager.poll]).
  all: try (eexists _, _, _; (split; [reflexivity|]); cbn;
            (split; [by eauto|]); (split; [lia|]); (split; [done|]);
            exists 0; split; [lia|done]).
  all: rewrite run_bind, run_awaitFn.
  all: match goal with
       | |- context [run _ (Manager.createClient ?u ?i ?n) ?w1] =>
           destruct (createClient_settles E u i n w1)
             as (w2 & tr2 & [h|err] & Hrun & Hpost & Hcr & Hdom & Hsl & _);
           rewrite Hrun; cbn -[Manager.poll] in *
       end.
  all: try (eexists _, _, _; (split; [reflexivity|]); cbn;
            (split; [right; by destruct Hpost|]); (split; [lia|]); (split; [done|]);
            exists 0; split; [lia|]; by rewrite sleeps_app, Hsl).
  all: rewrite run_bind.
  all: match goal with
       | |- context [run _ (Manager.poll ?n ?i) ?w1] =>
           destruct (poll_run E n i w1)
             as (w3 & tr3 & res & k & Hrun3 & Hc3 & Hs3 & Hn3 & Hres3 & Hsl3 & Hk3);
           rewrite Hrun3; cbn -[Manager.poll] in *
       end.
  all: destruct res as [c|]; cbn; rewrite ?Hc3, ?Hpost; cbn.
  all: eexists _, _, _; (split; [reflexivity|]); cbn.
  all: rewrite ?Hc3, ?Hs3, ?Hn3.
  all: (split; [try done; rewrite Hpost; f_equal; by specialize (Hres3 c eq_refl); congruence|]).
  all: (split; [lia|]); (split; [done|]).
  all: exists k; split; [lia|]; rewrite !sleeps_app, Hsl, Hsl3; cbn; by rewrite ?app_nil_r.
Qed.

End Restoring.


Section Obtaining.

Variable E : env.

Lemma getOrRestoreClient_settles (s : list N) (w : world) :
  exists w' tr o,
    run E (Manager.getOrRestoreClient s) w = (w', tr, o)
    /\ match o with
       | Fulfilled h =>
           clients w' !! trim s = Some h
           /\ exists t info, e_info E t h = Fulfilled (Some info)
       | Rejected e => exists cause, e = Manager.notAvailable (trim s) cause
       end
    /\ created w <= created w' <= S (created w)
    /\ dom (sessions w') = dom (sessions w).
Proof.
  unfold Manager.getOrRestoreClient. cbv zeta.
  rewrite run_tryCatch, run_bind. reduce.
  destruct (clients w !! trim s) as [h0|] eqn:Hpool; reduce; repeat oracle.
  all: try (eexists _, _, _; (split; [reflexivity|]); cbn;
            (split; [by eauto|]); (split; [lia|done])).
  all: rewrite run_bind, run_awaitFn.
  all: match goal with
       | |- context [run _ (Manager.restoreSession ?i) ?w1] =>
           destruct (restoreSession_settles E i w1)
             as (w2 & tr2 & [h|err] & Hrun & Hpost & Hcr & Hdom & Hsl);
           rewrite Hrun; rewrite trim_idem in Hpost; reduce_all
       end.
  all: repeat oracle.
  all: eexists _, _, _; (split; [reflexivity|]); cbn.
  all: (split; [by eauto|]); (split; [lia|done]).
Qed.

End Obtaining.


(** ** Clearing every session *)

Section Clear.

Variable E : env.

Lemma destroyed_app (tr1 tr2 : list call) :
  destroyed (tr1 ++ tr2) = destroyed tr1 ++ destroyed tr2.
Proof.
  induction tr1 as [|c tr1 IH]; [done|].
  destruct c; cbn; rewrite ?IH; done.
Qed.

Lemma clearLoop_run (entries : list (list N * handle)) (w : world) :
  exists w' tr,
    run E (forOf entries (fun '(id, client) =>
             tryCatch (await (Destroy client)) (fun e => Ret tt);;
             sync (ClientsDelete id))) w
    = (w', tr, Fulfilled tt)
    /\ (forall k, clients w' !! k
                  = if bool_decide (k ∈ entries.*1) then None else clients w !! k)
    /\ sessions w' = sessions w /\ files w' = files w /\ created w' = created w
    /\ destroyed tr = entries.*2.
Proof.
  remember (fun '(id, client) =>
              tryCatch (await (Destroy client)) (fun e => Ret tt);;
              sync (ClientsDelete id)) as body eqn:Hbody.
  revert w. induction entries as [|[id client] entries IH]; intros w; cbn [forOf].
  - exists w, []. repeat split; try done.
  - rewrite run_bind.
    assert (Hb : body (id, client)
                 = (tryCatch (await (Destroy client)) (fun e => Ret tt);;
                    sync (ClientsDelete id))) by (by subst body).
    rewrite Hb, run_bind. cbn.
    destruct (e_destroy E (tick w) client) as [[]|e]; cbn.
    all: match goal with
         | |- context [run _ (forOf _ _) ?w1] =>
             destruct (IH w1) as (w' & tr & Hrun & Hc & Hs & Hf & Hn & Hd);
             rewrite Hrun; cbn in *
         end.
    all: eexists _, _; (split; [reflexivity|]); cbn.
    all: rewrite Hd; repeat split; try done.
    all: intros k; rewrite Hc; destruct (decide (k = id)) as [->|Hne].
    all: try (rewrite (bool_decide_true (id ∈ id :: entries.*1)) by (by left);
              case_bool_decide; [done | by rewrite ?lookup_delete_eq]).
    all: rewrite ?lookup_delete_ne by done.
    all: rewrite (bool_decide_ext (k ∈ id :: entries.*1) (k ∈ entries.*1)); [done|].
    all: rewrite elem_of_cons; tauto.
Qed.

End Clear.


(** ** Records and notifications *)


Section Notifying.

Variable E : env.

Lemma sendWebhook_frame (w : world) (eventType : list N)
      (payload : list (list N * option (list N))) :
  exists w' tr,
    run E (Webhook.sendWebhook eventType payload) w = (w', tr, Fulfilled tt)
    /\ clients w' = clients w /\ sessions w' = sessions w /\ created w' = created w
    /\ length (posts tr) <= 1.
Proof.
  unfold Webhook.sendWebhook.
  rewrite run_bind. cbn.
  destruct (registeredWebhooks w !! eventType) as [[|c u]|]; cbn.
  2: destruct (e_post E _ _) as [[]|e0]; cbn.
  1,4: destruct (webhookUrls w !! eventType) as [[|c u]|]; cbn.
  2,5: destruct (e_post E _ _) as [[]|e0]; cbn.
  all: eexists _, _; (split; [reflexivity|]); cbn; repeat split; lia.
Qed.

End Notifying.


(** ** Starting a session *)

Section Starting.

Variable E : env.

Lemma sweep_lookup (uid : list N) (now1 now2 : Z) (m : gmap (list N) session) (k : list N) :
  filter (fun kv => ¬ stale uid [Qr] (now2 - 600000) kv.2)
         (filter (fun kv => ¬ stale uid [Disconnected; AuthFailed] (now1 - 3600000) kv.2) m)
    !! k
  = match m !! k with
    | Some s => if decide (swept uid now1 now2 s) then None else Some s
    | None => None
    end.
Proof.
  destruct (m !! k) as [s|] eqn:Hk.
  - case_decide as Hsw.
    + apply map_lookup_filter_None. right. intros x [Hx Hn1]%map_lookup_filter_Some Hn2.
      cbn in *. destruct Hsw; congruence.
    + apply map_lookup_filter_Some. cbn. split.
      * apply map_lookup_filter_Some. cbn. split; [done|]. intros ?. apply Hsw. by left.
      * intros ?. apply Hsw. by right.
  - apply map_lookup_filter_None. left. apply map_lookup_filter_None. by left.
Qed.

Lemma startNewSession_settles (uid name : list N) (forceNew : bool) (w : world) :
  let now1 := e_now E (tick w) in
  let now2 := e_now E (S (S (tick w))) in
  let newId := js "session_" ++ e_uuid E (S (S (S (S (tick w))))) in
  exists w' tr o,
    run E (Manager.startNewSession uid name forceNew) w = (w', tr, o)
    /\ (forall sid, sid <> newId ->
          sessions w' !! sid
          = match sessions w !! sid with
            | Some s => if decide (swept uid now1 now2 s) then None else Some s
            | None => None
            end)
    /\ match o with
       | Fulfilled sid =>
           sid = newId
           /\ (exists h, clients w' !! newId = Some h)
           /\ userId <$> sessions w' !! newId = Some uid
       | Rejected e => True
       end.
Proof.
  intros now1 now2 newId.
  unfold Manager.startNewSession.
  rewrite run_tryCatch, run_bind. cbn.
  destruct name as [|c name]; cbn.
  all: unfold perform; cbn.
  all: match goal with
       | |- context [match ?m !! ?k with _ => _ end] =>
           destruct (m !! k) as [old|] eqn:Hfresh
       end; cbn.
  1,3: eexists _, _, _; (split; [reflexivity|]); cbn;
       (split; [|done]); intros sid _; apply sweep_lookup.
  all: rewrite run_bind, run_awaitFn.
  all: match goal with
       | |- context [run _ (Manager.createClient ?u ?i ?n) ?w1] =>
           destruct (createClient_settles E u i n w1)
             as (w2 & tr2 & [h|err] & Hrun & Hpost & _ & _ & _ & Hses);
           rewrite Hrun; cbn in *
       end.
  all: eexists _, _, _; (split; [reflexivity|]); cbn.
  all: split;
    [intros sid Hsid;
     destruct Hses as [->|(st & now & _ & ->)];
     rewrite ?lookup_alter_ne by done;
     rewrite lookup_insert_ne by done; apply sweep_lookup|].
  all: try done.
  all: split; [done|]; split; [by eauto|].
  all: destruct Hses as [->|(st & now & _ & ->)];
       rewrite ?lookup_alter_eq, lookup_insert_eq; done.
Qed.

End Starting.


(** ** The session routes *)

Section Routes.

Variable E : env.

(** X14. [connectSession] always answers, with 200 or with 500.  With
    200 the body carries the new session id, the user id (the one of the
    request, or "test-user-1" when the request has none) and the session
    name (null when the request has none); a Client is pooled under that
    id and the record of that id belongs to that user.  With 500 the body
    carries "Unable to create session" and the message of the error. *)
Theorem connectSession_answers (req : SessionRoutes.connectRequest) (w : world) :
  let uid := orElse (SessionRoutes.c_userId req) (js "test-user-1") in
  exists w' tr r,
    run E (SessionRoutes.connectSession req) w = (w', tr, Fulfilled r)
    /\ ((exists sid h,
           r = Reply 200 [("sessionId", JString sid); ("userId", JString uid);
                          ("sessionName",
                           orNull (Some (orElse (SessionRoutes.c_sessionName req)
                                           (orElse (SessionRoutes.c_name req) []))))]%string
           /\ clients w' !! sid = Some h
           /\ userId <$> sessions w' !! sid = Some uid)
        \/ (exists e,
              r = Reply 500 [("error", JString (js "Unable to create session"));
                             ("details", JString (message e))]%string)).
Proof.
  intros uid.
  unfold SessionRoutes.connectSession. cbv zeta.
  rewrite run_tryCatch, run_bind, run_awaitFn.
  match goal with
  | |- context [run E (Manager.startNewSession ?u ?n ?f) ?w1] =>
      destruct (startNewSession_settles E u n f w1) as (w' & tr & [sid|e] & Hrun & _ & Hpost);
      rewrite Hrun
  end; cbn.
  - destruct Hpost as (-> & [h Hh] & Hu).
    eexists _, _, _. split; [reflexivity|]. left. by eexists _, _.
  - eexists _, _, _. split; [reflexivity|]. right. by eexists.
Qed.

End Routes.


(** ** Recipient ids *)

Lemma startsWith_refl (s : list N) : startsWith s s = true.
Proof. induction s as [|c s IH]; cbn; [done|]. by rewrite N.eqb_refl. Qed.

Lemma includes_refl (s : list N) : includes s s = true.
Proof. destruct s; cbn; [done|]. by rewrite N.eqb_refl, startsWith_refl. Qed.

Lemma includes_suffix (s p : list N) : includes (s ++ p) p = true.
Proof.
  induction s as [|c s IH]; cbn [app].
  - apply includes_refl.
  - cbn [includes]. rewrite IH. apply orb_true_r.
Qed.

Lemma formatRecipientId_cases (id : list N) :
  formatRecipientId id
  = match shapeOf id with
    | Some r => r
    | None => removeNonDigits id ++ personSuffix
    end.
Proof.
  unfold formatRecipientId, shapeOf, groupSuffix, personSuffix.
  destruct (includes id (js "@g.us") || includes id (js "@c.us")); [done|].
  destruct (includes id (js "-")); [done|].
  cbv zeta.
  by destruct ((10 <=? length (removeNonDigits id))%nat
               && eqs (removeNonDigits id) (removeSeparators id)).
Qed.

(** X18. [formatRecipientId] always returns an id that carries a chat
    suffix, it is idempotent, and it agrees with shapes 1 to 3 of
    [resolveRecipient] wherever one of them applies; any other token (a
    group name, a short number) becomes its digits with the person
    suffix. *)
Theorem formatRecipientId_suffixed (id : list N) :
  (includes (formatRecipientId id) groupSuffix
   || includes (formatRecipientId id) personSuffix) = true
  /\ formatRecipientId (formatRecipientId id) = formatRecipientId id
  /\ formatRecipientId id
     = match shapeOf id with
       | Some r => r
       | None => removeNonDigits id ++ personSuffix
       end.
Proof.
  assert (Hs : (includes (formatRecipientId id) groupSuffix
                || includes (formatRecipientId id) personSuffix) = true).
  { unfold formatRecipientId, groupSuffix, personSuffix.
    destruct (includes id (js "@g.us") || includes id (js "@c.us")) eqn:H1; [done|].
    destruct (includes id (js "-")).
    - by rewrite includes_suffix.
    - rewrite (includes_suffix _ (js "@c.us")). apply orb_true_r. }
  split; [exact Hs|]. split; [|apply formatRecipientId_cases].
  unfold formatRecipientId at 1. unfold groupSuffix, personSuffix in Hs. by rewrite Hs.
Qed.



(** ** Looking a group up by name *)



Section Lookup.

Variable toLowerCase : list N -> list N.
Variable E : env.

Lemma exact_is_partial (recipient : list N) (c : chat) :
  exactMatch toLowerCase recipient c = true -> partialMatches toLowerCase recipient c = true.
Proof.
  unfold exactMatch, partialMatches.
  intros [[Hg Hn]%andb_prop Heq]%andb_prop.
  rewrite Hg, Hn. cbn. apply bool_decide_eq_true in Heq as ->. apply includes_refl.
Qed.

Lemma resolveRecipient_run (client : handle) (recipient : list N) (w : world) :
  exists w' tr res,
    run E (resolveRecipient toLowerCase client recipient) w = (w', tr, Fulfilled res)
    /\ clients w' = clients w /\ sessions w' = sessions w /\ created w' = created w
    /\ files w' = files w
    /\ sends tr = [].
Proof.
  unfold resolveRecipient.
  destruct (includes recipient (js "@g.us") || includes recipient (js "@c.us"));
    [by eexists _, _, _|].
  destruct (includes recipient (js "-")); [by eexists _, _, _|].
  cbv zeta.
  destruct ((10 <=? length (removeNonDigits recipient))%nat
            && eqs (removeNonDigits recipient) (removeSeparators recipient));
    [by eexists _, _, _|].
  rewrite run_tryCatch, run_bind. cbn.
  destruct (e_getChats E (tick w) client) as [chats|e]; cbn; [|by eexists _, _, _].
  destruct (find (exactMatch toLowerCase recipient) chats); [by eexists _, _, _|].
  destruct (find (partialMatches toLowerCase recipient) chats); by eexists _, _, _.
Qed.

(** X17. The lookup of [resolveRecipient], for a token that none of
    shapes 1 to 3 applies to, when the chat list can be fetched: the call
    fetches the list once and does not raise.  An id it returns is the id
    of a chat of the list that is a group, has a name, and whose
    lower-cased name contains the lower-cased token; the display name is
    that of the chat; the match is flagged partial exactly when the name
    is not equal to the token.  It returns no id only when no group of
    the list has such a name.  When some group of the list is named
    exactly like the token, the result is not flagged partial, wherever
    that group stands in the list. *)
Theorem resolveRecipient_lookup (client : handle) (recipient : list N) (chats : list chat)
        (w : world) :
  shapeOf recipient = None ->
  e_getChats E (tick w) client = Fulfilled chats ->
  exists res,
    run E (resolveRecipient toLowerCase client recipient) w
    = (next w, [GetChats client], Fulfilled res)
    /\ match r_id res with
       | Some id =>
           exists c, c ∈ chats /\ chatId c = id /\ r_name res = chatName c
                     /\ isGroup c = true
                     /\ partialMatches toLowerCase recipient c = true
                     /\ r_partialMatch res = negb (exactMatch toLowerCase recipient c)
       | None =>
           Forall (fun c => partialMatches toLowerCase recipient c = false) chats
           /\ r_name res = Some recipient
       end
    /\ (Exists (fun c => exactMatch toLowerCase recipient c = true) chats ->
        r_partialMatch res = false).
Proof.
  intros Hshape Hchats.
  unfold shapeOf, groupSuffix, personSuffix in Hshape. unfold resolveRecipient.
  destruct (includes recipient (js "@g.us") || includes recipient (js "@c.us")); [done|].
  destruct (includes recipient (js "-")); [done|].
  cbv zeta in *.
  destruct ((10 <=? length (removeNonDigits recipient))%nat
            && eqs (removeNonDigits recipient) (removeSeparators recipient)); [done|].
  rewrite run_tryCatch, run_bind. cbn. rewrite Hchats. cbn.
  destruct (find (exactMatch toLowerCase recipient) chats) as [c|] eqn:Hexact; cbn.
  - apply find_some in Hexact as [Hin Hc].
    eexists. split; [reflexivity|]. cbn. split; [|done].
    exists c. rewrite Hc. repeat split; try done.
    + by apply list_elem_of_In.
    + unfold exactMatch in Hc. by destruct (isGroup c).
    + by apply exact_is_partial.
  - destruct (find (partialMatches toLowerCase recipient) chats) as [c|] eqn:Hpartial; cbn.
    + apply find_some in Hpartial as [Hin Hc].
      eexists. split; [reflexivity|]. cbn. split.
      * exists c. repeat split; try done.
        -- by apply list_elem_of_In.
        -- unfold partialMatches in Hc. by destruct (isGroup c).
        -- pose proof (find_none _ _ Hexact c Hin) as ->. done.
      * intros [c' [Hin' Hc']]%Exists_exists.
        apply list_elem_of_In in Hin'.
        pose proof (find_none _ _ Hexact c' Hin'). congruence.
    + eexists. split; [reflexivity|]. cbn. split.
      * split; [|done]. apply Forall_forall. intros c Hin.
        apply list_elem_of_In in Hin. exact (find_none _ _ Hpartial c Hin).
      * intros [c' [Hin' Hc']]%Exists_exists.
        apply list_elem_of_In in Hin'.
        pose proof (find_none _ _ Hexact c' Hin'). congruence.
Qed.

End Lookup.


Lemma resolveRecipient_lookup_team :
  exists res,
    run twoTeams (resolveRecipient asciiLower 0 (js "team")) pooled
    = (next pooled, [GetChats 0], Fulfilled res)
    /\ match r_id res with
       | Some id =>
           exists c, c ∈ [teamAlpha; teamBeta] /\ chatId c = id /\ r_name res = chatName c
                     /\ isGroup c = true
                     /\ partialMatches asciiLower (js "team") c = true
                     /\ r_partialMatch res = negb (exactMatch asciiLower (js "team") c)
       | None =>
           Forall (fun c => partialMatches asciiLower (js "team") c = false)
                  [teamAlpha; teamBeta]
           /\ r_name res = Some (js "team")
       end
    /\ (Exists (fun c => exactMatch asciiLower (js "team") c = true) [teamAlpha; teamBeta] ->
        r_partialMatch res = false).
Proof.
  apply (resolveRecipient_lookup asciiLower twoTeams 0 (js "team") [teamAlpha; teamBeta] pooled).
  - vm_compute. reflexivity.
  - reflexivity.
Defined.

(** ** Sending one message *)

Ltac sent := repeat first [rewrite sends_app | progress cbn [sends]].

Section Send.

Variable toLowerCase : list N -> list N.
Variable E : env.


(** X16. [sendMessage] always answers.  When the session id, the
    recipient or the text is missing or empty it answers 400 at once,
    without any call.  Otherwise: it answers 200 - then exactly one
    message was sent, the text of the request, through the Client pooled
    under the trimmed session id, to the id in the answer, and the answer
    carries the id of the sent message; or it answers 400 (session not
    ready, recipient not resolved) and nothing was sent; or it answers 500
    with the message of the error, and at most one send was attempted. *)
Theorem sendMessage_answers (req : sendRequest) (w : world) :
  exists w' tr r,
    run E (sendMessage toLowerCase req) w = (w', tr, Fulfilled r)
    /\ match s_sessionId req, s_to req, s_text req with
       | Some (a :: sid), Some (b :: to), Some (c :: text) =>
           (exists h id msg t name,
              r = Reply 200 [("success", JBool true); ("messageId", JString msg);
                             ("to", JString id); ("originalRecipient", JString (b :: to));
                             ("groupName", name); ("sessionId", JString (a :: sid))]%string
              /\ sends tr = [(h, id, Text (c :: text))]
              /\ clients w' !! trim (a :: sid) = Some h
              /\ e_sendMessage E t h id (Text (c :: text)) = Fulfilled msg)
           \/ (replyStatus r = 400 /\ sends tr = [])
           \/ (exists e,
                 r = Reply 500 [("error", JString (js "Failed to send message"));
                                ("details", JString (message e))]%string
                 /\ length (sends tr) <= 1)
       | _, _, _ =>
           r = Reply 400 [("error", JString (js "sessionId, to, and text required"))]%string
           /\ tr = [] /\ w' = w
       end.
Proof.
  unfold sendMessage.
  destruct (s_sessionId req) as [[|a sid]|]; [by eexists _, _, _| |by eexists _, _, _].
  destruct (s_to req) as [[|b to]|]; [by eexists _, _, _| |by eexists _, _, _].
  destruct (s_text req) as [[|c text]|]; [by eexists _, _, _| |by eexists _, _, _].
  cbv zeta.
  rewrite run_tryCatch, run_bind, run_awaitFn.
  pose proof (getOrRestoreClient_sends E (a :: sid) w) as Hs1.
  destruct (getOrRestoreClient_settles E (a :: sid) w)
    as (w1 & tr1 & [h|e] & Hrun & Hpost & _); rewrite Hrun in *; reduce_all.
  2: { eexists _, _, _. split; [reflexivity|]. right; right.
       eexists. split; [reflexivity|]. sent. rewrite Hs1. cbn. lia. }
  destruct Hpost as [Hpool _].
  oracle.
  3: { eexists _, _, _. split; [reflexivity|]. right; right.
       eexists. split; [reflexivity|]. sent. rewrite Hs1. cbn. lia. }
  2: { eexists _, _, _. split; [reflexivity|]. right; left.
       sent. by rewrite Hs1. }
  rewrite run_bind, run_awaitFn.
  match goal with
  | |- context [run E (resolveRecipient _ ?cl ?rc) ?w2] =>
      destruct (resolveRecipient_run toLowerCase E cl rc w2)
        as (w3 & tr3 & res & Hrun3 & Hc3 & _ & _ & _ & Hs3); rewrite Hrun3
  end.
  reduce_all.
  destruct (r_id res) as [[|d id]|]; reduce.
  1,3: eexists _, _, _; (split; [reflexivity|]); right; left;
       sent; by rewrite Hs1, Hs3.
  destruct (e_sendMessage E (tick w3) h (d :: id) (Text (c :: text))) as [msg|e] eqn:Hsend;
    reduce.
  - eexists _, _, _. split; [reflexivity|]. left.
    eexists _, _, _, _, _. split; [reflexivity|].
    sent. rewrite Hs1, Hs3. reduce. rewrite Hc3. eauto.
  - eexists _, _, _. split; [reflexivity|]. right; right.
    eexists. split; [reflexivity|].
    sent. rewrite Hs1, Hs3. cbn. lia.
Qed.

End Send.


(** ** The sends of a pair *)

Section Plan.

Context `{JS : arithmetic}.
Variable toLowerCase : list N -> list N.
Variable E : env.

Lemma followsPlan_app {A B} (client : handle) (rid : list N) (p1 p2 : list content)
      (tr1 tr2 : list call) (a : A) (o : outcome B) :
  followsPlan client rid p1 tr1 (Fulfilled a) ->
  followsPlan client rid p2 tr2 o ->
  followsPlan client rid (p1 ++ p2) (tr1 ++ tr2) o.
Proof.
  intros (n1 & Hn1 & Hs1 & Hsl1 & ->) (n2 & Hn2 & Hs2 & Hsl2 & Ho).
  exists (length p1 + n2). rewrite length_app. split; [lia|]. split; [|split].
  - rewrite sends_app, Hs1, Hs2, take_app_add, firstn_all, map_app. done.
  - by rewrite sleeps_app, Hsl1, Hsl2.
  - destruct o; [lia | done].
Qed.

Lemma followsPlan_stop {A B} (client : handle) (rid : list N) (p1 p2 : list content)
      (tr1 : list call) (e : error) :
  followsPlan (A := A) client rid p1 tr1 (Rejected e) ->
  followsPlan (A := B) client rid (p1 ++ p2) tr1 (Rejected e).
Proof.
  intros (n1 & Hn1 & Hs1 & Hsl1 & _).
  exists n1. rewrite length_app. split; [lia|]. split; [|done].
  by rewrite Hs1, take_app_le.
Qed.

Lemma sendLocal_later (client : handle) (sid rid recipient groupName : list N)
      (text : option (list N)) (items : list media) (i : nat) (w : world) :
  followsPlan client rid (map (fun m => Media m None) items)
    (run E (sendLocal client sid rid recipient groupName text (S i) items) w).1.2
    (run E (sendLocal client sid rid recipient groupName text (S i) items) w).2.
Proof.
  revert i w. induction items as [|m items IH]; intros i w; cbn [sendLocal].
  - exists 0. done.
  - rewrite run_bind. cbn.
    destruct (e_sendMessage E (tick w) client rid _) as [msg|e]; cbn.
    + match goal with
      | |- context [run E (sendLocal _ _ _ _ _ _ _ _) ?wx] =>
          destruct (IH (S i) wx) as (n & Hn & Hs & Hsl & Ho);
          destruct (run E (sendLocal client sid rid recipient groupName text (S (S i)) items) wx)
            as [[w' tr] o]
      end.
      cbn in *. exists (S n). cbn. split; [lia|].
      split; [by rewrite Hs|]. split; [done|]. destruct o; [lia | done].
    + exists 1. cbn. split; [lia|]. by rewrite take_0.
Qed.

Lemma sendLocal_plan (client : handle) (sid rid recipient groupName : list N)
      (text : option (list N)) (items : list media) (w : world) :
  followsPlan client rid
    match items with
    | [] => []
    | m :: ms => Media m (captionFor true text) :: map (fun m' => Media m' None) ms
    end
    (run E (sendLocal client sid rid recipient groupName text 0 items) w).1.2
    (run E (sendLocal client sid rid recipient groupName text 0 items) w).2.
Proof.
  destruct items as [|m items]; cbn [sendLocal].
  - exists 0. done.
  - rewrite run_bind. cbn.
    destruct (e_sendMessage E (tick w) client rid _) as [msg|e]; cbn.
    + match goal with
      | |- context [run E (sendLocal _ _ _ _ _ _ _ _) ?wx] =>
          destruct (sendLocal_later client sid rid recipient groupName text items 0 wx)
            as (n & Hn & Hs & Hsl & Ho);
          destruct (run E (sendLocal client sid rid recipient groupName text 1 items) wx)
            as [[w' tr] o]
      end.
      cbn in *. exists (S n). cbn. split; [lia|].
      split; [by rewrite Hs|]. split; [done|]. destruct o; [lia | done].
    + exists 1. cbn. split; [lia|]. by rewrite take_0.
Qed.

Lemma sendRemote_later (client : handle) (sid rid recipient groupName : list N)
      (text : option (list N)) (noLocal : bool) (items : list media) (i : nat) (w : world) :
  noLocal && bool_decide (i = 0) = false ->
  followsPlan client rid (map (fun m => Media m None) items)
    (run E (sendRemote client sid rid recipient groupName text noLocal i items) w).1.2
    (run E (sendRemote client sid rid recipient groupName text noLocal i items) w).2.
Proof.
  revert i w. induction items as [|m items IH]; intros i w Hflag; cbn [sendRemote].
  - exists 0. done.
  - rewrite run_bind, Hflag. cbn.
    destruct (e_sendMessage E (tick w) client rid _) as [msg|e]; cbn.
    + match goal with
      | |- context [run E (sendRemote _ _ _ _ _ _ _ _ _) ?wx] =>
          destruct (IH (S i) wx) as (n & Hn & Hs & Hsl & Ho); [apply andb_false_r|];
          destruct (run E (sendRemote client sid rid recipient groupName text noLocal
                             (S i) items) wx)
            as [[w' tr] o]
      end.
      cbn in *. exists (S n). cbn. split; [lia|].
      split; [by rewrite Hs|]. split; [done|]. destruct o; [lia | done].
    + exists 1. cbn. split; [lia|]. by rewrite take_0.
Qed.

Lemma sendRemote_plan (client : handle) (sid rid recipient groupName : list N)
      (text : option (list N)) (items : list media) (w : world) :
  followsPlan client rid
    match items with
    | [] => []
    | m :: ms => Media m (captionFor true text) :: map (fun m' => Media m' None) ms
    end
    (run E (sendRemote client sid rid recipient groupName text true 0 items) w).1.2
    (run E (sendRemote client sid rid recipient groupName text true 0 items) w).2.
Proof.
  destruct items as [|m items]; cbn [sendRemote].
  - exists 0. done.
  - rewrite run_bind. cbn.
    destruct (e_sendMessage E (tick w) client rid _) as [msg|e]; cbn.
    + match goal with
      | |- context [run E (sendRemote _ _ _ _ _ _ _ _ _) ?wx] =>
          destruct (sendRemote_later client sid rid recipient groupName text true items 1 wx)
            as (n & Hn & Hs & Hsl & Ho); [done|];
          destruct (run E (sendRemote client sid rid recipient groupName text true 1 items) wx)
            as [[w' tr] o]
      end.
      cbn in *. exists (S n). cbn. split; [lia|].
      split; [by rewrite Hs|]. split; [done|]. destruct o; [lia | done].
    + exists 1. cbn. split; [lia|]. by rewrite take_0.
Qed.

Lemma sendMedia_plan (client : handle) (sid rid recipient groupName : list N)
      (text : option (list N)) (localMediaData remoteMediaList : list media) (w : world) :
  bool_decide (localMediaData = []) && bool_decide (remoteMediaList = []) = false ->
  followsPlan client rid (plannedContents text localMediaData remoteMediaList)
    (run E (sendLocal client sid rid recipient groupName text 0 localMediaData;;
            sendRemote client sid rid recipient groupName text
                       (bool_decide (localMediaData = [])) 0 remoteMediaList) w).1.2
    (run E (sendLocal client sid rid recipient groupName text 0 localMediaData;;
            sendRemote client sid rid recipient groupName text
                       (bool_decide (localMediaData = [])) 0 remoteMediaList) w).2.
Proof.
  intros Hmedia. rewrite run_bind.
  pose proof (sendLocal_plan client sid rid recipient groupName text localMediaData w) as H1.
  destruct (run E (sendLocal client sid rid recipient groupName text 0 localMediaData) w)
    as [[w1 tr1] [[]|e]]; cbn [fst snd] in H1.
  - destruct localMediaData as [|m ms].
    + destruct remoteMediaList as [|m' ms']; [done|].
      pose proof (sendRemote_plan client sid rid recipient groupName text (m' :: ms') w1) as H2.
      rewrite bool_decide_eq_true_2 by done.
      destruct (run E (sendRemote client sid rid recipient groupName text true 0 (m' :: ms')) w1)
        as [[w2 tr2] o2]; cbn [fst snd] in *.
      apply (followsPlan_app client rid [] _ tr1 tr2 tt o2 H1 H2).
    + pose proof (sendRemote_later client sid rid recipient groupName text
                    (bool_decide (m :: ms = [])) remoteMediaList 0 w1) as H2.
      rewrite bool_decide_eq_false_2 in * by done.
      specialize (H2 eq_refl).
      destruct (run E (sendRemote client sid rid recipient groupName text false 0
                         remoteMediaList) w1)
        as [[w2 tr2] o2]; cbn [fst snd] in *.
      unfold plannedContents. cbn [app]. rewrite map_app.
      apply (followsPlan_app client rid (_ :: _) _ tr1 tr2 tt o2 H1 H2).
  - cbn [fst snd].
    destruct localMediaData as [|m ms].
    + destruct H1 as (n & Hn & Hs & Hsl & _). cbn in Hn. assert (n = 0) as -> by lia.
      exists 0. split; [lia|]. done.
    + unfold plannedContents. cbn [app]. rewrite map_app.
      apply (followsPlan_stop (A := unit) client rid (_ :: _) _ tr1 e H1).
Qed.

Lemma sendText_plan (client : handle) (sid rid recipient groupName : list N)
      (text : option (list N)) (w : world) :
  let p :=
    match text with
    | Some text =>
        if hasText (Some text) then
          await (SendMessage client rid (Text text))
          ≫= fun msg =>
               sync (ResultsPush (SentEntry sid rid recipient groupName (js "text") None msg))
        else Ret tt
    | None => Ret tt
    end in
  followsPlan client rid (plannedContents text [] []) (run E p w).1.2 (run E p w).2.
Proof.
  destruct text as [text|]; cbv zeta; unfold plannedContents;
    [destruct (hasText (Some text))|].
  - rewrite run_bind. cbn.
    destruct (e_sendMessage E (tick w) client rid (Text text)) as [msg|e]; cbn.
    + exists 1. done.
    + exists 1. done.
  - exists 0. done.
  - exists 0. done.
Qed.

(** X20. The sends of one pair of a batch, when the session has a
    prepared Client: they are the first [n] content items of the batch,
    in order - the text alone, or every uploaded file and then every
    remote file, the text riding as the caption of the very first file
    and of no other -, all through that Client and to one chat id.  A
    pair that reached its delay has sent every item. *)
Theorem processPair_follows_plan (clientMap : gmap (list N) handle) (req : batchRequest)
        (localMediaData remoteMediaList : list media)
        (recipient sid : list N) (client : handle) (w : world) :
  clientMap !! sid = Some client ->
  exists rid n,
    sends (run E (processPair toLowerCase clientMap req localMediaData remoteMediaList
                              recipient sid) w).1.2
    = map (fun c => (client, rid, c))
          (take n (plannedContents (b_text req) localMediaData remoteMediaList))
    /\ (n = length (plannedContents (b_text req) localMediaData remoteMediaList)
        \/ sleeps (run E (processPair toLowerCase clientMap req localMediaData
                                      remoteMediaList recipient sid) w).1.2 = []).
Proof.
  intros Hcm. unfold processPair. rewrite Hcm.
  rewrite run_tryCatch, run_bind, run_awaitFn.
  destruct (resolveRecipient_run toLowerCase E client recipient w)
    as (w1 & tr1 & res & Hrun1 & _ & _ & _ & _ & Hs1).
  destruct (resolveRecipient_settles toLowerCase E client recipient w)
    as (w1' & tr1' & res' & Hrun1' & _ & _ & _ & Hsl1 & _).
  rewrite Hrun1 in Hrun1'. injection Hrun1' as <- <- <-.
  rewrite Hrun1.
  destruct (r_id res) as [[|c rid]|] eqn:Hid.
  1,3: exists [], 0; cbn; sent; rewrite Hs1, !sleeps_app, Hsl1; split; [done | by right].
  cbv zeta. rewrite run_bind.
  match goal with
  | |- context [run E ?p w1] =>
      assert (Hcontent : followsPlan client (c :: rid)
                (plannedContents (b_text req) localMediaData remoteMediaList)
                (run E p w1).1.2 (run E p w1).2);
      [|destruct (run E p w1) as [[w2 tr2] o2]]
  end.
  { destruct (bool_decide (localMediaData = []) && bool_decide (remoteMediaList = []))
      eqn:Hmedia.
    - apply andb_true_iff in Hmedia as [->%bool_decide_eq_true ->%bool_decide_eq_true].
      apply sendText_plan.
    - by apply sendMedia_plan. }
  destruct Hcontent as (n & Hn & Hs & Hsl & Ho). cbn [fst snd] in Hs, Hsl, Ho.
  exists (c :: rid), n.
  destruct o2 as [[]|e].
  - rewrite delay_run. cbn. sent. rewrite Hs1, Hs, app_nil_r. split; [done | by left].
  - cbn. sent. rewrite Hs1, Hs, ?app_nil_r. split; [done|]. right.
    by rewrite !sleeps_app, Hsl1, Hsl.
Qed.

End Plan.


Lemma processPair_follows_plan_text :
  exists rid n,
    sends (run ready (processPair asciiLower twoClients twoByTwo [] []
                                  (js "15550000001@c.us") (js "s1")) emptyWorld).1.2
    = map (fun c => (0, rid, c)) (take n (plannedContents (b_text twoByTwo) [] []))
    /\ (n = length (plannedContents (b_text twoByTwo) [] [])
        \/ sleeps (run ready (processPair asciiLower twoClients twoByTwo [] []
                                          (js "15550000001@c.us") (js "s1")) emptyWorld).1.2
           = []).
Proof.
  apply (processPair_follows_plan asciiLower ready twoClients twoByTwo [] []
           (js "15550000001@c.us") (js "s1") 0 emptyWorld).
  vm_compute. reflexivity.
Defined.

(** ** A batch whose media cannot be prepared *)

Section MediaFailure.

Context `{JS : arithmetic}.
Variable toLowerCase : list N -> list N.
Variable E : env.

Lemma fetchRemote_fails (urls : list (list N)) (url : list N) (e : error) (w : world) :
  url ∈ urls ->
  (forall t, e_fromUrl E t url = Rejected e) ->
  exists e', (run E (fetchRemote urls) w).2 = Rejected e'.
Proof.
  intros Hin Hrej. revert w.
  induction urls as [|u urls IH]; intros w; [by apply elem_of_nil in Hin|].
  cbn [fetchRemote]. rewrite run_bind. cbn.
  destruct (e_fromUrl E (tick w) u) as [m|e0] eqn:Hu; cbn; [|by eexists].
  apply elem_of_cons in Hin as [->|Hin]; [by rewrite Hrej in Hu|].
  rewrite run_bind.
  destruct (IH Hin (next w)) as [e' He'].
  destruct (run E (fetchRemote urls) (next w)) as [[w2 tr2] o2]. cbn in *. subst o2.
  by eexists.
Qed.

(** X21. A batch with sessions and recipients, one of whose remote media
    URLs cannot be fetched: the call answers 500 "Failed to send batch
    messages" with the message of an error, nothing is sent, no session
    is looked up or restored (the pool is what it was and no Client is
    constructed), and no file is removed: the uploads of the request stay
    on disk. *)
Theorem sendBatchMessage_media_failure (req : batchRequest) (url : list N) (e : error)
        (w : world) :
  b_sessionIds req <> [] ->
  b_to req <> [] ->
  url ∈ b_mediaUrls req ->
  (forall t, e_fromUrl E t url = Rejected e) ->
  exists w' tr e',
    run E (sendBatchMessage toLowerCase req) w
    = (w', tr,
       Fulfilled (Respond 500 (Failure (js "Failed to send batch messages")
                                       (Some (message e')))))
    /\ sends tr = []
    /\ files w' = files w
    /\ clients w' = clients w
    /\ created w' = created w.
Proof.
  intros Hids Hto Hin Hrej.
  assert (Hurls : b_mediaUrls req <> []).
  { intros Hnil. rewrite Hnil in Hin. by apply elem_of_nil in Hin. }
  unfold sendBatchMessage.
  rewrite run_tryCatch.
  rewrite (bool_decide_eq_false_2 (b_sessionIds req = [])) by done.
  rewrite (bool_decide_eq_false_2 (b_to req = [])) by done.
  rewrite (bool_decide_eq_false_2 (b_mediaUrls req = [])) by done.
  rewrite andb_false_r.
  rewrite run_bind. cbn [run sync].
  change (perform E w ResultsNew) with (next (setResults (fun _ => []) w), Fulfilled tt).
  cbn [run settle]. rewrite run_bind.
  destruct (media_frame E (readUploads (b_files req)) (next (setResults (fun _ => []) w))
              (readUploads_media _)) as [(Hc1 & _ & Hf1 & Hn1) Hs1].
  destruct (run E (readUploads (b_files req)) (next (setResults (fun _ => []) w)))
    as [[w1 tr1] [ms|e1]]; cbn [fst snd] in *.
  2: { eexists _, _, _. split; [reflexivity|]. cbn. sent. by rewrite Hs1. }
  rewrite run_bind.
  destruct (media_frame E (fetchRemote (b_mediaUrls req)) w1 (fetchRemote_media _))
    as [(Hc2 & _ & Hf2 & Hn2) Hs2].
  destruct (fetchRemote_fails (b_mediaUrls req) url e w1 Hin Hrej) as [e2 He2].
  destruct (run E (fetchRemote (b_mediaUrls req)) w1) as [[w2 tr2] o2];
    cbn [fst snd] in *. subst o2.
  eexists _, _, _. split; [reflexivity|]. cbn. sent. rewrite Hs1, Hs2.
  cbn [clients sessions files created next setResults] in *.
  repeat split; congruence.
Qed.

End MediaFailure.


Lemma sendBatchMessage_media_failure_offline :
  exists w' tr e',
    run offline (sendBatchMessage asciiLower remotePicture) pooled
    = (w', tr,
       Fulfilled (Respond 500 (Failure (js "Failed to send batch messages")
                                       (Some (message e')))))
    /\ sends tr = []
    /\ files w' = files pooled
    /\ clients w' = clients pooled
    /\ created w' = created pooled.
Proof.
  apply (sendBatchMessage_media_failure asciiLower offline remotePicture
           (js "http://files.example/a.png")
           (Error (js "getaddrinfo ENOTFOUND files.example")) pooled).
  - vm_compute. discriminate.
  - vm_compute. discriminate.
  - vm_compute. apply list_elem_of_here.
  - intros t. reflexivity.
Defined.

(** ** Categories, other sessions, unknown sessions *)

Section Isolation.

Variable E : env.

(** X3. A registration under anything but one of the four categories
    ("message", "delivery", "group", "session") is accepted and never
    used: after it every notify function makes the same calls, in the same
    order, and settles in the same way as before it. *)
Theorem notify_ignores_other_categories (w : world) (eventType url : list N)
        (data : Webhook.object) :
  eventType ∉ [js "message"; js "delivery"; js "group"; js "session"] ->
  let w1 := (Registry.registerWebhook (Some eventType) (Some url) w).1 in
  Forall (fun notify : Webhook.object -> async unit =>
            (run E (notify data) w1).1.2 = (run E (notify data) w).1.2
            /\ (run E (notify data) w1).2 = (run E (notify data) w).2)
         [Webhook.notifyMessageReceived; Webhook.notifyMessageDelivered;
          Webhook.notifyMessageAck; Webhook.notifyGroupMemberAdded;
          Webhook.notifyGroupMemberRemoved; Webhook.notifySessionUpdate].
Proof.
  intros Hnot w1.
  assert (Hsame : forall cat payload,
             cat ∈ [js "message"; js "delivery"; js "group"; js "session"] ->
             (run E (awaitFn (Webhook.sendWebhook cat payload)) w1).1.2
             = (run E (awaitFn (Webhook.sendWebhook cat payload)) w).1.2
             /\ (run E (awaitFn (Webhook.sendWebhook cat payload)) w1).2
                = (run E (awaitFn (Webhook.sendWebhook cat payload)) w).2).
  { intros cat payload Hcat. rewrite !run_awaitFn.
    apply sendWebhook_same; subst w1.
    - destruct eventType as [|a ev]; [done|]. destruct url as [|b u]; [done|].
      cbn. apply lookup_insert_ne. intros Heq. apply Hnot. by rewrite Heq.
    - destruct eventType as [|a ev]; [done|]. by destruct url as [|b u].
    - destruct eventType as [|a ev]; [done|]. by destruct url as [|b u]. }
  repeat constructor; apply Hsame; rewrite !elem_of_cons; tauto.
Qed.

(** X5. The operations of the session manager on one session leave the
    other sessions alone: whatever the Clients, the clock and the file
    system do, after [createClient], [disconnectSession], [deleteSession],
    [restoreSession], [getOrRestoreClient] (for the trimmed id) and the
    startup callback of [restoreSessions] for session [sid], the pool
    entry and the persisted record of every other session are what they
    were. *)
Theorem manager_leaves_other_sessions (uid sid name other : list N) (w : world) :
  other <> sid ->
  untouched other w (run E (Manager.createClient uid sid name) w).1.1
  /\ untouched other w (run E (Manager.disconnectSession sid) w).1.1
  /\ untouched other w (run E (Manager.deleteSession sid) w).1.1
  /\ (forall s, trim s = sid ->
        untouched other w (run E (Manager.restoreSession s) w).1.1
        /\ untouched other w (run E (Manager.getOrRestoreClient s) w).1.1)
  /\ (forall s index, sessionId s = sid ->
        untouched other w (run E (Lifecycle.restoreOne s index) w).1.1).
Proof.
  intros Hne.
  split; [|split; [|split; [|split]]].
  - apply (callsAll_untouched E sid); [done|].
    eapply callsAll_impl, createClient_session. intros c [Hc _]. by apply sessionCall_confined.
  - apply (callsAll_untouched E sid); [done|].
    eapply callsAll_impl, disconnectSession_session.
    intros c [Hc _]. by apply sessionCall_confined.
  - apply (callsAll_untouched E sid); [done|]. apply deleteSession_confined.
  - intros s <-. split; apply (callsAll_untouched E (trim s)); try done.
    + eapply callsAll_impl, restoreSession_session. apply sessionCall_confined.
    + eapply callsAll_impl, getOrRestoreClient_session. apply sessionCall_confined.
  - intros s index <-. apply (callsAll_untouched E (sessionId s)); [done|].
    eapply callsAll_impl, restoreOne_session. apply sessionCall_confined.
Qed.

End Isolation.

Section UnknownSession.

Variable toLowerCase : list N -> list N.
Variable E : env.

(** X7. A session id that is neither persisted nor pooled (after
    trimming): [restoreSession] looks at the pool and at the collection
    and raises "Session ... not found in database", [getOrRestoreClient]
    raises "Session ... is not available. Session ... not found in
    database", neither constructs a Client or writes anything, and
    [sendMessage] for such a session answers 500 with that message as its
    details. *)
Theorem unknown_session_is_reported (s : list N) (w : world) :
  sessions w !! trim s = None ->
  clients w !! trim s = None ->
  run E (Manager.restoreSession s) w
  = (next (next w), [ClientsHas (trim s); FindOne (trim s)],
     Rejected (Manager.notFoundError (trim s)))
  /\ run E (Manager.getOrRestoreClient s) w
     = (next (next (next w)), [ClientsGet (trim s); ClientsHas (trim s); FindOne (trim s)],
        Rejected (Manager.notAvailable (trim s) (Manager.notFoundError (trim s))))
  /\ (forall to text, s <> [] -> to <> [] -> text <> [] ->
        (run E (sendMessage toLowerCase (mkSend (Some s) (Some to) (Some text))) w).2
        = Fulfilled (Reply 500
            [("error", JString (js "Failed to send message"));
             ("details",
              JString (message (Manager.notAvailable (trim s)
                                  (Manager.notFoundError (trim s)))))]%string)).
Proof.
  intros Hdb Hpool.
  assert (Hr : forall w0, sessions w0 = sessions w -> clients w0 = clients w ->
               run E (Manager.restoreSession (trim s)) w0
               = (next (next w0), [ClientsHas (trim s); FindOne (trim s)],
                  Rejected (Manager.notFoundError (trim s)))).
  { intros w0 Hs0 Hc0. unfold Manager.restoreSession. cbv zeta. rewrite trim_idem.
    rewrite run_tryCatch, run_bind. reduce. rewrite Hc0, Hpool. reduce.
    by rewrite Hs0, Hdb. }
  assert (Hg : run E (Manager.getOrRestoreClient s) w
     = (next (next (next w)), [ClientsGet (trim s); ClientsHas (trim s); FindOne (trim s)],
        Rejected (Manager.notAvailable (trim s) (Manager.notFoundError (trim s))))).
  { unfold Manager.getOrRestoreClient. cbv zeta.
    rewrite run_tryCatch, run_bind. reduce. rewrite Hpool. reduce.
    rewrite run_bind, run_awaitFn, Hr by done. done. }
  split; [|split; [exact Hg|]].
  - replace (Manager.restoreSession s) with (Manager.restoreSession (trim s))
      by (unfold Manager.restoreSession; cbv zeta; by rewrite trim_idem).
    by apply Hr.
  - intros to text Hs Hto Htext.
    destruct s as [|a s']; [done|]. destruct to as [|b to']; [done|].
    destruct text as [|c text']; [done|].
    unfold sendMessage. cbn [s_sessionId s_to s_text]. cbv zeta.
    rewrite run_tryCatch, run_bind, run_awaitFn, Hg. done.
Qed.

End UnknownSession.


Lemma notify_ignores_other_categories_event_name :
  let w1 := (Registry.registerWebhook (Some (js "session.update")) (Some hookUrl)
                                      emptyWorld).1 in
  Forall (fun notify : Webhook.object -> async unit =>
            (run quiet (notify (fun _ => None)) w1).1.2
            = (run quiet (notify (fun _ => None)) emptyWorld).1.2
            /\ (run quiet (notify (fun _ => None)) w1).2
               = (run quiet (notify (fun _ => None)) emptyWorld).2)
         [Webhook.notifyMessageReceived; Webhook.notifyMessageDelivered;
          Webhook.notifyMessageAck; Webhook.notifyGroupMemberAdded;
          Webhook.notifyGroupMemberRemoved; Webhook.notifySessionUpdate].
Proof.
  apply (notify_ignores_other_categories quiet emptyWorld (js "session.update") hookUrl
           (fun _ => None)).
  apply (bool_decide_unpack _). vm_compute. exact I.
Defined.

Lemma manager_leaves_other_sessions_s2 :
  untouched (js "s2") pooled
            (run ready (Manager.createClient (js "alice") (js "s1") (js "Alice phone")) pooled).1.1
  /\ untouched (js "s2") pooled (run ready (Manager.disconnectSession (js "s1")) pooled).1.1
  /\ untouched (js "s2") pooled (run ready (Manager.deleteSession (js "s1")) pooled).1.1
  /\ (forall s, trim s = js "s1" ->
        untouched (js "s2") pooled (run ready (Manager.restoreSession s) pooled).1.1
        /\ untouched (js "s2") pooled (run ready (Manager.getOrRestoreClient s) pooled).1.1)
  /\ (forall s index, sessionId s = js "s1" ->
        untouched (js "s2") pooled (run ready (Lifecycle.restoreOne s index) pooled).1.1).
Proof.
  apply (manager_leaves_other_sessions ready (js "alice") (js "s1") (js "Alice phone")
           (js "s2") pooled).
  vm_compute. discriminate.
Defined.

Lemma unknown_session_is_reported_s9 :
  run quiet (Manager.restoreSession (js " s9 ")) emptyWorld
  = (next (next emptyWorld), [ClientsHas (trim (js " s9 ")); FindOne (trim (js " s9 "))],
     Rejected (Manager.notFoundError (trim (js " s9 "))))
  /\ run quiet (Manager.getOrRestoreClient (js " s9 ")) emptyWorld
     = (next (next (next emptyWorld)),
        [ClientsGet (trim (js " s9 ")); ClientsHas (trim (js " s9 "));
         FindOne (trim (js " s9 "))],
        Rejected (Manager.notAvailable (trim (js " s9 "))
                    (Manager.notFoundError (trim (js " s9 ")))))
  /\ (forall to text, js " s9 " <> [] -> to <> [] -> text <> [] ->
        (run quiet (sendMessage asciiLower (mkSend (Some (js " s9 ")) (Some to) (Some text)))
             emptyWorld).2
        = Fulfilled (Reply 500
            [("error", JString (js "Failed to send message"));
             ("details",
              JString (message (Manager.notAvailable (trim (js " s9 "))
                                  (Manager.notFoundError (trim (js " s9 "))))))]%string)).
Proof.
  apply (unknown_session_is_reported asciiLower quiet (js " s9 ") emptyWorld).
  - vm_compute. reflexivity.
  - vm_compute. reflexivity.
Defined.

(** ** The contacts of a sheet *)

Section Contacts.

Variable toLowerCase : list N -> list N.
Variable number : Type.
Variable isFalsy : number -> bool.
Variable numberToString : number -> list N.

Lemma contactOf_dialable (pc nc : nat) (row : option (list (cell number))) (c : contact number) :
  contactOf isFalsy numberToString pc nc row = Some c -> dialable isFalsy c.
Proof.
  unfold contactOf. destruct row as [row|]; [|done]. cbv zeta.
  destruct (truthyCell isFalsy (nth pc row CellEmpty)); [|done].
  destruct (truthy _ && (10 <=? length (cleanPhone (showCell numberToString
                                                       (nth pc row CellEmpty)))))
    eqn:Hlen; [|done].
  intros [= <-]. apply andb_prop in Hlen as [Hne Hlen]. apply Nat.leb_le in Hlen.
  repeat split; cbn.
  - done.
  - apply Forall_forall. intros ch [Hch _]%list_elem_of_filter.
    apply orb_false_elim in Hch as [Hsp Hdash]. split; [done|].
    by apply N.eqb_neq.
  - destruct (truthyCell isFalsy (nth nc row CellEmpty)) eqn:Hname; [done|]. exact Hne.
Qed.

Lemma length_omap_le {X Y} (f : X -> option Y) (l : list X) :
  length (omap f l) <= length l.
Proof.
  induction l as [|x l IH]; cbn; [done|]. destruct (f x); cbn; lia.
Qed.

(** X22. The contacts that [sendBatchFromExcel] extracts from a sheet:
    every one of them has a phone of at least ten code units that holds
    no white space and no dash, and a name (the name cell of its row, or
    the phone when that cell is empty); there are at most as many as rows
    below the first; and each comes from a row below the first, whose
    cell in the phone column is not empty and, as a string without white
    space and dashes, is the phone: the first row never gives a contact,
    whether it is a header or not. *)
Theorem extractContacts_dialable (data : list (option (list (cell number)))) :
  let contacts := extractContacts toLowerCase isFalsy numberToString data in
  let column := phoneColIndex toLowerCase (headersOf data) in
  Forall (dialable isFalsy) contacts
  /\ length contacts <= length data - 1
  /\ Forall (fun c =>
               exists row,
                 Some row ∈ tail data
                 /\ truthyCell isFalsy (nth column row CellEmpty) = true
                 /\ contactPhone c
                    = cleanPhone (showCell numberToString (nth column row CellEmpty)))
            contacts.
Proof.
  unfold extractContacts. cbv zeta. split; [|split].
  - apply Forall_forall. intros c [row [_ Hrow]]%list_elem_of_omap.
    by apply contactOf_dialable in Hrow.
  - pose proof (length_omap_le
                  (contactOf isFalsy numberToString
                             (phoneColIndex toLowerCase (headersOf data))
                             (nameColIndex toLowerCase (headersOf data))) (tail data)).
    destruct data; cbn in *; lia.
  - apply Forall_forall. intros c [[row|] [Hin Hrow]]%list_elem_of_omap; [|done].
    exists row. split; [done|]. unfold contactOf in Hrow. cbv zeta in Hrow.
    destruct (truthyCell isFalsy (nth _ row CellEmpty)); [|done].
    destruct (truthy _ && _); [|done].
    by injection Hrow as <-.
Qed.

End Contacts.


(** ** The lookup of a group id *)

Section GroupLookup.

Variable normalize : option (list N) -> list N.
Variable E : env.

(** X23. [getGroupIdByName] always answers and never sends a message.
    A group it answers with is a group of the chat list whose normalized
    name equals or contains the normalized query; when it lists several
    matches they are at least two, each of them a group whose normalized
    name contains the query, and 200 is the status; every other answer is
    an error with status 400, 404 or 500. *)
Theorem getGroupIdByName_answers (sessionId groupName : option (list N)) (w : world) :
  exists w' tr r,
    run E (getGroupIdByName normalize sessionId groupName) w = (w', tr, Fulfilled r)
    /\ sends tr = []
    /\ match responseBody r with
       | GroupFound c =>
           statusCode r = 200
           /\ exists g exact, groupName = Some g /\ namedLike normalize g exact c = true
       | MultipleMatched matches =>
           statusCode r = 200 /\ 2 <= length matches
           /\ exists g, groupName = Some g
                        /\ Forall (fun c => namedLike normalize g false c = true) matches
       | Failure _ _ => statusCode r = 400 \/ statusCode r = 404 \/ statusCode r = 500
       | _ => False
       end.
Proof.
  unfold getGroupIdByName.
  destruct sessionId as [[|a sid]|];
    [by eexists _, _, _; repeat split; cbn; eauto| |by eexists _, _, _; repeat split; cbn; eauto].
  destruct groupName as [[|b g]|];
    [by eexists _, _, _; repeat split; cbn; eauto| |by eexists _, _, _; repeat split; cbn; eauto].
  cbv zeta.
  rewrite run_tryCatch, run_bind, run_awaitFn.
  pose proof (getOrRestoreClient_sends E (a :: sid) w) as Hs1.
  destruct (getOrRestoreClient_settles E (a :: sid) w)
    as (w1 & tr1 & [h|e] & Hrun & Hpost & _); rewrite Hrun in *; reduce_all.
  2: { eexists _, _, _. split; [reflexivity|]. cbn. sent. rewrite Hs1. eauto. }
  oracle.
  2,3: eexists _, _, _; (split; [reflexivity|]); cbn; sent; rewrite Hs1; by eauto.
  destruct (e_getChats E _ h) as [chats|e]; reduce.
  2: { eexists _, _, _. split; [reflexivity|]. cbn. sent. rewrite Hs1. eauto. }
  destruct (find (namedLike normalize (b :: g) true) chats) as [c|] eqn:Hexact; reduce.
  { apply find_some in Hexact as [_ Hc].
    eexists _, _, _. split; [reflexivity|]. cbn. sent. rewrite Hs1. eauto 10. }
  destruct (List.filter (namedLike normalize (b :: g) false) chats) as [|c [|c' ms]] eqn:Hf;
    reduce.
  - eexists _, _, _. split; [reflexivity|]. cbn. sent. rewrite Hs1. eauto.
  - assert (Hc : In c (List.filter (namedLike normalize (b :: g) false) chats))
      by (rewrite Hf; by left).
    apply filter_In in Hc as [_ Hc].
    eexists _, _, _. split; [reflexivity|]. cbn. sent. rewrite Hs1. eauto 10.
  - eexists _, _, _. split; [reflexivity|]. cbn. sent. rewrite Hs1.
    split; [done|]. split; [done|]. split; [lia|].
    eexists. split; [done|]. rewrite <- Hf. apply Forall_forall.
    intros x Hx%list_elem_of_In. by apply filter_In in Hx as [_ Hx].
Qed.

End GroupLookup.


(** ** The uploads of a batch *)

Section Cleanup.

Context `{JS : arithmetic}.
Variable toLowerCase : list N -> list N.
Variable E : env.

Lemma callsAll_files {A} (p : async A) (w : world) :
  callsAll keepsFiles p -> files (run E p w).1.1 = files w.
Proof.
  intros Hp.
  apply (callsAll_preserves E keepsFiles (fun w w' => files w' = files w) p);
    [done | congruence | | done].
  intros w0 c Hc. unfold perform. destruct c; cbn; try done.
  by destruct (sessions w0 !! sessionId s).
Qed.

Lemma callsAll_forOf {X} (P : call -> Prop) (xs : list X) (body : X -> async unit) :
  (forall x, callsAll P (body x)) -> callsAll P (forOf xs body).
Proof.
  intros Hbody. induction xs as [|x xs IH]; cbn [forOf]; [constructor|].
  apply callsAll_bind; [apply Hbody | intros _; apply IH].
Qed.

Lemma getOrRestoreClient_files (s : list N) :
  callsAll keepsFiles (Manager.getOrRestoreClient s).
Proof.
  eapply callsAll_impl, getOrRestoreClient_session. apply sessionCall_keepsFiles.
Qed.

Lemma prepareClients_files (sids : list (list N)) (clientMap : gmap (list N) handle) :
  callsAll keepsFiles (prepareClients sids clientMap).
Proof.
  revert clientMap. induction sids as [|sid sids IH]; intros clientMap;
    cbn [prepareClients]; [constructor|].
  apply callsAll_bind; [|intros cm; apply IH].
  apply callsAll_tryCatch; [|intros ?; calls].
  apply callsAll_bind; [apply callsAll_awaitFn, getOrRestoreClient_files|]. intros client.
  unfold Manager.hasInfo. calls.
Qed.

Lemma resolveRecipient_files (client : handle) (recipient : list N) :
  callsAll keepsFiles (resolveRecipient toLowerCase client recipient).
Proof.
  unfold resolveRecipient.
  destruct (includes recipient (js "@g.us") || includes recipient (js "@c.us")); [constructor|].
  destruct (includes recipient (js "-")); [constructor|].
  cbv zeta.
  destruct ((10 <=? length (removeNonDigits recipient))%nat
            && eqs (removeNonDigits recipient) (removeSeparators recipient)); [constructor|].
  calls.
Qed.

Lemma sendLocal_files (client : handle) (sid rid recipient groupName : list N)
      (text : option (list N)) (i : nat) (items : list media) :
  callsAll keepsFiles (sendLocal client sid rid recipient groupName text i items).
Proof.
  revert i. induction items as [|m items IH]; intros i; cbn [sendLocal]; [constructor|].
  apply callsAll_bind; [calls|]. intros msg.
  apply callsAll_bind; [calls|]. intros _. apply IH.
Qed.

Lemma sendRemote_files (client : handle) (sid rid recipient groupName : list N)
      (text : option (list N)) (noLocal : bool) (i : nat) (items : list media) :
  callsAll keepsFiles (sendRemote client sid rid recipient groupName text noLocal i items).
Proof.
  revert i. induction items as [|m items IH]; intros i; cbn [sendRemote]; [constructor|].
  apply callsAll_bind; [calls|]. intros msg.
  apply callsAll_bind; [calls|]. intros _. apply IH.
Qed.

Lemma processPair_files (clientMap : gmap (list N) handle) (req : batchRequest)
      (localMediaData remoteMediaList : list media) (recipient sid : list N) :
  callsAll keepsFiles
    (processPair toLowerCase clientMap req localMediaData remoteMediaList recipient sid).
Proof.
  unfold processPair. destruct (clientMap !! sid) as [client|]; [|constructor].
  apply callsAll_tryCatch; [|intros ?; calls].
  apply callsAll_bind; [apply callsAll_awaitFn, resolveRecipient_files|]. intros res.
  destruct (r_id res) as [[|c rid]|]; [calls| |calls].
  cbv zeta. apply callsAll_bind; [|intros _; unfold randomDelay, delay; calls].
  destruct (bool_decide (localMediaData = []) && bool_decide (remoteMediaList = [])).
  - destruct (b_text req) as [text|]; [|constructor].
    destruct (hasText (Some text)); [calls | constructor].
  - apply callsAll_bind; [apply sendLocal_files | intros _; apply sendRemote_files].
Qed.

Lemma roundRobin_files (clientMap : gmap (list N) handle) (req : batchRequest)
      (localMediaData remoteMediaList : list media) :
  callsAll keepsFiles (roundRobin toLowerCase clientMap req localMediaData remoteMediaList).
Proof.
  unfold roundRobin. apply callsAll_forOf. intros recipient.
  apply callsAll_forOf. intros sid. apply processPair_files.
Qed.

Lemma unlink_files (paths : list (list N)) (w : world) :
  exists w' tr,
    run E (forOf paths safeUnlink) w = (w', tr, Fulfilled tt)
    /\ files w' = files w ∖ list_to_set paths.
Proof.
  revert w. induction paths as [|path paths IH]; intros w; cbn [forOf].
  - exists w, []. split; [done|]. cbn. apply set_eq. intros f.
    rewrite elem_of_difference, elem_of_empty. tauto.
  - rewrite run_bind. unfold safeUnlink at 1. rewrite run_tryCatch. cbn.
    unfold perform. cbn. case_bool_decide as Hin; cbn.
    all: match goal with
         | |- context [run _ (forOf _ safeUnlink) ?wx] =>
             destruct (IH wx) as (w' & tr & Hrun & Hfiles)
         end.
    all: rewrite Hrun; eexists _, _; (split; [reflexivity|]); cbn in *.
    all: rewrite Hfiles; apply set_eq; intros f.
    all: rewrite !elem_of_difference, elem_of_union, elem_of_singleton.
    + tauto.
    + split; [|tauto]. intros [Hf Hn]. split; [done|]. intros [->|?]; tauto.
Qed.

(** X24. What [sendBatchMessage] does to the files on disk, for every
    request, world and environment: it always answers; when it answers
    200 exactly the uploaded files of the request are gone and every
    other file is still there, whatever was sent or failed; when it
    answers 400 it has made no call and changed nothing; when it answers
    500 (the media could not be read or fetched) no file is removed: the
    uploads stay on disk. *)
Theorem sendBatchMessage_removes_uploads (req : batchRequest) (w : world) :
  exists w' tr r,
    run E (sendBatchMessage toLowerCase req) w = (w', tr, Fulfilled r)
    /\ ((statusCode r = 200
         /\ files w' = files w ∖ list_to_set (map uploadPath (b_files req)))
        \/ (statusCode r = 400 /\ tr = [] /\ w' = w)
        \/ (statusCode r = 500 /\ files w' = files w)).
Proof.
  unfold sendBatchMessage. rewrite run_tryCatch.
  destruct (bool_decide (b_sessionIds req = [])); [eexists _, _, _; cbn; by eauto 10|].
  destruct (bool_decide (b_to req = [])); [eexists _, _, _; cbn; by eauto 10|].
  destruct (negb (hasText (b_text req)) && bool_decide (b_files req = [])
            && bool_decide (b_mediaUrls req = []));
    [eexists _, _, _; cbn; by eauto 10|].
  rewrite run_bind. cbn [run sync].
  change (perform E w ResultsNew) with (next (setResults (fun _ => []) w), Fulfilled tt).
  cbn [run settle]. rewrite run_bind.
  destruct (media_frame E (readUploads (b_files req)) (next (setResults (fun _ => []) w))
              (readUploads_media _)) as [(_ & _ & Hf1 & _) _].
  destruct (run E (readUploads (b_files req)) (next (setResults (fun _ => []) w)))
    as [[w1 tr1] [localMediaData|e1]]; cbn [fst snd] in *.
  2: { eexists _, _, _. split; [reflexivity|]. right; right. by split. }
  rewrite run_bind.
  destruct (media_frame E (fetchRemote (b_mediaUrls req)) w1 (fetchRemote_media _))
    as [(_ & _ & Hf2 & _) _].
  destruct (run E (fetchRemote (b_mediaUrls req)) w1) as [[w2 tr2] [remoteMediaList|e2]];
    cbn [fst snd] in *.
  2: { eexists _, _, _. split; [reflexivity|]. right; right. split; [done|].
       cbn in *. congruence. }
  rewrite run_bind.
  pose proof (callsAll_files _ w2 (prepareClients_files (b_sessionIds req) ∅)) as Hf3.
  destruct (prepareClients_run E (b_sessionIds req) ∅ w2)
    as (w3 & tr3 & clientMap & unavailable & Hrun3 & _).
  rewrite Hrun3 in *. cbn [fst snd] in Hf3. rewrite run_bind.
  pose proof (callsAll_files _ w3
                (roundRobin_files clientMap req localMediaData remoteMediaList)) as Hf4.
  destruct (roundRobin_run toLowerCase E clientMap req localMediaData remoteMediaList w3)
    as (w4 & steps & Hrun4 & _).
  rewrite Hrun4 in *. cbn [fst snd] in Hf4. rewrite run_bind.
  destruct (unlink_files (map uploadPath (b_files req)) w4) as (w5 & tr5 & Hrun5 & Hf5).
  rewrite Hrun5. cbn.
  eexists _, _, _. split; [reflexivity|]. left. split; [done|]. cbn in *.
  rewrite Hf5. congruence.
Qed.

End Cleanup.


(** ** The session manager when the session collection fails *)

Ltac store :=
  match goal with
  | |- context [performWith _ _ _ _] => unfold performWith, answerWith; reduce
  end;
  try match goal with
      | |- context [match ?o ?t with Some _ => _ | None => _ end] =>
          lazymatch type of o with
          | nat -> option error =>
              let H := fresh "Hstore" in destruct (o t) as [?|] eqn:H
          end; reduce
      end.

Lemma runWith_reliable {A} (E : env) (p : async A) (w : world) :
  runWith reliable E p w = run E p w.
Proof.
  revert w. induction p as [a|e|c k IH|k IH]; intros w; cbn; [done | done | | apply IH].
  assert (Hp : performWith reliable E w c = perform E w c).
  { unfold performWith, perform, answerWith, reliable. by destruct (storeCall c). }
  rewrite Hp. destruct (perform E w c) as [w1 r]. by rewrite IH.
Qed.

Section Outages.

Variable outage : nat -> option error.
Variable E : env.

Lemma runWith_bind {A B} (p : async A) (f : A -> async B) (w : world) :
  runWith outage E (p ≫= f) w =
  match runWith outage E p w with
  | (w1, tr1, Fulfilled a) =>
      let '(w2, tr2, o) := runWith outage E (f a) w1 in (w2, tr1 ++ tr2, o)
  | (w1, tr1, Rejected e) => (w1, tr1, Rejected e)
  end.
Proof.
  unfold mbind, async_bind.
  revert w. induction p as [a|e|c k IH|k IH]; intros w; cbn.
  - by destruct (runWith outage E (f a) w) as [[??]?].
  - done.
  - destruct (performWith outage E w c) as [w1 r]. rewrite IH.
    destruct (runWith outage E (k r) w1) as [[w2 tr] [a|e]]; [|done].
    by destruct (runWith outage E (f a) w2) as [[??]?].
  - apply IH.
Qed.

Lemma runWith_tryCatch {A} (p : async A) (h : error -> async A) (w : world) :
  runWith outage E (tryCatch p h) w =
  match runWith outage E p w with
  | (w1, tr1, Fulfilled a) => (w1, tr1, Fulfilled a)
  | (w1, tr1, Rejected e) =>
      let '(w2, tr2, o) := runWith outage E (h e) w1 in (w2, tr1 ++ tr2, o)
  end.
Proof.
  revert w. induction p as [a|e|c k IH|k IH]; intros w; cbn.
  - done.
  - by destruct (runWith outage E (h e) w) as [[??]?].
  - destruct (performWith outage E w c) as [w1 r]. rewrite IH.
    destruct (runWith outage E (k r) w1) as [[w2 tr] [a|e]]; [done|].
    by destruct (runWith outage E (h e) w2) as [[??]?].
  - apply IH.
Qed.

Lemma runWith_awaitFn {A} (p : async A) (w : world) :
  runWith outage E (awaitFn p) w = runWith outage E p w.
Proof.
  unfold awaitFn. rewrite runWith_tryCatch, runWith_bind.
  destruct (runWith outage E p w) as [[w1 tr] [a|e]]; cbn; by rewrite app_nil_r.
Qed.

(** A program that makes no call of the session collection runs as if
    there were no outage. *)
Lemma runWith_beside {A} (p : async A) (w : world) :
  callsAll besideStore p -> runWith outage E p w = run E p w.
Proof.
  intros Hp. revert w. induction Hp as [a|e|c k Hc Hk IH|k Hk IH]; intros w; cbn;
    [done | done | | apply IH].
  assert (Hperform : performWith outage E w c = perform E w c).
  { unfold performWith, perform, answerWith. by rewrite Hc. }
  rewrite Hperform. destruct (perform E w c) as [w1 r]. by rewrite IH.
Qed.

Lemma createClientWith_settles (uid sid name : list N) (w : world) :
  exists w' tr o,
    runWith outage E (Manager.createClient uid sid name) w = (w', tr, o)
    /\ match o with
       | Fulfilled h => clients w' !! sid = Some h
       | Rejected e =>
           clients w' !! sid = None
           /\ ((exists t h, initFailure (e_initialize E t h) = Some e)
               \/ exists t, outage t = Some e)
       end
    /\ created w <= created w' <= S (created w)
    /\ dom (sessions w') = dom (sessions w)
    /\ sleeps tr = []
    /\ match o with
       | Fulfilled _ => sessions w' = sessions w
       | Rejected _ =>
           sessions w' = sessions w
           \/ exists st now, terminal st = true
                             /\ sessions w' = alter (withStatus st now) sid (sessions w)
       end.
Proof.
  unfold Manager.createClient.
  rewrite runWith_tryCatch, runWith_bind. cbn.
  destruct (clients w !! sid) as [h0|] eqn:Hpool; cbn; rewrite ?Hpool; cbn;
    repeat first [oracle | store].
  all: eexists _, _, _; (split; [reflexivity|]); cbn.
  all: rewrite ?lookup_delete_eq, ?lookup_insert_eq, ?dom_alter_L.
  all: (split; [by eauto 10|]); (split; [lia|]); (split; [done|]); (split; [done|]).
  all: first [done | by left | right; eexists _, _; (split; [|reflexivity]); reflexivity].
Qed.




Lemma disconnectSessionWith_settles (sid : list N) (w : world) :
  exists w' tr o,
    runWith outage E (Manager.disconnectSession sid) w = (w', tr, o)
    /\ match o with
       | Fulfilled _ =>
           exists now, sessions w' = alter (withStatus Disconnected now) sid (sessions w)
       | Rejected e => exists t, outage t = Some e
       end
    /\ (clients w' !! sid = None
        \/ exists h t e, clients w !! sid = Some h /\ e_destroy E t h = Rejected e
                         /\ clients w' = clients w)
    /\ destroyed tr = match clients w !! sid with Some h => [h] | None => [] end
    /\ created w' = created w.
Proof.
  unfold Manager.disconnectSession.
  rewrite runWith_bind. cbn.
  destruct (clients w !! sid) as [h|] eqn:Hpool; cbn; repeat first [oracle | store].
  all: eexists _, _, _; (split; [reflexivity|]); cbn.
  all: rewrite ?lookup_delete_eq; (split; [by eauto|]); (split; [|done]).
  all: by eauto 10.
Qed.

Lemma deleteSessionWith_settles (sid : list N) (w : world) :
  exists w' tr o,
    runWith outage E (Manager.deleteSession sid) w = (w', tr, o)
    /\ match o with
       | Fulfilled record =>
           record = sessions w !! sid /\ sessions w' = delete sid (sessions w)
           /\ forall f, f ∈ files w' -> under (Manager.authPath sid) f ->
                exists t e, e_rmSync E t (Manager.authPath sid) = Rejected e
       | Rejected e => (exists t, outage t = Some e) /\ files w' = files w
       end
    /\ (clients w' !! sid = None
        \/ exists h t e, clients w !! sid = Some h /\ e_destroy E t h = Rejected e
                         /\ clients w' = clients w)
    /\ destroyed tr = match clients w !! sid with Some h => [h] | None => [] end
    /\ files w' ⊆ files w
    /\ created w' = created w.
Proof.
  unfold Manager.deleteSession.
  rewrite runWith_bind. cbn.
  destruct (clients w !! sid) as [h|] eqn:Hpool; cbn; repeat first [oracle | store].
  all: try (case_bool_decide as Hthere; cbn).
  all: try (unfold performWith, answerWith, perform; cbn;
            match goal with
            | |- context [e_rmSync ?E ?t ?p] =>
                let H := fresh "Hrm" in destruct (e_rmSync E t p) as [[]|?] eqn:H
            end; cbn).
  all: eexists _, _, _; (split; [reflexivity|]); cbn.
  all: rewrite ?lookup_delete_eq.
  all: (split; [|split; [by eauto 10|split; [done|split; [|done]]]]).
  all: try done.
  all: try lazymatch goal with
           | |- _ ⊆ _ => intros f [_ Hf]%elem_of_filter; exact Hf
           | |- (exists t, _) /\ _ => by eauto
           | |- _ = _ /\ _ /\ _ => (split; [done|split; [done|]]); intros f Hin Hunder
           end.
  all: try (by eauto).
  all: try (apply elem_of_filter in Hin as [Hnot _]; by destruct Hnot).
  all: destruct Hthere; apply Exists_exists; exists f; split;
       [by apply elem_of_elements | done].
Qed.

Lemma clearLoop_beside (entries : list (list N * handle)) :
  callsAll besideStore
    (forOf entries (fun '(id, client) =>
       tryCatch (await (Destroy client)) (fun e => Ret tt);;
       sync (ClientsDelete id))).
Proof.
  induction entries as [|[id client] entries IH]; cbn [forOf]; [constructor|].
  apply callsAll_bind; [calls | intros _; apply IH].
Qed.

Lemma clearAllSessionsWith_settles (w : world) :
  exists w' tr o,
    runWith outage E Manager.clearAllSessions w = (w', tr, o)
    /\ clients w' = ∅
    /\ destroyed tr = (map_to_list (clients w)).*2
    /\ files w' ⊆ files w
    /\ created w' = created w
    /\ match o with
       | Fulfilled n => n = size (sessions w) /\ sessions w' = ∅
       | Rejected e => (exists t, outage t = Some e) /\ files w' = files w
       end.
Proof.
  unfold Manager.clearAllSessions.
  rewrite runWith_bind. cbn. rewrite runWith_bind.
  destruct (clearLoop_run E (map_to_list (clients w)) (next w))
    as (w1 & tr1 & Hrun & Hc & Hs & Hf & Hn & Hd).
  match goal with
  | |- context [runWith outage E (forOf ?l ?b) ?w0] =>
      replace (runWith outage E (forOf l b) w0) with (w1, tr1, Fulfilled tt)
        by (rewrite <- Hrun; symmetry; apply runWith_beside, clearLoop_beside)
  end.
  assert (Hempty : clients w1 = ∅).
  { apply map_empty. intros k. rewrite Hc. case_bool_decide as Hk; [done|].
    destruct (clients w !! k) as [h|] eqn:Hpool; [|done].
    exfalso. apply Hk. apply list_elem_of_fmap. exists (k, h).
    split; [done | by apply elem_of_map_to_list]. }
  cbn in *. store.
  all: try (case_bool_decide as Hthere; cbn).
  all: try (unfold performWith, answerWith, perform; cbn;
            match goal with
            | |- context [e_rmSync ?E ?t ?p] => destruct (e_rmSync E t p) as [[]|?]
            end; cbn).
  all: eexists _, _, _; (split; [reflexivity|]); cbn.
  all: (split; [done|]).
  all: split; [rewrite !(destroyed_app), Hd; cbn; by rewrite ?app_nil_r|].
  all: rewrite ?Hf, ?Hs.
  all: split; [try done; intros f [_ Hfin]%elem_of_filter; done|].
  all: split; [done|]; by eauto.
Qed.


Lemma sendWebhook_beside (eventType : list N) (payload : list (list N * option (list N))) :
  callsAll besideStore (Webhook.sendWebhook eventType payload).
Proof.
  unfold Webhook.sendWebhook.
  apply callsAll_bind; [calls|]. intros url.
  apply callsAll_bind; [destruct (truthy url); [constructor | calls]|].
  intros [[|c u]|]; [constructor | calls | constructor].
Qed.

Section HandlersWith.

Variable toISOString : Z -> list N.

Lemma handlerWith_settles (st : status) (name : list N) (sid : list N) (w : world) :
  exists w' tr o,
    runWith outage E
      (now ← sync DateNow;
       await (FindOneAndUpdate sid st now);;
       sync (ClientsDelete sid);;
       stamp ← sync DateNow;
       awaitFn (Webhook.notifySessionUpdate
                  (Lifecycle.sessionEvent sid name (toISOString stamp)))) w
    = (w', tr, o)
    /\ created w' = created w
    /\ length (posts tr) <= 1
    /\ match o with
       | Fulfilled _ =>
           clients w' = delete sid (clients w)
           /\ exists now, sessions w' = alter (withStatus st now) sid (sessions w)
       | Rejected e =>
           (exists t, outage t = Some e) /\ clients w' = clients w /\ posts tr = []
       end.
Proof.
  unfold Webhook.notifySessionUpdate.
  rewrite runWith_bind. reduce. store.
  { eexists _, _, _. split; [reflexivity|]. cbn. repeat split; try done; try lia. by eauto. }
  rewrite !runWith_awaitFn, (runWith_beside _ _ (sendWebhook_beside _ _)).
  match goal with
  | |- context [run E (Webhook.sendWebhook ?ev ?p) ?w1] =>
      destruct (sendWebhook_frame E w1 ev p) as (w' & tr & Hrun & Hc & Hs & Hn & Hp);
      rewrite Hrun
  end.
  reduce_all.
  eexists _, _, _. split; [reflexivity|].
  rewrite Hc, Hs, Hn. repeat split; try done. by eexists.
Qed.

End HandlersWith.

Lemma kept_lookup (uid : list N) (now1 now2 : Z) (m m' : gmap (list N) session)
      (k : list N) :
  m' = m
  \/ m' = filter (fun kv => ¬ stale uid [Disconnected; AuthFailed] (now1 - 3600000) kv.2) m
  \/ m' = filter (fun kv => ¬ stale uid [Qr] (now2 - 600000) kv.2)
            (filter (fun kv => ¬ stale uid [Disconnected; AuthFailed] (now1 - 3600000) kv.2) m) ->
  match m !! k with
  | Some s => ~ swept uid now1 now2 s -> m' !! k = Some s
  | None => m' !! k = None
  end.
Proof.
  intros [->|[->| ->]]; destruct (m !! k) as [s|] eqn:Hk; try done.
  - intros Hn. apply map_lookup_filter_Some. split; [done|]. cbn. intros ?. apply Hn. by left.
  - apply map_lookup_filter_None. by left.
  - intros Hn. rewrite sweep_lookup, Hk. by case_decide.
  - by rewrite sweep_lookup, Hk.
Qed.

Lemma startNewSessionWith_settles (uid name : list N) (forceNew : bool) (w : world) :
  let now1 := e_now E (tick w) in
  let now2 := e_now E (S (S (tick w))) in
  let newId := js "session_" ++ e_uuid E (S (S (S (S (tick w))))) in
  exists w' tr o,
    runWith outage E (Manager.startNewSession uid name forceNew) w = (w', tr, o)
    /\ (forall sid, sid <> newId ->
          match sessions w !! sid with
          | Some s => ~ swept uid now1 now2 s -> sessions w' !! sid = Some s
          | None => sessions w' !! sid = None
          end)
    /\ match o with
       | Fulfilled sid =>
           sid = newId
           /\ (exists h, clients w' !! newId = Some h)
           /\ userId <$> sessions w' !! newId = Some uid
           /\ forall sid, sid <> newId ->
                sessions w' !! sid
                = match sessions w !! sid with
                  | Some s => if decide (swept uid now1 now2 s) then None else Some s
                  | None => None
                  end
       | Rejected e => True
       end.
Proof.
  intros now1 now2 newId.
  unfold Manager.startNewSession.
  rewrite runWith_tryCatch, runWith_bind. cbn.
  store.
  { eexists _, _, _. split; [reflexivity|]. cbn. split; [|done].
    intros sid _. apply (kept_lookup uid now1 now2). by left. }
  store.
  { eexists _, _, _. split; [reflexivity|]. cbn. split; [|done].
    intros sid _. apply (kept_lookup uid now1 now2). right. by left. }
  destruct name as [|c name]; cbn.
  all: store.
  1,3: eexists _, _, _; (split; [reflexivity|]); cbn; (split; [|done]);
       intros sid _; apply (kept_lookup uid now1 now2); right; by right.
  all: unfold perform; cbn.
  all: match goal with
       | |- context [match ?m !! ?k with _ => _ end] =>
           destruct (m !! k) as [old|] eqn:Hfresh
       end; cbn.
  1,3: eexists _, _, _; (split; [reflexivity|]); cbn; (split; [|done]);
       intros sid _; apply (kept_lookup uid now1 now2); right; by right.
  all: rewrite runWith_bind, runWith_awaitFn.
  all: match goal with
       | |- context [runWith _ _ (Manager.createClient ?u ?i ?n) ?w1] =>
           destruct (createClientWith_settles u i n w1)
             as (w2 & tr2 & [h|err] & Hrun & Hpost & _ & _ & _ & Hses);
           rewrite Hrun; cbn in *
       end.
  all: eexists _, _, _; (split; [reflexivity|]); cbn.
  all: split;
    [intros sid Hsid;
     try destruct Hses as [Hses|(st & now & _ & Hses)]; rewrite Hses;
     rewrite ?lookup_alter_ne by done;
     rewrite lookup_insert_ne by done;
     apply (kept_lookup uid now1 now2); right; by right|].
  all: try done.
  all: split; [done|]; split; [by eauto|]; rewrite Hses.
  all: split; [by rewrite lookup_insert_eq|].
  all: intros sid Hsid; rewrite lookup_insert_ne by done; apply sweep_lookup.
Qed.

End Outages.

(** ** What the operations of the manager guarantee

    In this part the session collection may fail: every statement holds
    for every [outage], the reliable collection included. *)

Section Guarantees.

Variable outage : nat -> option error.
Variable E : env.
Variable toISOString : Z -> list N.



(** X8. [disconnectSession] raises only when the update of the record is
    rejected by the session collection, and then with that error;
    whatever [destroy] does, it does not raise.  When it returns, the
    record of the session, if there is one, is marked [disconnected], and
    no record is created for an id that has none.  [destroy] is called on
    the pooled Client, once, if there is one.  Afterwards the pool holds
    no entry for the session, unless [destroy] rejected: then the pool is
    what it was and still holds the Client.  The [disconnect] route
    always answers: 200 "disconnected" when [disconnectSession] returned
    (also when [destroy] rejected), 500 "Unable to disconnect session"
    with the message of the error when the session collection rejected
    the update. *)
Theorem disconnect_always_answers (sid : list N) (w : world) :
  (exists w' tr o,
     runWith outage E (Manager.disconnectSession sid) w = (w', tr, o)
     /\ match o with
        | Fulfilled _ =>
            exists now, sessions w' = alter (withStatus Disconnected now) sid (sessions w)
        | Rejected e => exists t, outage t = Some e
        end
     /\ (clients w' !! sid = None
         \/ exists h t e, clients w !! sid = Some h /\ e_destroy E t h = Rejected e
                          /\ clients w' = clients w)
     /\ destroyed tr = match clients w !! sid with Some h => [h] | None => [] end
     /\ created w' = created w)
  /\ (exists w' tr r,
        runWith outage E (SessionRoutes.disconnect sid) w = (w', tr, Fulfilled r)
        /\ ((r = Reply 200 [("status", JString (js "disconnected"))]%string
             /\ exists now, sessions w' = alter (withStatus Disconnected now) sid (sessions w))
            \/ (exists t e,
                  outage t = Some e
                  /\ r = Reply 500 [("error", JString (js "Unable to disconnect session"));
                                    ("details", JString (message e))]%string))).
Proof.
  split; [apply disconnectSessionWith_settles|].
  unfold SessionRoutes.disconnect.
  rewrite runWith_tryCatch, runWith_bind, runWith_awaitFn.
  destruct (disconnectSessionWith_settles outage E sid w)
    as (w' & tr & [[]|e] & Hrun & Hpost & _).
  - rewrite Hrun. cbn. eexists _, _, _. split; [reflexivity|]. by left.
  - rewrite Hrun. cbn. eexists _, _, _. split; [reflexivity|]. right.
    destruct Hpost as [t Ht]. by exists t, e.
Qed.

(** X9. [deleteSession], for a session id that is one path segment,
    whatever [destroy] and the file system do: it raises only when the
    session collection rejects the deletion of the record, then with that
    error and before any file is removed; when it returns, it returns the
    persisted record of the session, or null when there is none, no
    record of the session is persisted any more, and nothing is left of
    the credential folder of the session unless [rmSync] rejected.  It
    removes files only.
    [destroy] is called on the pooled Client, once, if there is one; the
    pool holds no entry for the session afterwards, unless [destroy]
    rejected.  The route always answers: 200 when a record was deleted,
    404 when there was none, 500 "Unable to delete session" with the
    message of the error when the session collection rejected the
    deletion. *)
Theorem deleteSession_deletes_record (sid : list N) (w : world) :
  oneSegment sid ->
  (exists w' tr o,
     runWith outage E (Manager.deleteSession sid) w = (w', tr, o)
     /\ match o with
        | Fulfilled record =>
            record = sessions w !! sid /\ sessions w' = delete sid (sessions w)
            /\ forall f, f ∈ files w' -> under (Manager.authPath sid) f ->
                 exists t e, e_rmSync E t (Manager.authPath sid) = Rejected e
        | Rejected e => (exists t, outage t = Some e) /\ files w' = files w
        end
     /\ (clients w' !! sid = None
         \/ exists h t e, clients w !! sid = Some h /\ e_destroy E t h = Rejected e
                          /\ clients w' = clients w)
     /\ destroyed tr = match clients w !! sid with Some h => [h] | None => [] end
     /\ files w' ⊆ files w
     /\ created w' = created w)
  /\ (exists w' tr r,
        runWith outage E (SessionController.deleteSessionController sid) w
        = (w', tr, Fulfilled r)
        /\ ((r = match sessions w !! sid with
                 | Some _ => Respond 200 (Deleted sid)
                 | None => Respond 404 (Failure (js "Session not found") None)
                 end
             /\ sessions w' = delete sid (sessions w))
            \/ (exists t e,
                  outage t = Some e
                  /\ r = Respond 500 (Failure (js "Unable to delete session")
                                              (Some (message e)))))).
Proof.
  intros _.
  split; [apply deleteSessionWith_settles|].
  unfold SessionController.deleteSessionController.
  rewrite runWith_tryCatch, runWith_bind, runWith_awaitFn.
  destruct (deleteSessionWith_settles outage E sid w)
    as (w' & tr & [record|e] & Hrun & Hpost & _).
  - rewrite Hrun. destruct Hpost as (-> & Hs & _).
    destruct (sessions w !! sid); cbn; eexists _, _, _; (split; [reflexivity|]); by left.
  - rewrite Hrun. cbn. eexists _, _, _. split; [reflexivity|]. right.
    destruct Hpost as [[t Ht] _]. by exists t, e.
Qed.

(** X10. [clearAllSessions], run alone, whatever the Clients and the file
    system do: [destroy] is called once on every pooled Client (a
    rejected [destroy] stops nothing) and the pool ends empty, no Client
    is constructed and no file is created.  It raises only when the
    session collection rejects the deletion of the records, then with
    that error and before any file is removed; when it returns, it
    returns the number of persisted sessions and the session collection
    is empty. *)
Theorem clearAllSessions_clears_everything (w : world) :
  exists w' tr o,
    runWith outage E Manager.clearAllSessions w = (w', tr, o)
    /\ clients w' = ∅
    /\ destroyed tr ≡ₚ (map_to_list (clients w)).*2
    /\ files w' ⊆ files w
    /\ created w' = created w
    /\ match o with
       | Fulfilled n => n = size (sessions w) /\ sessions w' = ∅
       | Rejected e => (exists t, outage t = Some e) /\ files w' = files w
       end.
Proof.
  destruct (clearAllSessionsWith_settles outage E w)
    as (w' & tr & o & Hrun & Hc & Hd & Hf & Hn & Ho).
  exists w', tr, o. rewrite Hd. done.
Qed.


(** X12. The [auth_failure] and [disconnected] handlers of a Client.
    Each raises only when the session collection rejects the update of
    the record, then with that error, before the pool is touched and
    without a notification.  When it returns - also when the webhook
    cannot be delivered - the record of the session, if there is one, is
    marked [auth_failed] or [disconnected], the pool entry of the session
    is removed, whichever Client it holds at that time, and [getClient]
    raises "No active client for session: ...".  At most one notification
    is posted. *)
Theorem session_event_handlers_unpool (sid : list N) (w : world) :
  Forall (fun '(handler, st) =>
            exists w' tr o,
              runWith outage E (handler sid) w = (w', tr, o)
              /\ created w' = created w
              /\ length (posts tr) <= 1
              /\ match o with
                 | Fulfilled _ =>
                     clients w' = delete sid (clients w)
                     /\ (exists now, sessions w' = alter (withStatus st now) sid (sessions w))
                     /\ (run E (Lifecycle.getClient sid) w').2
                        = Rejected (Lifecycle.noActiveClient sid)
                 | Rejected e =>
                     (exists t, outage t = Some e) /\ clients w' = clients w
                     /\ posts tr = []
                 end)
         [(Lifecycle.onAuthFailure toISOString, AuthFailed);
          (Lifecycle.onDisconnected toISOString, Disconnected)].
Proof.
  repeat constructor.
  - destruct (handlerWith_settles outage E toISOString AuthFailed (js "auth_failed") sid w)
      as (w' & tr & o & Hrun & Hn & Hp & Ho).
    exists w', tr, o. split; [exact Hrun|]. split; [done|]. split; [done|].
    destruct o as [[]|e]; [|done]. destruct Ho as [Hc Hs]. repeat split; try done.
    by rewrite getClient_run, Hc, lookup_delete_eq.
  - destruct (handlerWith_settles outage E toISOString Disconnected (js "disconnected") sid w)
      as (w' & tr & o & Hrun & Hn & Hp & Ho).
    exists w', tr, o. split; [exact Hrun|]. split; [done|]. split; [done|].
    destruct o as [[]|e]; [|done]. destruct Ho as [Hc Hs]. repeat split; try done.
    by rewrite getClient_run, Hc, lookup_delete_eq.
Qed.

(** X13. The retention sweep of [startNewSession], in every world and
    environment and whether the session collection answers or not.
    Whether the call returns or raises, of the records of other session
    ids than the new one it removes none but those of the requesting user
    that were [disconnected] or [auth_failed] and last updated more than
    an hour before the first reading of the clock, or [qr] and last
    updated more than ten minutes before the second: every other record -
    of another user, in another status, or recent - is what it was, and
    no record of another id is created.  When the call returns, exactly
    those records are removed, it returns the new id, a Client is pooled
    under it and its record belongs to the requesting user. *)
Theorem startNewSession_sweeps_only_stale_records
        (uid name : list N) (forceNew : bool) (w : world) :
  let now1 := e_now E (tick w) in
  let now2 := e_now E (S (S (tick w))) in
  let newId := js "session_" ++ e_uuid E (S (S (S (S (tick w))))) in
  exists w' tr o,
    runWith outage E (Manager.startNewSession uid name forceNew) w = (w', tr, o)
    /\ (forall sid, sid <> newId ->
          match sessions w !! sid with
          | Some s => ~ swept uid now1 now2 s -> sessions w' !! sid = Some s
          | None => sessions w' !! sid = None
          end)
    /\ match o with
       | Fulfilled sid =>
           sid = newId
           /\ (exists h, clients w' !! newId = Some h)
           /\ userId <$> sessions w' !! newId = Some uid
           /\ forall sid, sid <> newId ->
                sessions w' !! sid
                = match sessions w !! sid with
                  | Some s => if decide (swept uid now1 now2 s) then None else Some s
                  | None => None
                  end
       | Rejected e => True
       end.
Proof. apply startNewSessionWith_settles. Qed.


End Guarantees.

Lemma deleteSession_deletes_record_s1 :
  (exists w' tr o,
     runWith reliable ready (Manager.deleteSession (js "s1")) pooled = (w', tr, o)
     /\ match o with
        | Fulfilled record =>
            record = sessions pooled !! js "s1"
            /\ sessions w' = delete (js "s1") (sessions pooled)
            /\ forall f, f ∈ files w' -> under (Manager.authPath (js "s1")) f ->
                 exists t e, e_rmSync ready t (Manager.authPath (js "s1")) = Rejected e
        | Rejected e => (exists t, reliable t = Some e) /\ files w' = files pooled
        end
     /\ (clients w' !! js "s1" = None
         \/ exists h t e, clients pooled !! js "s1" = Some h
                          /\ e_destroy ready t h = Rejected e
                          /\ clients w' = clients pooled)
     /\ destroyed tr = match clients pooled !! js "s1" with Some h => [h] | None => [] end
     /\ files w' ⊆ files pooled
     /\ created w' = created pooled)
  /\ (exists w' tr r,
        runWith reliable ready (SessionController.deleteSessionController (js "s1")) pooled
        = (w', tr, Fulfilled r)
        /\ ((r = match sessions pooled !! js "s1" with
                 | Some _ => Respond 200 (Deleted (js "s1"))
                 | None => Respond 404 (Failure (js "Session not found") None)
                 end
             /\ sessions w' = delete (js "s1") (sessions pooled))
            \/ (exists t e,
                  reliable t = Some e
                  /\ r = Respond 500 (Failure (js "Unable to delete session")
                                              (Some (message e)))))).
Proof.
  apply (deleteSession_deletes_record reliable ready (js "s1") pooled).
  vm_compute. repeat constructor; discriminate.
Defined.

(** The session collection is down: the routes answer 500, and the pool
    has been changed all the same. *)
Example disconnect_store_down :
  let '(w', tr, o) := runWith down ready (SessionRoutes.disconnect (js "s1")) pooled in
  o = Fulfilled (Reply 500 [("error", JString (js "Unable to disconnect session"));
                            ("details", JString (message storeDown))]%string)
  /\ clients w' = ∅ /\ destroyed tr = [0] /\ sessions w' = sessions pooled.
Proof. vm_compute. done. Qed.

Example deleteSession_store_down :
  let '(w', tr, o) :=
    runWith down ready (SessionController.deleteSessionController (js "s1")) pooled in
  o = Fulfilled (Respond 500 (Failure (js "Unable to delete session")
                                      (Some (message storeDown))))
  /\ clients w' = ∅ /\ sessions w' = sessions pooled /\ files w' = files pooled.
Proof. vm_compute. done. Qed.

Example createClient_store_down :
  let '(w', tr, o) :=
    runWith down ready (Manager.createClient (js "alice") (js "s1") (js "Alice phone"))
            persisted in
  o = Rejected storeDown /\ clients w' = ∅ /\ created w' = 0
  /\ tr = [ClientsHas (js "s1"); FindOne (js "s1"); ClientsDelete (js "s1")].
Proof. vm_compute. done. Qed.
